(** * cluster_tools: block-parallel inference, sub-solution stitching and
      background filtering

    A shallow embedding of the per-block code of

    - [cluster_tools/inference/multiscale_inference.py]
      ([_load_input], [_load_inputs], [_run_inference]),
    - [cluster_tools/inference/frameworks.py]
      ([PytorchPredicter.crop], [PytorchPredicter.__call__], [normalize],
      [preprocess_torch]),
    - [cluster_tools/multicut/sub_solutions.py]
      ([_read_subresults], [_write_block_res], [sub_solutions]),
    - [cluster_tools/postprocess/background_size_filter.py] ([apply_block]),

    and of the code that sets the inference up
    ([MultiscaleInferenceBase.run_impl], [multiscale_inference],
    [get_predictor], [get_preprocessor]), together with the properties that
    the design document states about them and further properties of the
    code.

    Conventions.  Python integers are [Z]; [//] is [Z.div] (both round towards
    minus infinity) and raises on a zero divisor.  [uint64] values are [Z]
    reduced modulo [2^64] wherever numpy computes in that type.  Python
    exceptions are the constructors of [exn]; a function that can raise
    returns a [result].  Python dictionaries are [gmap]s. *)

From Stdlib Require Import ZArith List Bool Lia.
From stdpp Require Import base option list strings gmap.

Local Open Scope Z_scope.

(** ** Exceptions and the error monad *)

Inductive exn : Type :=
| AssertionError
| IndexError
| ValueError
| ZeroDivisionError
| OverflowError
| AttributeError
| TypeError
| ExternalError (code : Z).

Inductive result (A : Type) : Type :=
| Ok (a : A)
| Raise (e : exn).

Arguments Ok {A} a.
Arguments Raise {A} e.

#[global] Instance result_ret : MRet result := fun A a => Ok a.
#[global] Instance result_bind : MBind result := fun A B f m =>
  match m with
  | Ok a => f a
  | Raise e => Raise e
  end.

(** [assert c] *)
Definition assert (c : bool) : result unit :=
  if c then Ok tt else Raise AssertionError.

(** A list comprehension whose body can raise: the elements are evaluated
    from left to right and the first exception ends the evaluation. *)
Fixpoint mapR {A B} (f : A -> result B) (l : list A) : result (list B) :=
  match l with
  | [] => Ok []
  | x :: l' => y ← f x; ys ← mapR f l'; Ok (y :: ys)
  end.

(** [zip] of three and of four sequences (Python's [zip] stops at the
    shortest one). *)
Definition zip3 {A B C} (a : list A) (b : list B) (c : list C)
  : list (A * B * C) := zip (zip a b) c.
Definition zip4 {A B C D} (a : list A) (b : list B) (c : list C) (d : list D)
  : list (A * B * C * D) := zip (zip3 a b c) d.

(** [a // b] for Python integers. *)
Definition floordiv (a b : Z) : result Z :=
  if decide (b = 0) then Raise ZeroDivisionError else Ok (a / b).

(** [[x // sf for x, sf in zip(xs, scale_factor)]] *)
Definition floordiv_zip (xs scale_factor : list Z) : result (list Z) :=
  mapR (fun p => floordiv p.1 p.2) (zip xs scale_factor).

(** A computation that can raise and that appends to a trace of events of
    type [E]; the events that happened before an exception stay in the
    trace. *)
Definition M (E A : Type) : Type := list E -> result A * list E.

#[global] Instance M_ret {E} : MRet (M E) := fun A a t => (Ok a, t).
#[global] Instance M_bind {E} : MBind (M E) := fun A B f m t =>
  match m t with
  | (Ok a, t') => f a t'
  | (Raise e, t') => (Raise e, t')
  end.

Definition emit {E} (e : E) : M E unit := fun t => (Ok tt, t ++ [e]).
Definition lift {E A} (r : result A) : M E A := fun t => (r, t).

Fixpoint mapM {E A B} (f : A -> M E B) (l : list A) : M E (list B) :=
  match l with
  | [] => mret []
  | x :: l' => y ← f x; ys ← mapM f l'; mret (y :: ys)
  end.

(** ** The numpy operations the code relies on *)

Module Numpy.

(** An n-dimensional array: its shape and its elements in C (row-major)
    order. *)
Record ndarray (V : Type) : Type := NDArray {
  shape : list Z;
  data : list V;
}.
Arguments NDArray {V} shape data.
Arguments shape {V} _.
Arguments data {V} _.

Definition ndim {V} (a : ndarray V) : nat := length (shape a).

(** [slice(start, stop)] and [slice(None)]. *)
Inductive slice : Type :=
| Slice (start stop : Z)
| SliceAll.

(** Length of [range(n)[start:stop]], the extent an axis of size [n] keeps
    under [slice(start, stop)]: negative bounds count from the end, and
    both bounds are cut to [[0, n]]. *)
Definition slice_bound (n i : Z) : Z :=
  if decide (i < 0) then Z.max (i + n) 0 else Z.min i n.
Definition slice_len (n start stop : Z) : Z :=
  Z.max 0 (slice_bound n stop - slice_bound n start).

Definition slice_first (n : Z) (s : slice) : Z :=
  match s with Slice start _ => slice_bound n start | SliceAll => 0 end.
Definition slice_extent (n : Z) (s : slice) : Z :=
  match s with Slice start stop => slice_len n start stop | SliceAll => n end.

Definition size_of (shape : list Z) : Z := foldr Z.mul 1 shape.

(** The first [k] consecutive rows of [sz] elements each. *)
Fixpoint rows {V} (k sz : nat) (l : list V) : list (list V) :=
  match k with
  | O => []
  | S k' => take sz l :: rows k' sz (drop sz l)
  end.

(** Elements of [a[bb]] for an array of shape [shape] stored in C order;
    axes beyond the slices given are kept whole. *)
Fixpoint take_nd {V} (shape : list Z) (bb : list slice) (l : list V)
  : list V :=
  match shape with
  | [] => l
  | n :: rest =>
      let s := match bb with [] => SliceAll | s :: _ => s end in
      let kept :=
        take (Z.to_nat (slice_extent n s))
             (drop (Z.to_nat (slice_first n s))
                   (rows (Z.to_nat n) (Z.to_nat (size_of rest)) l)) in
      mjoin (take_nd rest (tail bb) <$> kept)
  end.

(** [a[bb]] for a tuple [bb] of slices: more slices than axes is an
    [IndexError]. *)
Definition getitem_shape (shape : list Z) (bb : list slice)
  : result (list Z) :=
  if decide (length shape < length bb)%nat then Raise IndexError
  else Ok (map (fun '(n, s) => slice_extent n s) (zip shape bb)
             ++ drop (length bb) shape).

Definition getitem {V} (a : ndarray V) (bb : list slice)
  : result (ndarray V) :=
  sh ← getitem_shape (shape a) bb;
  Ok (NDArray sh (take_nd (shape a) bb (data a))).

(** [a.squeeze()]: every axis of extent 1 is dropped. *)
Definition squeeze {V} (a : ndarray V) : ndarray V :=
  NDArray (filter (fun n => n ≠ 1) (shape a)) (data a).

(** Shape of [np.pad(data, pad_width, mode='reflect')].  [pad_width] is
    broadcast to one pair per axis (a single pair serves every axis, any
    other length mismatch is a [ValueError]); an empty axis cannot be
    extended by reflection. *)
Definition broadcast_pad (ndim : nat) (pad_width : list (Z * Z))
  : result (list (Z * Z)) :=
  match pad_width with
  | [p] => Ok (replicate ndim p)
  | _ => if decide (length pad_width = ndim) then Ok pad_width
         else Raise ValueError
  end.

Definition pad_axis (np : Z * (Z * Z)) : result Z :=
  let '(n, (pl, pr)) := np in
  if decide (pl < 0 \/ pr < 0) then Raise ValueError
  else if decide (n = 0 /\ (0 < pl \/ 0 < pr)) then Raise ValueError
  else Ok (pl + n + pr).

Definition pad_shape (shape : list Z) (pad_width : list (Z * Z))
  : result (list Z) :=
  pw ← broadcast_pad (length shape) pad_width;
  mapR pad_axis (zip shape pw).

(** The 64-bit unsigned arithmetic of [uint64] arrays. *)
Definition u64 (z : Z) : Z := z mod 2 ^ 64.

(** [np.sum] of a [uint64] array. *)
Definition sum_u64 (l : list Z) : Z := foldl (fun acc x => u64 (acc + x)) 0 l.

(** [np.cumsum] of a [uint64] array. *)
Fixpoint cumsum_from (acc : Z) (l : list Z) : list Z :=
  match l with
  | [] => []
  | x :: l' => let s := u64 (acc + x) in s :: cumsum_from s l'
  end.
Definition cumsum (l : list Z) : list Z := cumsum_from 0 l.

(** [np.roll(a, 1)] of a one-dimensional array: the last element comes
    first. *)
Definition roll1 {A} (l : list A) : list A :=
  drop (length l - 1)%nat l ++ take (length l - 1)%nat l.

(** [np.array(l, dtype='uint64')] of Python integers. *)
Definition array_u64 (l : list Z) : result (list Z) :=
  mapR (fun z => if decide (0 ≤ z < 2 ^ 64) then Ok z else Raise OverflowError) l.

End Numpy.

(** ** Blocks of a [nifty.tools.blocking] *)

Module Nifty.

(** A block and the blocking, as far as the code looks into them. *)
Record block : Type := Block {
  block_begin : list Z;
  block_end : list Z;
}.

Record blocking : Type := Blocking {
  blockShape : list Z;
  getBlock : Z -> block;
}.

(** Modelled from the spec: [block_to_bb] of
    [cluster_tools.utils.volume_utils], which is not among the sources,
    gives "the block's bounding box": [tuple(slice(b, e) for b, e in
    zip(block.begin, block.end))], as [apply_block] of the background size
    filter spells it out. *)
Definition block_to_bb (b : block) : list (Z * Z) :=
  zip (block_begin b) (block_end b).

End Nifty.

(** ** Halo geometry: [_load_input] *)

Module LoadInput.
Import Numpy.

(** The requested window of one scale level: [starts] and [stops] as
    [_load_input] computes them before any clamping. *)
Definition window (offset block_shape halo scale_factor scale_halo : list Z)
  : result (list Z * list Z) :=
  this_offset ← floordiv_zip offset scale_factor;
  this_block_shape ← floordiv_zip block_shape scale_factor;
  this_halo ← floordiv_zip halo scale_factor;
  let starts :=
    map (fun '(off, ha, sh) => off - ha - sh)
        (zip3 this_offset this_halo scale_halo) in
  let stops :=
    map (fun '(off, bs, ha, sh) => off + bs + ha + sh)
        (zip4 this_offset this_block_shape this_halo scale_halo) in
  Ok (starts, stops).

(** What one call of [_load_input] does: the bounding box [bb] that is read
    from the dataset, the [pad_width] handed to [np.pad] ([None] when the
    data is returned as read) and the shape of the returned array. *)
Record loaded : Type := Loaded {
  bb : list (Z * Z);
  pad_width : option (list (Z * Z));
  data_shape : list Z;
}.

(** The padding that makes up for what clamping a window [[s, t)] to
    [[0, n)] cuts off on the left and on the right. *)
Definition pad_lo (s : Z) : Z := Z.max 0 (- s).
Definition pad_hi (n t : Z) : Z := Z.max 0 (t - n).

Definition any_Z (p : Z -> bool) (l : list Z) : bool := existsb p l.

(** [_load_input].  Of the dataset only the shape matters here; [ds[bb]] is
    taken to slice like a numpy array, and after the clamping the bounding
    box lies inside the dataset whenever the window meets it. *)
Definition _load_input (shape offset block_shape halo scale_factor scale_halo
                         : list Z) : result loaded :=
  '(starts, stops) ← window offset block_shape halo scale_factor scale_halo;
  (* check for padding to the left *)
  let '(pad_left, starts) :=
    if any_Z (fun start => bool_decide (start < 0)) starts
    then (Some (map (fun start => if decide (start < 0) then Z.abs start else 0)
                    starts),
          map (fun start => Z.max 0 start) starts)
    else (None, starts) in
  (* check for padding to the right; [shape[i]] needs [i < len(shape)] *)
  if decide (length shape < length stops)%nat then Raise IndexError else
  let '(pad_right, stops) :=
    if existsb (fun '(stop, n) => bool_decide (stop > n)) (zip stops shape)
    then (Some (map (fun '(stop, n) => if decide (stop > n) then stop - n else 0)
                    (zip stops shape)),
          map (fun '(stop, n) => Z.min n stop) (zip stops shape))
    else (None, stops) in
  let bb := zip starts stops in
  data ← getitem_shape shape (map (fun '(start, stop) => Slice start stop) bb);
  match pad_left, pad_right with
  | None, None => Ok (Loaded bb None data)
  | _, _ =>
      let pad_left := default [0; 0; 0] pad_left in
      let pad_right := default [0; 0; 0] pad_right in
      let pad_width := zip pad_left pad_right in
      data ← pad_shape data pad_width;
      Ok (Loaded bb (Some pad_width) data)
  end.

(** [_load_inputs]: one [_load_input] per dataset, scale factor and scale
    halo. *)
Definition _load_inputs (shapes : list (list Z)) (offset block_shape halo : list Z)
    (scale_factors scale_halos : list (list Z)) : result (list loaded) :=
  mapR (fun '(shape, sf, sh) => _load_input shape offset block_shape halo sf sh)
       (zip3 shapes scale_factors scale_halos).

(** Example data: a volume of shape (15, 10, 10) cut into blocks of shape
    (10, 10, 10) along its first axis; block 1 is cut off at the boundary
    of the volume. *)
Definition ex_cut_blocking : Nifty.blocking :=
  Nifty.Blocking [10; 10; 10]
    (fun b => Nifty.Block [10 * b; 0; 0] [Z.min 15 (10 * b + 10); 10; 10]).

End LoadInput.

(** ** Predictors and preprocessing: [frameworks.py] *)

Module Frameworks.
Import Numpy.

(** What is handed to, or comes back from, a model: one array, a list (or
    tuple) of arrays, or a value of another type. *)
Inductive pdata (V : Type) : Type :=
| Arr (a : ndarray V)
| Lst (l : list (ndarray V))
| Other.
Arguments Arr {V} a.
Arguments Lst {V} l.
Arguments Other {V}.

(** The halo of a predictor: a list of integers, or a nested list with one
    halo per output scale ([has_multiscale_halo]). *)
Inductive halo_t : Type :=
| Halo (h : list Z)
| MultiscaleHalo (hs : list (list Z)).

Definition has_multiscale_halo (halo : halo_t) : bool :=
  match halo with MultiscaleHalo _ => true | Halo _ => false end.

Section PytorchPredicter.
Context {V : Type}.

(** The network ([self.model], with the transfer to and from the device),
    the optional test-time augmenter and the halo of the predictor.  Of what
    the augmenter returns, [Lst] is a list only: [__call__] tests
    [isinstance(out, list)], so that a tuple is a value of another type
    there, [Other]. *)
Variable model : pdata V -> pdata V.
Variable augmenter :
  option ((pdata V -> result (pdata V)) -> pdata V -> result (pdata V)).
Variable halo : halo_t.

(** [PytorchPredicter.crop] *)
Definition crop (out : ndarray V) (halo : list Z) : result (ndarray V) :=
  let shape := if decide (ndim out = 3%nat) then shape out
               else tail (shape out) in
  let bb := map (fun '(ha, sh) => Slice ha (sh - ha)) (zip halo shape) in
  let bb := if decide (ndim out = 4%nat) then SliceAll :: bb else bb in
  getitem out bb.

(** [PytorchPredicter.apply_model] *)
Definition apply_model (input_data : pdata V) : result (pdata V) :=
  match model input_data with
  | Arr out => Ok (Arr (squeeze out))
  | Lst out => Ok (Lst (squeeze <$> out))
  | Other => Raise TypeError
  end.

(** [PytorchPredicter.check_data] *)
Definition check_data (data : pdata V) : result unit :=
  match data with
  | Arr a => assert (bool_decide (ndim a = 3%nat))
  | Lst l => assert (forallb (fun d => bool_decide (ndim d = 3%nat)) l)
  | Other => Raise ValueError
  end.

(** [PytorchPredicter.__call__] *)
Definition __call__ (input_data : pdata V) : result (pdata V) :=
  _ ← check_data input_data;
  out ← match augmenter with
        | None => apply_model input_data
        | Some aug => aug apply_model input_data
        end;
  match out, halo with
  | Lst out, MultiscaleHalo hs =>
      _ ← assert (bool_decide (length hs = length out));
      out ← mapR (fun '(oo, h) => crop oo h) (zip out hs);
      Ok (Lst out)
  | Lst out, Halo h =>
      match out with
      | [] => Raise IndexError
      | out0 :: _ => out ← crop out0 h; Ok (Arr out)
      end
  | Arr out, Halo h => out ← crop out h; Ok (Arr out)
  | Arr out, MultiscaleHalo hs =>
      (* [sh - ha] with [ha] a list *)
      match zip hs (if decide (ndim out = 3%nat) then shape out
                    else tail (shape out)) with
      | [] => out ← getitem out (if decide (ndim out = 4%nat)
                                 then [SliceAll] else []);
              Ok (Arr out)
      | _ :: _ => Raise TypeError
      end
  | Other, _ => Raise AttributeError
  end.

End PytorchPredicter.

Section Preprocessing.
(** Voxels of the stored volume and [float32] values; the floating-point
    operations of numpy are taken as they are. *)
Context {V F : Type}.
Variable astype_float32 : V -> F.
Variables fadd fsub fdiv : F -> F -> F.
Variable is_zero : F -> bool.
Variables np_mean np_std np_min np_max : list F -> F.
Variable eps_default : F.

(** [data[data != 0]]: the voxels that are not zero, in the order of the
    array. *)
Definition nonzero (l : list F) : list F :=
  filter (fun x => is_zero x = false) l.

(** [normalize] *)
Definition normalize (data : ndarray F) (eps : F) (mean std : option F)
    (filter_zeros : bool) : ndarray F :=
  let data_pre :=
    if filter_zeros then nonzero (Numpy.data data) else Numpy.data data in
  let mean := match mean with None => np_mean data_pre | Some m => m end in
  let std := match std with None => np_std data_pre | Some s => s end in
  NDArray (shape data)
          ((fun x => fdiv (fsub x mean) (fadd std eps)) <$> Numpy.data data).

(** [normalize01] *)
Definition normalize01 (data : ndarray F) (eps : F) : ndarray F :=
  let min_ := np_min (Numpy.data data) in
  let max_ := np_max (Numpy.data data) in
  NDArray (shape data)
          ((fun x => fdiv (fsub x min_) (fadd max_ eps)) <$> Numpy.data data).

(** [cast] *)
Definition cast (data : ndarray V) : ndarray F :=
  NDArray (shape data) (astype_float32 <$> Numpy.data data).

(** [preprocess_torch] *)
Definition preprocess_torch (data : pdata V) (mean std : option F)
    (use_zero_mean_unit_variance : bool) : result (pdata F) :=
  let normalizer :=
    if use_zero_mean_unit_variance
    then (fun d => normalize d eps_default mean std true)
    else (fun d => normalize01 d eps_default) in
  match data with
  | Arr a => Ok (Arr (normalizer (cast a)))
  | Lst l => Ok (Lst ((fun d => normalizer (cast d)) <$> l))
  | Other => Raise ValueError
  end.

End Preprocessing.

End Frameworks.

(** ** The per-block pipeline: [_run_inference] *)

Module MultiscaleInference.
Import Numpy Nifty LoadInput Frameworks.

Definition to_slices (bb : list (Z * Z)) : list slice :=
  map (fun '(b, e) => Slice b e) bb.

Inductive dtype : Type := uint8 | float32.

#[global] Instance dtype_eq_dec : EqDecision dtype.
Proof. solve_decision. Defined.

(** An output dataset: the code looks at its shape and its dtype. *)
Record out_dataset : Type := OutDataset {
  dso_shape : list Z;
  dso_dtype : dtype;
}.

Definition dso_ndim (d : out_dataset) : nat := length (dso_shape d).

Section RunInference.
(** Voxel values of a prediction and the preprocessed input of the
    predictor. *)
Context {V Pre : Type}.

(** What a run does to the outside world, in the order in which it happens:
    log lines, reads of the mask, calls of the collaborators and writes to
    the output datasets.  [fu.log] and [fu.log_block_success] belong to
    [cluster_tools.utils.function_utils]; a call of either is recorded as
    the event of its name. *)
Inductive event : Type :=
| LogStart (block_id : Z)
| ReadMask (block_id : Z)
| CallLoadInputs (block_id : Z)
| CallPreprocess (block_id : Z)
| CallPredict (block_id : Z)
| WriteRegion (block_id : Z) (ds_index : nat) (out_bb : list slice)
              (a : ndarray V)
| LogBlockSuccess (block_id : Z)
| LogFinished (n : Z).

(** The arguments of [_run_inference] (the thread count aside). *)
Variable blocking_ : blocking.
Variable halo : list Z.
(** Shapes of the input datasets, one per scale. *)
Variable ds_in : list (list Z).
Variable ds_out : list out_dataset.
(** [mask[bb]] as the list of its boolean voxels. *)
Variable mask : option (list (Z * Z) -> list bool).
Variables scale_factors scale_halos : list (list Z).
(** The array that [_load_input] returns is known by the region that was
    read, the padding that was applied and its shape. *)
Variable preprocess : list loaded -> result Pre.
Variable predict : Pre -> result (pdata V).
Variable channel_mapping : list (Z * Z).
Variable channel_accumulation : option (ndarray V -> ndarray V).
(** [_to_uint8] of [cluster_tools.inference.inference]. *)
Variable _to_uint8 : ndarray V -> ndarray V.
(** The volume store: whether [dso[out_bb] = channel_output] goes through. *)
Variable store_write : nat -> list slice -> ndarray V -> result unit.

Definition block_shape : list Z := blockShape blocking_.

(** [dtype = dtypes[0]; assert all(dtp == dtype for dtp in dtypes)] *)
Definition out_dtype : result dtype :=
  match ds_out with
  | [] => Raise IndexError
  | dso :: _ =>
      let dtype := dso_dtype dso in
      _ ← assert (forallb (fun d => bool_decide (dso_dtype d = dtype)) ds_out);
      Ok dtype
  end.

(** [load_input] *)
Definition load_input (block_id : Z) : M event (Z * option (list loaded)) :=
  _ ← emit (LogStart block_id);
  let block := getBlock blocking_ block_id in
  let load : M event (Z * option (list loaded)) :=
    _ ← emit (CallLoadInputs block_id);
    data ← lift (_load_inputs ds_in (block_begin block) block_shape halo
                              scale_factors scale_halos);
    mret (block_id, Some data) in
  match mask with
  | Some mask =>
      let bb := block_to_bb block in
      _ ← emit (ReadMask block_id);
      let bb_mask := mask bb in
      if decide (length (filter (fun v => v = true) bb_mask) = 0%nat)
      then mret (block_id, None)
      else load
  | None => load
  end.

(** [preprocess_impl] *)
Definition preprocess_impl (inputs : Z * option (list loaded))
  : M event (Z * option Pre) :=
  let '(block_id, data) := inputs in
  match data with
  | None => mret (block_id, None)
  | Some data =>
      _ ← emit (CallPreprocess block_id);
      data ← lift (preprocess data);
      mret (block_id, Some data)
  end.

(** [predict_impl] *)
Definition predict_impl (inputs : Z * option Pre)
  : M event (Z * option (pdata V)) :=
  let '(block_id, data) := inputs in
  match data with
  | None => mret (block_id, None)
  | Some data =>
      _ ← emit (CallPredict block_id);
      data ← lift (predict data);
      mret (block_id, Some data)
  end.

(** The end of the loop body in [write_output]: the channel accumulation,
    if one is specified, and the cast to [uint8], if necessary. *)
Definition finish_channel (dtype_ : dtype) (channel_output : ndarray V)
  : ndarray V :=
  let channel_output :=
    match channel_accumulation with
    | Some accumulate =>
        if decide (ndim channel_output = 4%nat)
        then accumulate channel_output else channel_output
    | None => channel_output
    end in
  if decide (dtype_ = uint8) then _to_uint8 channel_output
  else channel_output.

(** The start of [write_output]: the output is cropped to the shape of the
    block when that is not the block shape of the blocking. *)
Definition crop_to_block (bb : list (Z * Z)) (output : ndarray V)
  : result (ndarray V) :=
  let actual_shape := map (fun '(start, stop) => stop - start) bb in
  if decide (actual_shape = block_shape) then Ok output
  else
    let block_bb := map (fun ash => Slice 0 ash) actual_shape in
    let block_bb := if decide (ndim output = 4%nat)
                    then SliceAll :: block_bb else block_bb in
    getitem output block_bb.

(** The body of the loop over the output datasets in [write_output], up to
    the write: the region [out_bb] of the dataset and the array
    [channel_output] that goes there. *)
Definition channel_output_for (dtype_ : dtype) (bb : list (Z * Z))
    (output : ndarray V) (dso : out_dataset) (chann_mapping : Z * Z)
  : result (list slice * ndarray V) :=
  let '(chan_start, chan_stop) := chann_mapping in
  out_bb ←
    (if decide (dso_ndim dso = 3%nat) then
       _ ← (match channel_accumulation with
            | None => assert (bool_decide (chan_stop - chan_start = 1))
            | Some _ => Ok tt
            end);
       Ok (to_slices bb)
     else
       _ ← assert (bool_decide (ndim output = 4%nat));
       n0 ← match dso_shape dso with
            | [] => Raise IndexError
            | n0 :: _ => Ok n0
            end;
       _ ← assert (bool_decide (chan_stop - chan_start = n0));
       Ok (SliceAll :: to_slices bb));
  channel_output ←
    (if decide (ndim output = 4%nat) then
       sl ← getitem output [Slice chan_start chan_stop];
       Ok (squeeze sl)
     else Ok output);
  Ok (out_bb, finish_channel dtype_ channel_output).

(** ... and the write [dso[out_bb] = channel_output]. *)
Definition write_channels (dtype_ : dtype) (block_id : Z) (bb : list (Z * Z))
    (output : ndarray V) (ds_index : nat) (dso : out_dataset)
    (chann_mapping : Z * Z) : M event unit :=
  '(out_bb, channel_output) ←
    lift (channel_output_for dtype_ bb output dso chann_mapping);
  _ ← emit (WriteRegion block_id ds_index out_bb channel_output);
  lift (store_write ds_index out_bb channel_output).

Fixpoint write_loop (dtype_ : dtype) (block_id : Z) (bb : list (Z * Z))
    (output : ndarray V) (ds_index : nat)
    (l : list (out_dataset * (Z * Z))) : M event unit :=
  match l with
  | [] => mret tt
  | (dso, chann_mapping) :: l' =>
      _ ← write_channels dtype_ block_id bb output ds_index dso chann_mapping;
      write_loop dtype_ block_id bb output (S ds_index) l'
  end.

(** [write_output] *)
Definition write_output (dtype_ : dtype) (inputs : Z * option (pdata V))
  : M event Z :=
  let '(block_id, output) := inputs in
  match output with
  | None => mret block_id
  | Some output =>
      (* [output.shape]: a list has no shape *)
      output ← lift (match output with
                     | Arr a => Ok a
                     | Lst _ | Other => Raise AttributeError
                     end);
      _ ← (if decide (length (shape output) = 3%nat)
           then lift (assert (bool_decide (length ds_out = 1%nat)))
           else mret tt);
      let bb := block_to_bb (getBlock blocking_ block_id) in
      (* check if we need to crop the output *)
      output ← lift (crop_to_block bb output);
      (* write the output to our output dataset(s) *)
      _ ← write_loop dtype_ block_id bb output 0%nat
                     (zip ds_out channel_mapping);
      mret block_id
  end.

(** [log2] *)
Definition log2 (block_id : Z) : M event Z :=
  _ ← emit (LogBlockSuccess block_id);
  mret 1.

(** The chain that [tz.pipe] builds for one block out of the delayed
    stages: a stage runs once the stage before it has returned, and not at
    all when that one raised. *)
Definition pipeline (dtype_ : dtype) (block_id : Z) : M event Z :=
  inputs ← load_input block_id;
  inputs ← preprocess_impl inputs;
  inputs ← predict_impl inputs;
  block_id ← write_output dtype_ inputs;
  log2 block_id.

(** [_run_inference], the chains taken one after the other in the order of
    [block_list] (the schedule of a single worker thread; with several
    threads the chains of different blocks interleave, each chain keeping
    its own order).  [dask.compute] itself fixes no order between the
    chains, so that in a run of the code a later block can be marked
    before an earlier one fails: this definition is one of its schedules,
    and the theorems about a whole run state which events it has and which
    one is the last, not the order of two chains. *)
Definition _run_inference (block_list : list Z) : M event unit :=
  dtype_ ← lift out_dtype;
  success ← mapM (pipeline dtype_) block_list;
  emit (LogFinished (foldr Z.add 0 success)).

End RunInference.

Arguments event V : clear implicits.

(** The stage of the pipeline that an event belongs to: load (0),
    preprocess (1), compute (2), write (3), mark (4). *)
Definition stage_of {V} (e : event V) : nat :=
  match e with
  | LogStart _ | ReadMask _ | CallLoadInputs _ => 0
  | CallPreprocess _ => 1
  | CallPredict _ => 2
  | WriteRegion _ _ _ _ => 3
  | LogBlockSuccess _ => 4
  | LogFinished _ => 5
  end.

(** The block that an event is about. *)
Definition block_of {V} (e : event V) : option Z :=
  match e with
  | LogStart b | ReadMask b | CallLoadInputs b | CallPreprocess b
  | CallPredict b | WriteRegion b _ _ _ | LogBlockSuccess b => Some b
  | LogFinished _ => None
  end.

(** The events of stage [k] of the pipeline of block [b]. *)
Definition stage_events {V} (k : nat) (b : Z) (evs : list (event V)) : Prop :=
  Forall (fun e => stage_of e = k ∧ block_of e = Some b) evs.

(** Whether an event is the success marker of block [block_id]. *)
Definition is_success_of {V} (block_id : Z) (e : event V) : bool :=
  match e with
  | LogBlockSuccess b => bool_decide (b = block_id)
  | _ => false
  end.

(** Modelled from the spec: the reconciliation of the block outcomes by the
    stage scheduler ([check_jobs] of [cluster_tools.cluster_tasks], which is
    not among the sources).  "Upon completion it reconciles BlockOutcome
    markers against the expected block-id set: any block without a
    [Success] marker is a failure"; the failed blocks are the ones a retry
    would run again. *)
Definition failed_blocks {V} (block_list : list Z) (trace : list (event V))
  : list Z :=
  filter (fun b => existsb (is_success_of b) trace = false) block_list.

(** Example data: a volume of shape (2, 2, 4) in two blocks of shape
    (2, 2, 2), a mask that is false everywhere, a predictor that returns one
    array without channel axis and one that returns one array with two
    channels, and two output datasets that take channel 0 and channel 1. *)
Definition ex_blocking : blocking :=
  Blocking [2; 2; 2] (fun b => Block [0; 0; 2 * b] [2; 2; 2 * b + 2]).
Definition ex_ds_in : list (list Z) := [[2; 2; 4]].
Definition ex_mask : option (list (Z * Z) -> list bool) :=
  Some (fun bb => replicate 8 false).
Definition ex_preprocess (data : list loaded) : result unit := Ok tt.
Definition ex_prediction3 : ndarray Z :=
  NDArray [2; 2; 2] (Z.of_nat <$> seq 0 8).
Definition ex_prediction4 : ndarray Z :=
  NDArray [2; 2; 2; 2] (Z.of_nat <$> seq 0 16).
Definition ex_predict3 (data : unit) : result (pdata Z) :=
  Ok (Arr ex_prediction3).
Definition ex_predict4 (data : unit) : result (pdata Z) :=
  Ok (Arr ex_prediction4).
Definition ex_one_output : list out_dataset := [OutDataset [2; 2; 4] float32].
Definition ex_two_outputs : list out_dataset :=
  [OutDataset [2; 2; 4] float32; OutDataset [2; 2; 4] float32].
Definition ex_channel_mapping : list (Z * Z) := [(0, 1); (1, 2)].
Definition ex_store_write (ds_index : nat) (out_bb : list slice)
    (a : ndarray Z) : result unit := Ok tt.

(** The pipeline of the example, with and without the mask. *)
Definition ex_pipeline (ds_out : list out_dataset)
    (mask : option (list (Z * Z) -> list bool))
    (predict : unit -> result (pdata Z)) : Z -> M (event Z) Z :=
  pipeline ex_blocking [0; 0; 0] ex_ds_in ds_out mask [[1; 1; 1]] [[0; 0; 0]]
           ex_preprocess predict ex_channel_mapping None (fun a => a)
           ex_store_write float32.

End MultiscaleInference.

(** ** Global ids for the sub-solutions: [sub_solutions.py] *)

Module SubSolutions.
Import Numpy Nifty.

(** [a.max()] *)
Definition np_max (a : list Z) : result Z :=
  match a with
  | [] => Raise ValueError
  | x :: a' => Ok (foldl Z.max x a')
  end.

(** [a[0] = v] on a one-dimensional array. *)
Definition setitem0 (a : list Z) (v : Z) : result (list Z) :=
  match a with
  | [] => Raise IndexError
  | _ :: a' => Ok (v :: a')
  end.

(** [labeling[nodes]] for an index array [nodes]. *)
Definition np_index (labeling : list Z) (n : Z) : result Z :=
  let i := if decide (n < 0) then n + Z.of_nat (length labeling) else n in
  if decide (0 ≤ i) then
    match labeling !! Z.to_nat i with
    | Some v => Ok v
    | None => Raise IndexError
    end
  else Raise IndexError.

Definition take_indices (labeling nodes : list Z) : result (list Z) :=
  mapR (np_index labeling) nodes.

(** [{node_id: res_id if node_id != 0 else 0 for node_id, res_id in
    zip(bnodes, bres)}]: the pairs are entered from left to right, a later
    pair replacing an earlier one with the same key. *)
Definition entry (node_id res_id : Z) : Z :=
  if decide (node_id ≠ 0) then res_id else 0.

Definition enter (d : gmap Z Z) (p : Z * Z) : gmap Z Z :=
  <[p.1 := entry p.1 p.2]> d.

Definition result_dict (bnodes bres : list Z) : gmap Z Z :=
  foldl enter ∅ (zip bnodes bres).

(** The offsets of the blocks out of the sizes [int(subres.max()) + 1] of
    their id ranges: [np.array(..., dtype='uint64')], [np.roll(.., 1)],
    [block_offsets[0] = 0] and [np.cumsum]. *)
Definition block_offsets_of (sizes : list Z) : result (list Z) :=
  block_offsets ← array_u64 sizes;
  let block_offsets := roll1 block_offsets in
  block_offsets ← setitem0 block_offsets 0;
  Ok (cumsum block_offsets).

(** Size of the id range [0 .. max] of a sub-result: [int(subres.max()) + 1]
    (0 for an empty array, which has no maximum). *)
Definition id_range (subres : list Z) : Z :=
  match np_max subres with Ok m => m + 1 | Raise _ => 0 end.

Definition sum_Z (l : list Z) : Z := foldr Z.add 0 l.

Section ReadSubresults.
Variable blocking_ : blocking.
(** [ndist.loadNodes(block_node_prefix + str(block_id))] *)
Variable loadNodes : Z -> list Z.
(** [ds_results.read_chunk(chunk)], a [uint64] array or [None] *)
Variable read_chunk : list Z -> option (list Z).

(** [read_subres] *)
Definition read_subres (block_id : Z)
  : result (option (list Z * list Z * Z)) :=
  let block := getBlock blocking_ block_id in
  (* load nodes corresponding to this block *)
  let nodes := loadNodes block_id in
  (* load the sub result for this block *)
  chunk ← floordiv_zip (block_begin block) (blockShape blocking_);
  let subres := read_chunk chunk in
  match subres with
  | None =>
      _ ← assert (bool_decide (0 ∈ nodes));
      Ok None
  | Some subres =>
      _ ← assert (bool_decide (length nodes = length subres));
      m ← np_max subres;
      Ok (Some (nodes, subres, m + 1))
  end.

(** The chunk of the results that belongs to a block, the sub-result
    stored for the block ([[]] when there is none), and the blocks of a list
    for which one is stored. *)
Definition chunk_of (block_id : Z) : list Z :=
  zip_with Z.div (block_begin (getBlock blocking_ block_id))
           (blockShape blocking_).
Definition stored (block_id : Z) : option (list Z) :=
  read_chunk (chunk_of block_id).
Definition subres_of (block_id : Z) : list Z := default [] (stored block_id).
Definition non_skipped (block_list : list Z) : list Z :=
  filter (fun b => is_Some (stored b)) block_list.

(** The node ids of a block under the initial node labeling, if any. *)
Definition relabelled (initial_node_labeling : option (list Z))
    (block_id : Z) : result (list Z) :=
  match initial_node_labeling with
  | Some labeling => take_indices labeling (loadNodes block_id)
  | None => Ok (loadNodes block_id)
  end.

(** [block_id for block_id, res in zip(block_list, results) if res is not
    None], for one pair *)
Definition keep_id (p : Z * option (list Z * list Z * Z)) : option Z :=
  match p.2 with Some _ => Some p.1 | None => None end.

(** What [read_subres] returns for a block that has a sub-result. *)
Definition info (b : Z) : list Z * list Z * Z :=
  (loadNodes b, subres_of b, id_range (subres_of b)).

(** [_read_subresults] *)
Definition _read_subresults (block_list : list Z)
    (initial_node_labeling : option (list Z))
  : result (list Z * list (gmap Z Z)) :=
  results ← mapR read_subres block_list;
  (* filter and get results *)
  let block_list := omap keep_id (zip block_list results) in
  let block_nodes := omap (fun res => (fun r => r.1.1) <$> res) results in
  let block_res := omap (fun res => (fun r => r.1.2) <$> res) results in
  block_offsets ←
    block_offsets_of (omap (fun res => (fun r => r.2) <$> res) results);
  (* get the offsets and add them to the block results to make these unique *)
  let block_res :=
    map (fun '(bres, boff) => (fun r => u64 (r + boff)) <$> bres)
        (zip block_res block_offsets) in
  (* apply the node labeling *)
  block_nodes ←
    match initial_node_labeling with
    | Some labeling => mapR (take_indices labeling) block_nodes
    | None => Ok block_nodes
    end;
  (* construct result dicts for each block, keep zero mapped to zero *)
  let block_results :=
    map (fun '(bnodes, bres) => result_dict bnodes bres)
        (zip block_nodes block_res) in
  Ok (block_list, block_results).

(** What the write phase does to the outside world. *)
Inductive event : Type :=
| LogStart (block_id : Z)
| WriteSeg (block_id : Z) (seg : list Z)
| LogBlockSuccess (block_id : Z)
| LogJobSuccess (job_id : Z).

(** The watershed labels [ds_in[bb]] of a block, [nt.takeDict] and the
    write [ds_out[bb] = seg] to the volume store. *)
Variable ws : Z -> list Z.
Variable takeDict : gmap Z Z -> list Z -> result (list Z).
Variable store_write : Z -> list Z -> result unit.

(** [_write_block_res] *)
Definition _write_block_res (block_id : Z) (block_res : gmap Z Z)
  : M event unit :=
  _ ← emit (LogStart block_id);
  let ws := ws block_id in
  seg ← lift (takeDict block_res ws);
  _ ← emit (WriteSeg block_id seg);
  _ ← lift (store_write block_id seg);
  emit (LogBlockSuccess block_id).

(** The tasks of the thread pool, run one after the other: every task
    runs, whether or not an earlier one raised, and [[t.result() for t in
    tasks]] raises the exception of the first task that failed. *)
Fixpoint run_tasks (tasks : list (M event unit)) : M event unit :=
  match tasks with
  | [] => mret tt
  | task :: tasks' => fun t =>
      match task t with
      | (Ok _, t') => run_tasks tasks' t'
      | (Raise e, t') => (Raise e, (run_tasks tasks' t').2)
      end
  end.

(** [sub_solutions], from the point where the configuration and the node
    labeling ([None] unless [scale > 1]) are read. *)
Definition sub_solutions (job_id : Z) (block_list : list Z) (scale : Z)
    (node_labeling : list Z) : M event unit :=
  let initial_node_labeling :=
    if decide (scale > 1) then Some node_labeling else None in
  '(block_list, block_results) ←
    lift (_read_subresults block_list initial_node_labeling);
  _ ← run_tasks (map (fun '(block_id, block_res) =>
                        _write_block_res block_id block_res)
                     (zip block_list block_results));
  emit (LogJobSuccess job_id).

End ReadSubresults.

(** The blocks for which a trace has a write to the output dataset. *)
Definition written (t : list event) : list Z :=
  omap (fun e => match e with WriteSeg b _ => Some b | _ => None end) t.

(** Example data: three blocks of ten voxels along one axis.  The sub-results
    have the maxima 3, 0 and 5; in [ex_results_gap] the middle block has no
    sub-result. *)
Definition ex_blocking : blocking :=
  Blocking [10] (fun b => Block [10 * b] [10 * b + 10]).

Definition ex_nodes (block_id : Z) : list Z :=
  if decide (block_id = 0) then [0; 11; 12; 13]
  else if decide (block_id = 1) then [0; 21]
  else [31; 32; 33; 34; 35; 36].

Definition ex_results (chunk : list Z) : option (list Z) :=
  match chunk with
  | [0] => Some [0; 1; 2; 3]
  | [1] => Some [0; 0]
  | [2] => Some [0; 1; 2; 3; 4; 5]
  | _ => None
  end.

Definition ex_results_gap (chunk : list Z) : option (list Z) :=
  match chunk with
  | [1] => None
  | _ => ex_results chunk
  end.

(** Example data with an initial node labeling that sends the nodes 0 and 3
    to 0 and the nodes 1 and 2 to 7. *)
Definition ex_nodes_coarse (block_id : Z) : list Z := [0; 1; 2; 3].
Definition ex_results_coarse (chunk : list Z) : option (list Z) :=
  Some [1; 2; 3; 4].
Definition ex_labeling : list Z := [0; 7; 7; 0].

(** Example collaborators of the write phase: constant watershed labels, an
    element-wise dictionary lookup and a store that accepts every write. *)
Definition ex_ws (block_id : Z) : list Z := [0; 11; 0].
Definition ex_takeDict (d : gmap Z Z) (l : list Z) : result (list Z) :=
  mapR (fun x => match d !! x with
                 | Some v => Ok v
                 | None => Raise (ExternalError 1)
                 end) l.
Definition ex_store_write (block_id : Z) (seg : list Z) : result unit := Ok tt.

End SubSolutions.

(** ** The background size filter: [background_size_filter.py] *)

Module BackgroundSizeFilter.
Import Numpy.

(** A dataset is named by the path of its file and its key; two handles
    on the same path and key are the same dataset. *)
Definition ds_name : Type := string * string.

Inductive event : Type :=
| LogStart (block_id : Z)
| LogBlockSuccess (block_id : Z)
| LogJobSuccess (job_id : Z).

(** The volume store (the [uint64] labels of every dataset in the region
    of every block), the [maxId] attribute of the datasets and the log. *)
Record state : Type := State {
  volumes : ds_name -> Z -> list Z;
  max_ids : ds_name -> option Z;
  log : list event;
}.

Definition fu_log (e : event) (st : state) : state :=
  State (volumes st) (max_ids st) (log st ++ [e]).

(** [ds[bb] = labels] for the region [bb] of block [block_id] *)
Definition write_region (ds : ds_name) (block_id : Z) (labels : list Z)
    (st : state) : state :=
  State (fun ds' b => if decide (ds' = ds /\ b = block_id) then labels
                      else volumes st ds' b)
        (max_ids st) (log st).

(** [np.sum] of a boolean array: the number of [True] entries. *)
Definition count_true (mask : list bool) : Z :=
  Z.of_nat (length (filter (fun m => m = true) mask)).

(** [apply_block] *)
Definition apply_block (block_id : Z) (ds_in ds_out : ds_name)
    (discard_ids : list Z) (st : state) : state :=
  let st := fu_log (LogStart block_id) st in
  let labels := volumes st ds_in block_id in
  (* check if everything is ignore label *)
  if decide (sum_u64 labels = 0) then fu_log (LogBlockSuccess block_id) st
  else
    let discard_mask := (fun l => bool_decide (l ∈ discard_ids)) <$> labels in
    (* check if the discard-mask is empty *)
    if decide (count_true discard_mask = 0) then
      let st := write_region ds_out block_id labels st in
      fu_log (LogBlockSuccess block_id) st
    else
      let labels :=
        zip_with (fun l (m : bool) => if m then 0 else l) labels discard_mask in
      let st := write_region ds_out block_id labels st in
      fu_log (LogBlockSuccess block_id) st.

(** [background_size_filter], from the point where the configuration and
    the ids to discard are read. *)
Definition background_size_filter (job_id : Z) (input_path input_key
    output_path output_key : string) (block_list : list Z)
    (discard_ids : list Z) (st : state) : state :=
  let same_file := bool_decide (input_path = output_path) in
  let in_place := same_file && bool_decide (input_key = output_key) in
  let st := foldl (fun st block_id =>
                     apply_block block_id (input_path, input_key)
                                 (output_path, output_key) discard_ids st)
                  st block_list in
  (* copy the 'maxId' attribute if present *)
  let st :=
    if bool_decide (job_id = 0) && negb in_place then
      match max_ids st (input_path, input_key) with
      | Some max_id =>
          State (volumes st)
                (fun ds => if decide (ds = (output_path, output_key))
                           then Some max_id else max_ids st ds)
                (log st)
      | None => st
      end
    else st in
  fu_log (LogJobSuccess job_id) st.

(** What the filter is meant to write for a block: the labels with the
    ids to discard set to 0. *)
Definition discard (discard_ids labels : list Z) : list Z :=
  (fun l => if decide (l ∈ discard_ids) then 0 else l) <$> labels.

(** Example data: an input dataset whose block 0 holds twice the label
    [2^63], and an output dataset in another file that holds zeros. *)
Definition ex_in : ds_name := ("in.n5"%string, "labels"%string).
Definition ex_out : ds_name := ("out.n5"%string, "labels"%string).
Definition ex_state : state :=
  State (fun ds b => if decide (ds = ex_in) then [2 ^ 63; 2 ^ 63] else [0; 0])
        (fun ds => None) [].

End BackgroundSizeFilter.

(** ** Setting a task up *)

(** The code that sets a task up raises two exceptions that the per-block
    code has no use for, and it logs, opens files and calls the scheduler:
    a second monad, with the same conventions as [M]. *)
Module Setup.

Inductive pyexn : Type :=
| Exn (e : exn)
| KeyError
| UnboundLocalError.

Inductive outcome (A : Type) : Type :=
| Returns (a : A)
| Raises (e : pyexn).

Arguments Returns {A} a.
Arguments Raises {A} e.

#[global] Instance outcome_ret : MRet outcome := fun A a => Returns a.
#[global] Instance outcome_bind : MBind outcome := fun A B f m =>
  match m with
  | Returns a => f a
  | Raises e => Raises e
  end.

Definition of_result {A} (r : result A) : outcome A :=
  match r with
  | Ok a => Returns a
  | Raise e => Raises (Exn e)
  end.

Definition SetupM (E A : Type) : Type := list E -> outcome A * list E.

#[global] Instance SetupM_ret {E} : MRet (SetupM E) := fun A a t => (Returns a, t).
#[global] Instance SetupM_bind {E} : MBind (SetupM E) := fun A B f m t =>
  match m t with
  | (Returns a, t') => f a t'
  | (Raises e, t') => (Raises e, t')
  end.

Definition tell {E} (e : E) : SetupM E unit := fun t => (Returns tt, t ++ [e]).
Definition pure {E A} (r : outcome A) : SetupM E A := fun t => (r, t).
Definition check {E} (c : bool) : SetupM E unit := pure (of_result (assert c)).

(** A computation of the per-block code, started on its own trace; its
    events are appended, wrapped by [inj]. *)
Definition of_M {E E' A} (inj : E' -> E) (m : M E' A) : SetupM E A := fun t =>
  let '(r, t') := m [] in (of_result r, t ++ (inj <$> t')).

End Setup.

(** ** The frameworks: [get_predictor] and [get_preprocessor] *)

Module Dispatch.
Import Setup.

(** Whether the imports at the top of [frameworks.py] went through
    ([torch is not None] and so on). *)
Record imports : Type := Imports {
  torch : bool;
  tensorflow : bool;
  Trainer : bool;
}.

Inductive predictor_class : Type :=
| PytorchPredicter
| InfernoPredicter
| TensorflowPredicter.

(** [get_predictor] *)
Definition get_predictor (env : imports) (framework : string)
  : outcome predictor_class :=
  if decide (framework = "pytorch"%string) then
    _ ← of_result (assert (torch env));
    Returns PytorchPredicter
  else if decide (framework = "inferno"%string) then
    _ ← of_result (assert (torch env));
    _ ← of_result (assert (Trainer env));
    Returns InfernoPredicter
  else if decide (framework = "tensorflow"%string) then
    _ ← of_result (assert (tensorflow env));
    Returns TensorflowPredicter
  else Raises KeyError.

(** The function that [get_preprocessor] binds the keyword arguments to:
    [partial(preprocess_torch, **kwargs)] or [partial(preprocess_tf,
    **kwargs)]. *)
Inductive preprocessor (K : Type) : Type :=
| PreprocessTorch (kwargs : K)
| PreprocessTf (kwargs : K).
Arguments PreprocessTorch {K} kwargs.
Arguments PreprocessTf {K} kwargs.

(** [get_preprocessor] *)
Definition get_preprocessor {K} (framework : string) (kwargs : K)
  : outcome (preprocessor K) :=
  if bool_decide (framework ∈ ["inferno"%string; "pytorch"%string]) then
    Returns (PreprocessTorch kwargs)
  else if decide (framework = "tensorflow"%string) then
    Returns (PreprocessTf kwargs)
  else Raises KeyError.

End Dispatch.

(** ** The inference task: [MultiscaleInferenceBase.run_impl] and
       [multiscale_inference] *)

Module InferenceTask.
Import Numpy Nifty LoadInput Frameworks MultiscaleInference Setup Dispatch.

(** The task configuration that [get_task_config] returns, with the keys
    that the code reads; a key that can be missing is an option. *)
Module TaskConfig.
Record t : Type := Make {
  dtype : option string;
  compression : option string;
  chunks : option (list Z);
  channel_accumulation : option string;
  threads_per_job : Z;
  use_best : option bool;
  (** [device_mapping[str(job_id)]], as a function of [job_id] *)
  device_mapping : option (Z -> option Z);
  prep_model : option string;
}.
End TaskConfig.

(** The parameters of the task ([self.framework] and so on). *)
Module Self.
Record t : Type := Make {
  framework : string;
  input_path : string;
  input_key : string;
  input_scales : list string;
  scale_halos : list (list Z);
  scale_factors : list (list Z);
  output_path : string;
  (** the items of the dictionary: key and channel range *)
  output_key : list (string * list Z);
  checkpoint_path : string;
  halo : list Z;
  mask_path : string;
  mask_key : string;
  n_retries : Z;
  block_list : list Z;
  max_jobs : Z;
}.
End Self.

(** The configuration that [run_impl] hands to [prepare_jobs] and that a
    job reads back: what is left of the task configuration and the keys
    that [config.update] sets.  A channel range [[start, stop]] is the pair
    [(start, stop)]; [mask] holds 'mask_path' and 'mask_key', which are set
    together. *)
Module Config.
Record t : Type := Make {
  task_config : TaskConfig.t;
  input_path : string;
  input_key : string;
  input_scales : list string;
  scale_halos : list (list Z);
  scale_factors : list (list Z);
  output_path : string;
  checkpoint_path : string;
  block_shape : list Z;
  halo : list Z;
  output_keys : list string;
  channel_mapping : list (Z * Z);
  framework : string;
  mask : option (string * string);
}.
End Config.

(** What [run_impl] asks of the task base class and of the output file. *)
Inductive call : Type :=
| Init (shebang : string)
| RequireDataset (out_key : string) (shape chunks : list Z)
                 (dtype compression : string)
| CleanUpForRetry (block_list : list Z)
| PrepareJobs (n_jobs : Z) (block_list : list Z) (config : Config.t)
| SubmitJobs (n_jobs : Z)
| WaitForJobs
| CheckJobs (n_jobs : Z).

(** A local variable that is read before it is assigned. *)
Definition bound {A} (x : option A) : outcome A :=
  match x with
  | Some a => Returns a
  | None => Raises UnboundLocalError
  end.

(** [all(bs % ch == 0 for ch, bs in zip(chunks, block_shape))]: the
    generator is consumed up to the first pair that does not divide. *)
Fixpoint all_divide (l : list (Z * Z)) : result bool :=
  match l with
  | [] => Ok true
  | (ch, bs) :: l' =>
      if decide (ch = 0) then Raise ZeroDivisionError
      else if decide (bs mod ch = 0) then all_divide l' else Ok false
  end.

Section RunImpl.
Variable self : Self.t.
(** [self.global_config_values()[:2]] and [self.get_task_config()] *)
Variable global_config_values : string * list Z.
Variable get_task_config : TaskConfig.t.
(** The group [f[self.input_key]] of the input file: the shape of the
    dataset of each scale that it holds. *)
Variable g : string -> option (list Z).
(** [vu.blocks_in_volume] *)
Variable blocks_in_volume : list Z -> list Z -> list Z.
(** Whether a call goes through. *)
Variable perform : call -> result unit.

Definition do (c : call) : SetupM call unit :=
  _ ← tell c; pure (of_result (perform c)).

(** The loop over [enumerate(self.input_scales)] *)
Fixpoint check_scales (ii : nat) (scales : list string)
    (shape : option (list Z)) : outcome (option (list Z)) :=
  match scales with
  | [] => Returns shape
  | scale :: scales' =>
      _ ← of_result (assert (bool_decide (is_Some (g scale))));
      check_scales (S ii) scales'
                   (if decide (ii = 0%nat) then g scale else shape)
  end.

(** The loop that makes the output volumes *)
Fixpoint make_output_volumes (shape : option (list Z)) (chunks : list Z)
    (dtype compression : string) (channel_accumulation : option string)
    (l : list (string * list Z)) : SetupM call unit :=
  match l with
  | [] => mret tt
  | (out_key, out_channels) :: l' =>
      _ ← check (bool_decide (length out_channels = 2%nat));
      let n_channels := out_channels !!! 1%nat - out_channels !!! 0%nat in
      _ ← check (bool_decide (n_channels > 0));
      shape' ← pure (bound shape);
      let '(out_shape, out_chunks) :=
        if bool_decide (n_channels > 1)
           && bool_decide (channel_accumulation = None)
        then (n_channels :: shape', 1 :: chunks)
        else (shape', chunks) in
      _ ← do (RequireDataset out_key out_shape out_chunks dtype compression);
      make_output_volumes shape chunks dtype compression channel_accumulation
                          l'
  end.

(** The configuration of the jobs *)
Definition job_config (block_shape : list Z) : Config.t :=
  let config := get_task_config in
  Config.Make
    (TaskConfig.Make None None None
       (TaskConfig.channel_accumulation config)
       (TaskConfig.threads_per_job config) (TaskConfig.use_best config)
       (TaskConfig.device_mapping config) (TaskConfig.prep_model config))
    (Self.input_path self) (Self.input_key self) (Self.input_scales self)
    (Self.scale_halos self) (Self.scale_factors self) (Self.output_path self)
    (Self.checkpoint_path self) block_shape (Self.halo self)
    (Self.output_key self).*1
    ((fun out_channels : list Z =>
        (out_channels !!! 0%nat, out_channels !!! 1%nat))
       <$> (Self.output_key self).*2)
    (Self.framework self)
    (if decide (Self.mask_path self ≠ ""%string)
     then Some (Self.mask_path self, Self.mask_key self) else None).

(** [MultiscaleInferenceBase.run_impl] *)
Definition run_impl : SetupM call unit :=
  _ ← check (bool_decide (Self.framework self
                            ∈ ["pytorch"%string; "inferno"%string]));
  let '(shebang, block_shape) := global_config_values in
  _ ← do (Init shebang);
  (* load the task config *)
  let config := get_task_config in
  let dtype := default "uint8"%string (TaskConfig.dtype config) in
  let compression := default "gzip"%string (TaskConfig.compression config) in
  let chunks := TaskConfig.chunks config in
  _ ← check (bool_decide (dtype ∈ ["uint8"%string; "float32"%string]));
  (* check the input datasets *)
  shape ← pure (check_scales 0 (Self.input_scales self) None);
  let n_scales := Z.of_nat (length (Self.input_scales self)) in
  _ ← check (bool_decide
               (Z.of_nat (length (Self.scale_halos self)) = n_scales - 1));
  _ ← check (bool_decide
               (Z.of_nat (length (Self.scale_factors self)) = n_scales - 1));
  (* get shapes and chunks *)
  let chunks := match chunks with
                | Some chunks => chunks
                | None => (fun bs => bs / 2) <$> block_shape
                end in
  (* make sure block shape can be divided by chunks *)
  divides ← pure (of_result (all_divide (zip chunks block_shape)));
  _ ← check divides;
  let channel_accumulation := TaskConfig.channel_accumulation config in
  (* make output volumes *)
  _ ← make_output_volumes shape chunks dtype compression channel_accumulation
                          (Self.output_key self);
  (* update the config *)
  _ ← (if decide (Self.mask_path self ≠ ""%string)
       then check (bool_decide (Self.mask_key self ≠ ""%string))
       else mret tt);
  let config := job_config block_shape in
  block_list ←
    (if decide (Self.n_retries self = 0) then
       shape' ← pure (bound shape);
       mret (blocks_in_volume shape' block_shape)
     else
       _ ← do (CleanUpForRetry (Self.block_list self));
       mret (Self.block_list self));
  let n_jobs := Z.of_nat (length block_list) `min` Self.max_jobs self in
  (* prime and run the jobs *)
  _ ← do (PrepareJobs n_jobs block_list config);
  _ ← do (SubmitJobs n_jobs);
  (* wait till jobs finish and check for job success *)
  _ ← do WaitForJobs;
  do (CheckJobs n_jobs).

End RunImpl.

(** The lines that a job writes to its log, and what else it does to the
    outside world: it sets [CUDA_VISIBLE_DEVICES], and it runs
    [_run_inference], whose events are the events of the blocks. *)
Inductive log_line : Type :=
| StartProcessingJob (job_id : Z)
| ReadingConfig
| AccumulatingChannels (channel_accumulation : string)
| RunInferenceWith (framework : string) (n_threads : Z)
| SettingCudaVisibleDevices (device_id : Z)
| LoadingModel (checkpoint_path : string)
| HaveModel.

Inductive job_event (V : Type) : Type :=
| Log (line : log_line)
| SetCudaVisibleDevices (device_id : Z)
| OfBlocks (e : event V)
| LogJobSuccess (job_id : Z).
Arguments Log {V} line.
Arguments SetCudaVisibleDevices {V} device_id.
Arguments OfBlocks {V} e.
Arguments LogJobSuccess {V} job_id.

(** A list comprehension whose body can raise *)
Fixpoint mapO {A B} (f : A -> outcome B) (l : list A) : outcome (list B) :=
  match l with
  | [] => Returns []
  | x :: l' => y ← f x; ys ← mapO f l'; Returns (y :: ys)
  end.

Section Job.
Context {V Pre PrepModel : Type}.
Variable env : imports.
(** [getattr(np, name)] *)
Variable np_getattr : string -> option (ndarray V -> ndarray V).
(** [get_prep_model] of [cluster_tools.inference.inference] *)
Variable get_prep_model : string -> result PrepModel.
(** The constructors of [PytorchPredicter] and [InfernoPredicter], which
    load the model: the predictor for [checkpoint_path], [halo], [gpu],
    [prep_model] and [use_best]. *)
Variable load_predictor :
  predictor_class -> string -> list Z -> Z -> option PrepModel -> bool ->
  result (Pre -> result (pdata V)).
(** [preprocess_torch] on the arrays of a block, each known by its
    geometry. *)
Variable preprocess_torch : list loaded -> result Pre.
(** The datasets of the input group by scale (their shapes) and of the
    output file by key. *)
Variable g_in : string -> option (list Z).
Variable f_out : string -> option out_dataset.
(** [nt.blocking(roiBegin, roiEnd, blockShape)] and [vu.load_mask] *)
Variable nt_blocking : list Z -> list Z -> list Z -> blocking.
Variable load_mask :
  string -> string -> list Z -> result (list (Z * Z) -> list bool).
Variable _to_uint8 : ndarray V -> ndarray V.
Variable store_write : nat -> list slice -> ndarray V -> result unit.

(** [get_predictor(framework)(checkpoint_path, halo, gpu=gpu,
    prep_model=prep_model, use_best=use_best)]: the class
    [TensorflowPredicter] has no constructor that takes arguments. *)
Definition make_predictor (cls : predictor_class) (checkpoint_path : string)
    (halo : list Z) (gpu : Z) (prep_model : option PrepModel)
    (use_best : bool) : result (Pre -> result (pdata V)) :=
  match cls with
  | TensorflowPredicter => Raise TypeError
  | _ => load_predictor cls checkpoint_path halo gpu prep_model use_best
  end.

(** A call [preprocess(data)] of what [get_preprocessor(framework)]
    returned: [preprocess_tf] takes no argument. *)
Definition call_preprocessor (preprocess : preprocessor unit)
    (data : list loaded) : result Pre :=
  match preprocess with
  | PreprocessTorch _ => preprocess_torch data
  | PreprocessTf _ => Raise TypeError
  end.

(** [d[key]] *)
Definition getitem_key {K A} (d : K -> option A) (key : K) : outcome A :=
  match d key with
  | Some a => Returns a
  | None => Raises KeyError
  end.

(** [multiscale_inference], for a configuration as [run_impl] and
    [prepare_jobs] write it: [config] and the job's share [block_list] of
    the blocks. *)
Definition multiscale_inference (job_id : Z) (config : Config.t)
    (block_list : list Z) : SetupM (job_event V) unit :=
  _ ← tell (Log (StartProcessingJob job_id));
  _ ← tell (Log ReadingConfig);
  (* get the config *)
  let input_scales := Config.input_scales config in
  let scale_factors := Config.scale_factors config in
  let scale_halos := Config.scale_halos config in
  let scale_factors := [1; 1; 1] :: scale_factors in
  let scale_halos := [0; 0; 0] :: scale_halos in
  _ ← check (bool_decide (length scale_factors = length scale_halos)
             && bool_decide (length scale_halos = 3%nat));
  let block_shape := Config.block_shape config in
  let halo := Config.halo config in
  let framework := Config.framework config in
  let task_config := Config.task_config config in
  let n_threads := TaskConfig.threads_per_job task_config in
  let use_best := default true (TaskConfig.use_best task_config) in
  channel_accumulation ←
    match TaskConfig.channel_accumulation task_config with
    | Some channel_accumulation =>
        _ ← tell (Log (AccumulatingChannels channel_accumulation));
        match np_getattr channel_accumulation with
        | Some accumulate => mret (Some accumulate)
        | None => pure (Raises (Exn AttributeError))
        end
    | None => mret None
    end;
  _ ← tell (Log (RunInferenceWith framework n_threads));
  let channel_mapping := Config.channel_mapping config in
  _ ← match TaskConfig.device_mapping task_config with
      | Some device_mapping =>
          device_id ← pure (getitem_key device_mapping job_id);
          _ ← tell (SetCudaVisibleDevices device_id);
          tell (Log (SettingCudaVisibleDevices device_id))
      | None => mret tt
      end;
  let gpu := 0 in
  _ ← tell (Log (LoadingModel (Config.checkpoint_path config)));
  prep_model ←
    match TaskConfig.prep_model task_config with
    | Some prep_model =>
        prep_model ← pure (of_result (get_prep_model prep_model));
        mret (Some prep_model)
    | None => mret None
    end;
  cls ← pure (get_predictor env framework);
  predict ← pure (of_result (make_predictor cls (Config.checkpoint_path config)
                                            halo gpu prep_model use_best));
  _ ← tell (Log HaveModel);
  preprocess ← pure (get_preprocessor framework tt);
  ds_in ← pure (mapO (getitem_key g_in) input_scales);
  ds_out ← pure (mapO (getitem_key f_out) (Config.output_keys config));
  shape ← pure (match ds_in with
                | [] => Raises (Exn IndexError)
                | ds :: _ => Returns ds
                end);
  let blocking := nt_blocking [0; 0; 0] shape block_shape in
  mask ←
    match Config.mask config with
    | Some (mask_path, mask_key) =>
        mask ← pure (of_result (load_mask mask_path mask_key shape));
        mret (Some mask)
    | None => mret None
    end;
  _ ← of_M OfBlocks
        (_run_inference blocking halo ds_in ds_out mask scale_factors
                        scale_halos (call_preprocessor preprocess) predict
                        channel_mapping channel_accumulation _to_uint8
                        store_write block_list);
  tell (LogJobSuccess job_id).

End Job.

(** Example data: a task on the volume of the examples above, whose input
    group holds the scales s0, s1 and s2 with the same shape; the task reads
    the first [n_scales] of them.  Every call of the base class goes
    through, the model is in place and the predictor returns one array
    without channel axis. *)
Definition ex_task_config : TaskConfig.t :=
  TaskConfig.Make (Some "float32"%string) None None None 1 None None None.
Definition ex_self (framework : string) (n_scales : nat) : Self.t :=
  Self.Make framework "in.n5" "volumes/raw"
            (take n_scales ["s0"; "s1"; "s2"]%string)
            (replicate (n_scales - 1) [0; 0; 0])
            (replicate (n_scales - 1) [1; 1; 1])
            "out.n5" [("out"%string, [0; 1])] "checkpoint" [0; 0; 0]
            "" "" 0 [] 2.
Definition ex_g (scale : string) : option (list Z) :=
  if bool_decide (scale ∈ ["s0"; "s1"; "s2"]%string) then Some [2; 2; 4]
  else None.
Definition ex_blocks_in_volume (shape block_shape : list Z) : list Z := [0; 1].
Definition ex_perform (c : call) : result unit := Ok tt.
Definition ex_run_impl (framework : string) (n_scales : nat)
  : SetupM call unit :=
  run_impl (ex_self framework n_scales) ("#! /bin/python"%string, [2; 2; 2])
           ex_task_config ex_g ex_blocks_in_volume ex_perform.
Definition ex_config (framework : string) (n_scales : nat) : Config.t :=
  job_config (ex_self framework n_scales) ex_task_config [2; 2; 2].
Definition ex_job : Z -> Config.t -> list Z -> SetupM (job_event Z) unit :=
  multiscale_inference (PrepModel := unit) (Imports true true true)
    (fun name => None) (fun name => Ok tt)
    (fun cls checkpoint_path halo gpu prep_model use_best => Ok ex_predict3)
    ex_preprocess ex_g (fun key => Some (OutDataset [2; 2; 4] float32))
    (fun roiBegin roiEnd blockShape => MultiscaleInference.ex_blocking)
    (fun mask_path mask_key shape => Ok (fun bb => []))
    (fun a => a) MultiscaleInference.ex_store_write.

End InferenceTask.

(** * Properties *)

(** ** Halo geometry *)

Module LoadInputFacts.
Import Numpy LoadInput.

Lemma mapR_cons {A B} (f : A -> result B) x l :
  mapR f (x :: l) = y ← f x; ys ← mapR f l; Ok (y :: ys).
Proof. reflexivity. Qed.

Lemma floordiv_zip_ok xs sf :
  Forall (fun f => f ≠ 0) sf →
  floordiv_zip xs sf = Ok (zip_with Z.div xs sf).
Proof.
  intros Hsf. revert xs. induction Hsf as [|f sf Hf Hsf IH]; intros [|x xs]; try reflexivity.
  unfold floordiv_zip in *. change (zip (x :: xs) (f :: sf)) with ((x, f) :: zip xs sf).
  rewrite mapR_cons, IH. unfold floordiv. simpl.
  destruct (decide (f = 0)) as [->|_]; [done|]. reflexivity.
Qed.

Lemma window_ok offset block_shape halo sf sh :
  Forall (fun f => f ≠ 0) sf →
  window offset block_shape halo sf sh =
    Ok (map (fun '(off, ha, s) => off - ha - s)
          (zip3 (zip_with Z.div offset sf) (zip_with Z.div halo sf) sh),
        map (fun '(off, bs, ha, s) => off + bs + ha + s)
          (zip4 (zip_with Z.div offset sf) (zip_with Z.div block_shape sf)
                (zip_with Z.div halo sf) sh)).
Proof.
  intros Hsf. unfold window. rewrite !floordiv_zip_ok by done. reflexivity.
Qed.

Ltac list_lia := repeat first [reflexivity | lia | progress f_equal].

Lemma pad_left_eq s : (if decide (s < 0) then Z.abs s else 0) = pad_lo s.
Proof. unfold pad_lo. case_decide; lia. Qed.
Lemma pad_right_eq t n : (if decide (t > n) then t - n else 0) = pad_hi n t.
Proof. unfold pad_hi. case_decide; lia. Qed.

Lemma pad_axis_ok n pl pr :
  0 < n → 0 ≤ pl → 0 ≤ pr → pad_axis (n, (pl, pr)) = Ok (pl + n + pr).
Proof.
  intros. unfold pad_axis. repeat case_decide; try reflexivity; lia.
Qed.

Lemma any_neg_false (starts : list Z) :
  any_Z (fun s => bool_decide (s < 0)) starts = false →
  Forall (fun s => 0 ≤ s) starts.
Proof.
  induction starts as [|s l IH]; [constructor|]. cbn.
  rewrite orb_false_iff. intros [H1 H2]. apply bool_decide_eq_false in H1.
  constructor; [lia | auto].
Qed.

Lemma any_over_false (stops shape : list Z) :
  length stops = length shape →
  existsb (fun '(stop, n) => bool_decide (stop > n)) (zip stops shape) = false →
  Forall2 (fun t n => t ≤ n) stops shape.
Proof.
  revert shape. induction stops as [|t l IH]; intros [|n shape] Hlen; try discriminate.
  - constructor.
  - cbn. rewrite orb_false_iff. intros [H1 H2]. apply bool_decide_eq_false in H1.
    constructor; [lia | apply IH; [by injection Hlen | done]].
Qed.


Lemma slice_len_in n b e :
  0 ≤ b → b ≤ e → e ≤ n → slice_len n b e = e - b.
Proof. intros. unfold slice_len, slice_bound. repeat case_decide; lia. Qed.

Lemma forallb_nonneg_any (starts : list Z) :
  forallb (fun s => bool_decide (0 ≤ s)) starts
  = negb (any_Z (fun s => bool_decide (s < 0)) starts).
Proof.
  induction starts as [|s l IH]; [reflexivity|]. cbn. rewrite IH, negb_orb.
  f_equal. repeat case_bool_decide; (reflexivity || lia).
Qed.

Lemma forallb_le_any (l : list (Z * Z)) :
  forallb (fun '(t, n) => bool_decide (t ≤ n)) l
  = negb (existsb (fun '(t, n) => bool_decide (t > n)) l).
Proof.
  induction l as [|[t n] l IH]; [reflexivity|]. cbn. rewrite IH, negb_orb.
  f_equal. repeat case_bool_decide; (reflexivity || lia).
Qed.

Lemma clamp3 n0 n1 n2 s0 s1 s2 t0 t1 t2 offset block_shape halo sf sh :
  window offset block_shape halo sf sh = Ok ([s0; s1; s2], [t0; t1; t2]) →
  0 < n0 → 0 < n1 → 0 < n2 →
  s0 < n0 → s1 < n1 → s2 < n2 →
  0 < t0 → 0 < t1 → 0 < t2 →
  s0 < t0 → s1 < t1 → s2 < t2 →
  ∃ r, _load_input [n0; n1; n2] offset block_shape halo sf sh = Ok r ∧
    bb r = zip (map (Z.max 0) [s0; s1; s2])
               (zip_with Z.min [n0; n1; n2] [t0; t1; t2]) ∧
    data_shape r = zip_with Z.sub [t0; t1; t2] [s0; s1; s2] ∧
    pad_width r =
      (if forallb (fun s => bool_decide (0 ≤ s)) [s0; s1; s2]
          && forallb (fun '(t, n) => bool_decide (t ≤ n))
                     (zip [t0; t1; t2] [n0; n1; n2])
       then None
       else Some (zip (map pad_lo [s0; s1; s2])
                      (zip_with pad_hi [n0; n1; n2] [t0; t1; t2]))).
Proof.
  intros Hw. intros. unfold _load_input. rewrite Hw. cbn [mbind result_bind].
  rewrite forallb_nonneg_any, forallb_le_any.
  destruct (any_Z _ _) eqn:E1; destruct (existsb _ _) eqn:E2.
  all: cbn [length zip zip_with map negb andb]; rewrite ?pad_left_eq, ?pad_right_eq.
  all: try (apply any_neg_false in E1; inversion E1 as [|? ? Ha0 E1']; inversion E1' as [|? ? Ha1 E1'']; inversion E1'' as [|? ? Ha2 _]; subst).
  all: try (apply any_over_false in E2; [|reflexivity]; inversion E2 as [|? ? ? ? Hb0 E2']; inversion E2' as [|? ? ? ? Hb1 E2'']; inversion E2'' as [|? ? ? ? Hb2 _]; subst).
  all: case_decide; [cbn in *; lia|].
  all: unfold getitem_shape; cbn [length zip zip_with map drop app].
  all: case_decide; [cbn in *; lia|].
  all: cbn [mbind result_bind default id slice_extent].
  all: rewrite !slice_len_in by lia.
  all: unfold pad_shape, broadcast_pad; cbn [length zip zip_with].
  all: try (case_decide; [|done]); cbn [mapR zip zip_with mbind result_bind].
  all: rewrite ?pad_axis_ok by (unfold pad_lo, pad_hi; lia).
  all: cbn [mbind result_bind].
  all: eexists; split; [reflexivity|]; cbn [bb data_shape pad_width].
  all: unfold pad_lo, pad_hi; repeat split; list_lia.
Qed.

Ltac list3 l H :=
  let a := fresh l "0" in let b := fresh l "1" in let c := fresh l "2" in
  destruct l as [|a [|b [|c [|? ?]]]]; try discriminate H; clear H.

(** The geometry of [_load_input] on the first scale (scale factor 1, no
    scale halo), for an offset inside a three-dimensional volume and a halo
    [h >= 0]: the window is [[offset - h, offset + block_shape + h)] and the
    returned array has its shape.  A window inside the volume is read as it
    is; otherwise the region read is the window clamped to the volume and
    the padding makes up for what the clamping cut off. *)
Lemma expand_for_halo (vshape offset block_shape halo : list Z) :
  length vshape = 3%nat → length offset = 3%nat →
  length block_shape = 3%nat → length halo = 3%nat →
  Forall2 (fun off n => 0 ≤ off < n) offset vshape →
  Forall (fun bs => 0 < bs) block_shape →
  Forall (fun h => 0 ≤ h) halo →
  let starts := zip_with Z.sub offset halo in
  let stops := zip_with Z.add (zip_with Z.add offset block_shape) halo in
  let inside :=
    Forall (fun s => 0 ≤ s) starts ∧ Forall2 (fun t n => t ≤ n) stops vshape in
  ∃ r, _load_input vshape offset block_shape halo [1; 1; 1] [0; 0; 0] = Ok r ∧
    data_shape r = zip_with (fun bs h => bs + 2 * h) block_shape halo ∧
    (inside → bb r = zip starts stops ∧ pad_width r = None) ∧
    (¬ inside →
       bb r = zip (map (Z.max 0) starts) (zip_with Z.min vshape stops) ∧
       ∃ pw, pad_width r = Some pw ∧
         ∀ (i : nat) s t n,
           starts !! i = Some s → stops !! i = Some t → vshape !! i = Some n →
           ∃ b e pl pr,
             bb r !! i = Some (b, e) ∧ pw !! i = Some (pl, pr) ∧
             0 ≤ b ∧ b < e ∧ e ≤ n ∧
             pl = b - s ∧ pr = t - e ∧ 0 ≤ pl ∧ 0 ≤ pr ∧
             pl + (e - b) + pr = t - s).
Proof.
  intros Hn Ho Hb Hh Hoff Hbs Hhalo starts stops inside.
  list3 vshape Hn. list3 offset Ho. list3 block_shape Hb. list3 halo Hh.
  repeat match goal with
         | H : Forall2 _ (_ :: _) (_ :: _) |- _ => apply Forall2_cons in H; destruct H
         | H : Forall _ (_ :: _) |- _ => apply Forall_cons in H; destruct H
         end.
  assert (Hw : window [offset0; offset1; offset2] [block_shape0; block_shape1; block_shape2]
                 [halo0; halo1; halo2] [1; 1; 1] [0; 0; 0]
               = Ok (starts, stops)).
  { rewrite window_ok by (repeat constructor; lia). subst starts stops.
    cbn [zip3 zip4 zip zip_with map]. rewrite !Z.div_1_r.
    list_lia. }
  subst starts stops. cbn [zip_with] in *.
  destruct (clamp3 vshape0 vshape1 vshape2 _ _ _ _ _ _ _ _ _ _ _ Hw)
    as (r & Hr & Hbb & Hshape & Hpad); try lia.
  exists r. split; [exact Hr|]. split; [rewrite Hshape; cbn; list_lia|].
  subst inside. cbn [zip zip_with map] in *. split.
  - intros [Hs Ht].
    repeat match goal with
         | H : Forall2 _ (_ :: _) (_ :: _) |- _ => apply Forall2_cons in H; destruct H
         | H : Forall _ (_ :: _) |- _ => apply Forall_cons in H; destruct H
         end.
    split.
    + rewrite Hbb. list_lia.
    + rewrite Hpad. cbn. repeat (case_bool_decide; [|lia]). reflexivity.
  - intros Hout. split; [exact Hbb|].
    eexists. split.
    + rewrite Hpad. cbn [forallb].
      destruct (_ && _) eqn:E; [|reflexivity].
      exfalso. apply Hout.
      cbn [forallb] in E. rewrite !andb_true_iff in E. rewrite !bool_decide_eq_true in E.
      split; repeat constructor; lia.
    + intros i s t n Hs Ht Hn. rewrite Hbb.
      destruct i as [|[|[|i]]]; cbn in Hs, Ht, Hn; try discriminate;
        injection Hs as <-; injection Ht as <-; injection Hn as <-;
        (eexists _, _, _, _; split; [reflexivity|]; split; [reflexivity|]);
        unfold pad_lo, pad_hi; lia.
Qed.

(** C3 (as amended).  [load_input] loads a block with the block shape of
    the blocking, not with the extent of the block: for a block that begins
    inside a three-dimensional volume (and is not skipped for the mask) and
    a halo [h >= 0], the array of the first scale (scale factor 1, no scale
    halo) is loaded for the window [[begin - h, begin + block_shape + h)],
    whether or not the block itself is cut off at the boundary of the
    volume, and has the shape of this window, [block_shape + 2 h].  When the
    window lies inside the volume it is read as it is and nothing is
    padded.  Otherwise the region read is the window clamped to
    [[0, shape)], and on every axis the left and right padding are what the
    clamping cut off, so that padding and region together have the extent
    of the window.  The further scales are loaded after it. *)
Theorem load_input_expands_for_halo {V : Type} (blocking_ : Nifty.blocking)
    (vshape halo : list Z) (ds_rest : list (list Z))
    (mask : option (list (Z * Z) -> list bool))
    (sfs shs : list (list Z)) (block_id : Z)
    (t : list (MultiscaleInference.event V)) :
  let block := Nifty.getBlock blocking_ block_id in
  let offset := Nifty.block_begin block in
  let block_shape := Nifty.blockShape blocking_ in
  length vshape = 3%nat → length offset = 3%nat →
  length block_shape = 3%nat → length halo = 3%nat →
  Forall2 (fun off n => 0 ≤ off < n) offset vshape →
  Forall (fun bs => 0 < bs) block_shape →
  Forall (fun h => 0 ≤ h) halo →
  match mask with
  | Some mask =>
      length (filter (fun v => v = true) (mask (Nifty.block_to_bb block)))
      ≠ 0%nat
  | None => True
  end →
  let starts := zip_with Z.sub offset halo in
  let stops := zip_with Z.add (zip_with Z.add offset block_shape) halo in
  let inside :=
    Forall (fun s => 0 ≤ s) starts ∧ Forall2 (fun t n => t ≤ n) stops vshape in
  ∃ r,
    MultiscaleInference.load_input blocking_ halo (vshape :: ds_rest) mask
      ([1; 1; 1] :: sfs) ([0; 0; 0] :: shs) block_id t
    = (rs ← _load_inputs ds_rest offset block_shape halo sfs shs;
       Ok (block_id, Some (r :: rs)),
       t ++ MultiscaleInference.LogStart block_id
         :: match mask with
            | Some _ => [MultiscaleInference.ReadMask block_id]
            | None => []
            end
         ++ [MultiscaleInference.CallLoadInputs block_id]) ∧
    _load_input vshape offset block_shape halo [1; 1; 1] [0; 0; 0] = Ok r ∧
    data_shape r = zip_with (fun bs h => bs + 2 * h) block_shape halo ∧
    (inside → bb r = zip starts stops ∧ pad_width r = None) ∧
    (¬ inside →
       bb r = zip (map (Z.max 0) starts) (zip_with Z.min vshape stops) ∧
       ∃ pw, pad_width r = Some pw ∧
         ∀ (i : nat) s t n,
           starts !! i = Some s → stops !! i = Some t → vshape !! i = Some n →
           ∃ b e pl pr,
             bb r !! i = Some (b, e) ∧ pw !! i = Some (pl, pr) ∧
             0 ≤ b ∧ b < e ∧ e ≤ n ∧
             pl = b - s ∧ pr = t - e ∧ 0 ≤ pl ∧ 0 ≤ pr ∧
             pl + (e - b) + pr = t - s).
Proof.
  intros block offset block_shape Hn Ho Hb Hh Hoff Hbs Hhalo Hmask
    starts stops inside.
  destruct (expand_for_halo vshape offset block_shape halo
              Hn Ho Hb Hh Hoff Hbs Hhalo) as (r & Hr & Hrest).
  exists r. split; [|split; [exact Hr|exact Hrest]].
  unfold MultiscaleInference.load_input, MultiscaleInference.block_shape,
    _load_inputs.
  fold block. fold offset. fold block_shape.
  change (zip3 (vshape :: ds_rest) ([1; 1; 1] :: sfs) ([0; 0; 0] :: shs))
    with ((vshape, [1; 1; 1], [0; 0; 0]) :: zip3 ds_rest sfs shs).
  rewrite mapR_cons, Hr.
  unfold mbind, M_bind, emit, lift, mret, M_ret. cbn [result_bind].
  destruct mask as [m|].
  - rewrite decide_False by exact Hmask.
    destruct (mapR _ _); cbn; by rewrite <- !app_assoc.
  - destruct (mapR _ _); cbn; by rewrite <- !app_assoc.
Qed.

Lemma load_input_expands_for_halo_witness :
  ∃ r,
    MultiscaleInference.load_input (V := Z) ex_cut_blocking [4; 4; 4]
      [[15; 10; 10]] None [[1; 1; 1]] [[0; 0; 0]] 1 []
    = (Ok (1, Some [r]),
       [MultiscaleInference.LogStart 1; MultiscaleInference.CallLoadInputs 1]) ∧
    data_shape r = [18; 18; 18] ∧
    bb r = [(6, 15); (0, 10); (0, 10)] ∧
    pad_width r = Some [(0, 9); (4, 4); (4, 4)].
Proof.
  destruct (load_input_expands_for_halo (V := Z) ex_cut_blocking [15; 10; 10]
              [4; 4; 4] [] None [] [] 1 [])
    as (r & Hl & Hr & Hs & _ & _);
    try reflexivity; try (repeat constructor; cbn; lia).
  exists r. vm_compute in Hr. injection Hr as <-. done.
Defined.

(** C3, the claim as it stands, on block 1 of a volume of shape
    (15, 10, 10) cut into blocks of shape (10, 10, 10): the block is
    [[10, 15)] on the first axis and, with halo 0, its expanded region
    [[begin - h, end + h)] lies inside the volume; all the same
    [load_input] returns an array that is padded by 5 on the right of the
    first axis and has the shape (10, 10, 10), not (5, 10, 10). *)
Lemma truncated_block_is_padded :
  Nifty.getBlock ex_cut_blocking 1
  = Nifty.Block [10; 0; 0] [15; 10; 10] ∧
  Forall (fun b => 0 ≤ b)
         (zip_with Z.sub (Nifty.block_begin (Nifty.getBlock ex_cut_blocking 1))
                   [0; 0; 0]) ∧
  Forall2 (fun e n => e ≤ n)
          (zip_with Z.add (Nifty.block_end (Nifty.getBlock ex_cut_blocking 1))
                    [0; 0; 0])
          [15; 10; 10] ∧
  MultiscaleInference.load_input (V := Z) ex_cut_blocking [0; 0; 0]
    [[15; 10; 10]] None [[1; 1; 1]] [[0; 0; 0]] 1 []
  = (Ok (1, Some [Loaded [(10, 15); (0, 10); (0, 10)]
                         (Some [(0, 5); (0, 0); (0, 0)]) [10; 10; 10]]),
     [MultiscaleInference.LogStart 1; MultiscaleInference.CallLoadInputs 1]).
Proof.
  split; [reflexivity|].
  split; [|split]; [repeat constructor; cbn; lia..|reflexivity].
Qed.

Lemma clamp_nonneg (starts : list Z) :
  Forall (fun s => 0 ≤ s) starts → map (Z.max 0) starts = starts.
Proof.
  induction 1 as [|s l Hs _ IH]; [reflexivity|]. cbn. rewrite IH. f_equal. lia.
Qed.

Lemma load_input_bb shape offset block_shape halo sf sh starts stops r :
  window offset block_shape halo sf sh = Ok (starts, stops) →
  _load_input shape offset block_shape halo sf sh = Ok r →
  ∃ stops', bb r = zip (map (Z.max 0) starts) stops'.
Proof.
  intros Hw. unfold _load_input. rewrite Hw. cbn [mbind result_bind].
  assert (Hst : (if any_Z (fun start => bool_decide (start < 0)) starts
                 then map (Z.max 0) starts else starts) = map (Z.max 0) starts).
  { destruct (any_Z _ _) eqn:E; [done|]. symmetry. by apply clamp_nonneg, any_neg_false. }
  destruct (any_Z _ _); case_decide; try discriminate;
    destruct (existsb _ _); cbn [mbind result_bind];
    destruct (getitem_shape _ _); cbn [mbind result_bind]; try discriminate;
    try destruct (pad_shape _ _); cbn [mbind result_bind]; try discriminate;
    intros [= <-]; cbn [bb]; rewrite <- ?Hst; eauto.
Qed.

Lemma floordiv_floor x f q :
  floordiv x f = Ok q → 0 < f → f * q ≤ x < f * q + f.
Proof.
  unfold floordiv. case_decide; [discriminate|]. intros [= <-] Hf.
  pose proof (Z.mul_div_le x f Hf). pose proof (Z.mul_succ_div_gt x f Hf). lia.
Qed.

(** C4.  For a scale factor without zero entries the window of a coarser
    level is computed on the floor quotients of block offset, block shape
    and halo by the scale factor, with the scale halo added on both sides:
    it begins at [off / f - h / f - s] and ends at [off / f + bs / f + h / f
    + s] on every axis ([/] is floor division: [f * (x / f) <= x < f * (x /
    f) + f] for positive [f]).  The region that [_load_input] reads begins
    at that value, or at 0 where it is negative. *)
Theorem coarse_window_begin (offset block_shape halo sf sh : list Z) :
  Forall (fun f => f ≠ 0) sf →
  ∃ starts stops,
    window offset block_shape halo sf sh = Ok (starts, stops) ∧
    (∀ (i : nat) off bs h f s,
       offset !! i = Some off → block_shape !! i = Some bs →
       halo !! i = Some h → sf !! i = Some f → sh !! i = Some s →
       floordiv off f = Ok (off / f) ∧ floordiv bs f = Ok (bs / f) ∧
       floordiv h f = Ok (h / f) ∧
       starts !! i = Some (off / f - h / f - s) ∧
       stops !! i = Some (off / f + bs / f + h / f + s) ∧
       (0 < f → f * (off / f) ≤ off < f * (off / f) + f ∧
                f * (bs / f) ≤ bs < f * (bs / f) + f ∧
                f * (h / f) ≤ h < f * (h / f) + f)) ∧
    (∀ shape r,
       _load_input shape offset block_shape halo sf sh = Ok r →
       ∀ (i : nat) b e, bb r !! i = Some (b, e) →
         ∃ st, starts !! i = Some st ∧ b = Z.max 0 st).
Proof.
  intros Hsf. eexists _, _. split; [by apply window_ok|]. split.
  - intros i off bs h f s Ho Hb Hh Hf Hs.
    assert (Hf0 : f ≠ 0).
    { rewrite Forall_lookup in Hsf. by apply (Hsf i). }
    assert (Hd : ∀ x, floordiv x f = Ok (x / f)).
    { intros x. unfold floordiv. by case_decide. }
    repeat split; try apply Hd.
    + rewrite list_lookup_fmap. unfold zip3.
      rewrite !lookup_zip_with, Ho, Hh, Hf, Hs. reflexivity.
    + rewrite list_lookup_fmap. unfold zip4, zip3.
      rewrite !lookup_zip_with, Ho, Hb, Hh, Hf, Hs. reflexivity.
    + eapply floordiv_floor; [apply Hd | done].
    + eapply floordiv_floor; [apply Hd | done].
    + eapply floordiv_floor; [apply Hd | done].
    + eapply floordiv_floor; [apply Hd | done].
    + eapply floordiv_floor; [apply Hd | done].
    + eapply floordiv_floor; [apply Hd | done].
  - intros shape r Hr i b e Hbb.
    destruct (load_input_bb _ _ _ _ _ _ _ _ _ (window_ok _ _ _ _ _ Hsf) Hr)
      as [stops' Hz].
    rewrite Hz in Hbb. apply lookup_zip_with_Some in Hbb.
    destruct Hbb as (x & y & [= -> ->] & Hx & _).
    rewrite list_lookup_fmap in Hx.
    destruct (_ !! i) as [st|] eqn:E; [|discriminate].
    injection Hx as <-. eauto.
Qed.

Lemma coarse_window_begin_witness :
  ∃ starts stops,
    window [10; 20; 30] [10; 10; 10] [4; 4; 4] [2; 2; 2] [1; 1; 1] = Ok (starts, stops) ∧
    starts !! 0%nat = Some (10 / 2 - 4 / 2 - 1) ∧
    starts !! 2%nat = Some 12.
Proof.
  destruct (coarse_window_begin [10; 20; 30] [10; 10; 10] [4; 4; 4] [2; 2; 2] [1; 1; 1])
    as (starts & stops & Hw & Hi & _); [repeat constructor; lia|].
  exists starts, stops. split; [exact Hw|]. split.
  - by apply (Hi 0%nat 10 10 4 2 1).
  - by apply (Hi 2%nat 30 10 4 2 1).
Defined.

End LoadInputFacts.

(** ** Global ids of the sub-solutions *)

Module SubSolutionsFacts.
Import Numpy Nifty SubSolutions.

Lemma mapR_Forall2 {A B} (f : A -> result B) l ys :
  mapR f l = Ok ys → Forall2 (fun x y => f x = Ok y) l ys.
Proof.
  revert ys. induction l as [|x l IH]; intros ys; cbn.
  - intros [= <-]. constructor.
  - destruct (f x) as [y|] eqn:Hx; cbn; [|discriminate].
    destruct (mapR f l) as [ys'|]; cbn; [|discriminate].
    intros [= <-]. constructor; auto.
Qed.

Lemma mapR_id_ok {A} (f : A -> result A) l :
  Forall (fun x => f x = Ok x) l → mapR f l = Ok l.
Proof.
  induction 1 as [|x l Hx _ IH]; cbn; [done|]. by rewrite Hx, IH.
Qed.

Lemma floordiv_zip_inv xs sf q :
  floordiv_zip xs sf = Ok q → q = zip_with Z.div xs sf.
Proof.
  unfold floordiv_zip. revert sf q.
  induction xs as [|x xs IH]; intros [|f sf] q; try (by intros [= <-]).
  change (zip (x :: xs) (f :: sf)) with ((x, f) :: zip xs sf).
  unfold floordiv at 1. cbn [mapR fst snd].
  destruct (decide (f = 0)); cbn [mbind result_bind]; [discriminate|].
  destruct (mapR _ _) as [q'|] eqn:E; cbn [mbind result_bind]; [|discriminate].
  intros [= <-]. cbn. f_equal. by apply IH.
Qed.

(** *** The offsets *)

Lemma u64_add_l a b : u64 (u64 a + b) = u64 (a + b).
Proof. unfold u64. by rewrite Zplus_mod_idemp_l. Qed.

Lemma cumsum_from_lookup l acc (i : nat) :
  (i < length l)%nat →
  cumsum_from acc l !! i = Some (u64 (acc + sum_Z (take (S i) l))).
Proof.
  revert acc i. induction l as [|x l IH]; intros acc i Hi; cbn in Hi; [lia|].
  destruct i as [|i]; cbn [cumsum_from lookup list_lookup take sum_Z foldr].
  - rewrite take_0. cbn. do 2 f_equal. lia.
  - rewrite IH by lia. rewrite u64_add_l. do 2 f_equal.
    fold (sum_Z (take (S i) l)). lia.
Qed.

Lemma cumsum_from_length l acc : length (cumsum_from acc l) = length l.
Proof. revert acc. induction l; intros; cbn; [done|]. by rewrite IHl. Qed.

Lemma array_u64_inv l a : array_u64 l = Ok a → a = l.
Proof.
  unfold array_u64. revert a. induction l as [|x l IH]; intros a; cbn.
  - by intros [= <-].
  - destruct (decide (0 ≤ x < 2 ^ 64)); cbn [mbind result_bind]; [|discriminate].
    destruct (mapR _ l) as [a'|] eqn:E; cbn [mbind result_bind]; [|discriminate].
    intros [= <-]. f_equal. by apply IH.
Qed.

Lemma roll1_snoc {A} (l : list A) x : roll1 (l ++ [x]) = x :: l.
Proof.
  unfold roll1. rewrite length_app. cbn.
  replace (length l + 1 - 1)%nat with (length l) by lia.
  rewrite drop_app_length, take_app_length. done.
Qed.

Lemma block_offsets_of_spec sizes offs :
  block_offsets_of sizes = Ok offs →
  length offs = length sizes ∧
  ∀ i : nat, (i < length sizes)%nat →
    offs !! i = Some (u64 (sum_Z (take i sizes))).
Proof.
  unfold block_offsets_of.
  destruct (array_u64 sizes) as [a|] eqn:Ha; cbn; [|discriminate].
  apply array_u64_inv in Ha as ->.
  induction sizes as [|x0 sizes0 _] using rev_ind; [discriminate|].
  rewrite roll1_snoc. cbn. intros [= <-].
  cbn. rewrite cumsum_from_length, length_app. cbn. split; [lia|].
  intros [|i] Hi; cbn; [done|].
  change (u64 (0 + 0)) with 0.
  rewrite cumsum_from_lookup by lia.
  rewrite (take_app_le _ _ (S i)) by lia. done.
Qed.

(** *** The dictionaries *)

Lemma result_dict_fold bnodes bres :
  result_dict bnodes bres = foldl enter ∅ (zip bnodes bres).
Proof. reflexivity. Qed.

Lemma enter_lookup d n r k :
  enter d (n, r) !! k = if decide (n = k) then Some (entry n r) else d !! k.
Proof.
  unfold enter. cbn [fst snd]. destruct (decide (n = k)) as [->|Hne].
  - by rewrite lookup_insert_eq.
  - by rewrite lookup_insert_ne.
Qed.

Lemma foldl_enter_lookup_Some l d k v :
  foldl enter d l !! k = Some v →
  d !! k = Some v ∨ ∃ (j : nat) r, l !! j = Some (k, r) ∧ v = entry k r.
Proof.
  revert d. induction l as [|[n r] l IH]; intros d; cbn [foldl]; [auto|].
  intros H. apply IH in H as [H|(j & r' & Hj & Hv)].
  - rewrite enter_lookup in H. destruct (decide (n = k)) as [->|_]; [|auto].
    injection H as <-. right. by exists 0%nat, r.
  - right. by exists (S j), r'.
Qed.

Lemma foldl_enter_keeps l d k :
  is_Some (d !! k) → is_Some (foldl enter d l !! k).
Proof.
  revert d. induction l as [|[n r] l IH]; intros d Hd; cbn [foldl]; [done|].
  apply IH. rewrite enter_lookup. by case_decide.
Qed.

Lemma foldl_enter_lookup_is_Some l d k r :
  (k, r) ∈ l → is_Some (foldl enter d l !! k).
Proof.
  revert d. induction l as [|[n r'] l IH]; intros d Hin; [by inversion Hin|].
  cbn [foldl]. apply elem_of_cons in Hin as [[= <- <-]|Hin]; [|by apply IH].
  apply foldl_enter_keeps. rewrite enter_lookup, decide_True by done. eauto.
Qed.

(** Node 0 is never given another value than 0. *)
Lemma result_dict_zero bnodes bres v :
  result_dict bnodes bres !! 0 = Some v → v = 0.
Proof.
  rewrite result_dict_fold. intros H.
  apply foldl_enter_lookup_Some in H as [H|(j & r & _ & ->)]; [done|].
  reflexivity.
Qed.

Lemma result_dict_lookup_Some bnodes bres k v :
  result_dict bnodes bres !! k = Some v →
  ∃ (j : nat) r, bnodes !! j = Some k ∧ bres !! j = Some r ∧ v = entry k r.
Proof.
  rewrite result_dict_fold. intros H.
  apply foldl_enter_lookup_Some in H as [H|(j & r & Hj & ->)]; [done|].
  apply lookup_zip_with_Some in Hj as (x & y & [= <- <-] & Hx & Hy). eauto.
Qed.

Lemma result_dict_lookup_is_Some bnodes bres (j : nat) k r :
  bnodes !! j = Some k → bres !! j = Some r →
  is_Some (result_dict bnodes bres !! k).
Proof.
  intros Hk Hr. rewrite result_dict_fold.
  apply (foldl_enter_lookup_is_Some _ _ _ r), list_elem_of_lookup.
  exists j. apply lookup_zip_with_Some. eauto.
Qed.

(** A node that occurs once is mapped to its own result. *)
Lemma result_dict_lookup_NoDup bnodes bres (j : nat) k r :
  NoDup bnodes → bnodes !! j = Some k → bres !! j = Some r →
  result_dict bnodes bres !! k = Some (entry k r).
Proof.
  intros Hnd Hk Hr.
  destruct (result_dict_lookup_is_Some _ _ _ _ _ Hk Hr) as [v Hv].
  rewrite Hv. apply result_dict_lookup_Some in Hv as (j' & r' & Hk' & Hr' & ->).
  rewrite (NoDup_lookup _ _ _ _ Hnd Hk Hk') in Hr. congruence.
Qed.

(** *** [_read_subresults] *)

Section ReadSubresultsFacts.
Variable blocking_ : blocking.
Variable loadNodes : Z -> list Z.
Variable read_chunk : list Z -> option (list Z).

#[local] Abbreviation read_subres := (read_subres blocking_ loadNodes read_chunk).
#[local] Abbreviation _read_subresults :=
  (_read_subresults blocking_ loadNodes read_chunk).
#[local] Abbreviation stored := (stored blocking_ read_chunk).
#[local] Abbreviation subres_of := (subres_of blocking_ read_chunk).
#[local] Abbreviation non_skipped := (non_skipped blocking_ read_chunk).
#[local] Abbreviation relabelled := (relabelled loadNodes).
#[local] Abbreviation info := (info blocking_ loadNodes read_chunk).

Lemma read_subres_inv b res :
  read_subres b = Ok res →
  match stored b with
  | None => res = None ∧ 0 ∈ loadNodes b
  | Some subres =>
      ∃ m, np_max subres = Ok m ∧ length (loadNodes b) = length subres ∧
           res = Some (loadNodes b, subres, m + 1)
  end.
Proof.
  unfold SubSolutions.read_subres, SubSolutions.stored.
  destruct (floordiv_zip _ _) as [chunk|] eqn:Hc; cbn [mbind result_bind];
    [|discriminate].
  apply floordiv_zip_inv in Hc. fold (chunk_of blocking_ b) in Hc. subst chunk.
  destruct (read_chunk _) as [subres|].
  - unfold assert. case_bool_decide; cbn [mbind result_bind]; [|discriminate].
    destruct (np_max subres) as [m|]; cbn [mbind result_bind]; [|discriminate].
    intros [= <-]. eauto.
  - unfold assert. case_bool_decide; cbn [mbind result_bind]; [|discriminate].
    intros [= <-]. done.
Qed.

Lemma results_kept block_list results :
  Forall2 (fun b res => read_subres b = Ok res) block_list results →
  omap keep_id (zip block_list results) = non_skipped block_list ∧
  omap id results = info <$> non_skipped block_list ∧
  Forall (fun b => length (loadNodes b) = length (subres_of b))
         (non_skipped block_list).
Proof.
  induction 1 as [|b res block_list results Hb _ (IH1 & IH2 & IH3)];
    [by repeat split|].
  apply read_subres_inv in Hb. unfold SubSolutions.non_skipped in *.
  rewrite filter_cons.
  change (zip (b :: block_list) (res :: results))
    with ((b, res) :: zip block_list results).
  cbn [omap list_omap].
  destruct (stored b) as [subres|] eqn:Hs.
  - destruct Hb as (m & Hm & Hlen & ->). cbn [keep_id fst snd id].
    rewrite decide_True by eauto. rewrite IH1, IH2. split; [done|]. split.
    + cbn [fmap list_fmap]. f_equal.
      unfold SubSolutions.info, SubSolutions.subres_of, id_range.
      rewrite Hs. cbn. by rewrite Hm.
    + constructor; [|done]. unfold SubSolutions.subres_of. by rewrite Hs.
  - destruct Hb as [-> _]. cbn [keep_id fst snd id].
    rewrite decide_False by (intros [? ?]; discriminate). done.
Qed.

Lemma omap_fmap_id {A B} (g : A -> B) (l : list (option A)) :
  omap (fun res => g <$> res) l = g <$> omap id l.
Proof.
  induction l as [|[a|] l IH]; cbn; [done| |done]. by rewrite IH.
Qed.

(** The functional description of [_read_subresults]: the blocks returned
    are the blocks of the list that have a sub-result, in the order of the
    list; the offset of a block is the sum, in 64-bit arithmetic, of the id
    ranges of the blocks returned before it; and the dictionary of a block
    maps its nodes (under the initial node labeling) to their sub-result
    plus the offset, node 0 to 0. *)
Lemma read_subresults_spec block_list initial_node_labeling bl br :
  _read_subresults block_list initial_node_labeling = Ok (bl, br) →
  bl = non_skipped block_list ∧ length br = length bl ∧
  ∀ (i : nat) b, bl !! i = Some b →
    ∃ subres nodes,
      stored b = Some subres ∧
      relabelled initial_node_labeling b = Ok nodes ∧
      length nodes = length subres ∧
      br !! i =
        Some (result_dict nodes
                ((fun r => u64 (r + u64 (sum_Z ((fun b => id_range (subres_of b))
                                                  <$> take i bl))))
                   <$> subres)).
Proof.
  unfold SubSolutions._read_subresults.
  destruct (mapR _ block_list) as [results|] eqn:Hres; cbn [mbind result_bind];
    [|discriminate].
  apply mapR_Forall2, results_kept in Hres as (Hbl & Hkept & Hlens).
  rewrite Hbl, !omap_fmap_id, Hkept, <- !list_fmap_compose.
  destruct (block_offsets_of _) as [offs|] eqn:Hoffs; cbn [mbind result_bind];
    [|discriminate].
  apply block_offsets_of_spec in Hoffs as [Hlen Hoffs].
  rewrite length_fmap in Hlen, Hoffs.
  set (nsk := non_skipped block_list) in *.
  destruct (match initial_node_labeling with
            | Some labeling => _ | None => _ end) as [bnodes|] eqn:Hn;
    cbn [mbind result_bind]; [|discriminate].
  intros [= <- <-].
  assert (Hnodes : Forall2 (fun b nodes =>
                      relabelled initial_node_labeling b = Ok nodes) nsk bnodes).
  { unfold SubSolutions.relabelled. destruct initial_node_labeling as [lab|].
    - apply mapR_Forall2 in Hn. apply Forall2_fmap_l in Hn. exact Hn.
    - injection Hn as <-. apply Forall2_fmap_r, Forall_Forall2_diag.
      by apply Forall_true. }
  pose proof (Forall2_length _ _ _ Hnodes) as Hlen2.
  split; [done|]. split.
  { repeat (rewrite length_fmap || rewrite length_zip_with). lia. }
  intros i b Hb.
  pose proof (lookup_lt_Some _ _ _ Hb) as Hi.
  destruct (Forall2_lookup_l _ _ _ _ _ Hnodes Hb) as (nodes & Hnl & Hrel).
  assert (Hst : is_Some (stored b)).
  { apply list_elem_of_lookup_2 in Hb. subst nsk.
    unfold SubSolutions.non_skipped in Hb. by apply list_elem_of_filter in Hb as [? _]. }
  destruct Hst as [subres Hst].
  exists subres, nodes. split; [done|]. split; [done|]. split.
  { rewrite Forall_lookup in Hlens. specialize (Hlens i b Hb).
    unfold SubSolutions.subres_of in Hlens. rewrite Hst in Hlens. cbn in Hlens.
    rewrite <- Hlens. unfold SubSolutions.relabelled in Hrel.
    destruct initial_node_labeling as [lab|]; [|by injection Hrel as <-].
    apply mapR_Forall2, Forall2_length in Hrel. done. }
  rewrite list_lookup_fmap, lookup_zip_with, Hnl. cbn [mbind option_bind].
  rewrite list_lookup_fmap, lookup_zip_with, list_lookup_fmap, Hb.
  cbn [fmap option_fmap option_map mbind option_bind].
  rewrite Hoffs by lia. cbn [fmap option_fmap option_map mbind option_bind].
  rewrite fmap_take. unfold compose, SubSolutions.info. cbn [fst snd].
  replace (subres_of b) with subres
    by (unfold SubSolutions.subres_of; by rewrite Hst).
  reflexivity.
Qed.

(** C1 (as amended).  The blocks that [_read_subresults] returns are the
    blocks of the list that have a sub-result.  The offset of such a block
    is the sum, in 64-bit unsigned arithmetic, of [maximum local id + 1] over
    the blocks returned before it, hence 0 for the first one.  Every entry
    of the block's dictionary maps a node to the local id of that node plus
    the offset (node 0 to 0), and a node that occurs once among the nodes of
    the block is mapped to its own local id plus the offset.  For the maxima
    3, 0 and 5 the offsets are 0, 4 and 5. *)
Theorem block_offsets_sum_id_ranges block_list initial_node_labeling bl br :
  _read_subresults block_list initial_node_labeling = Ok (bl, br) →
  (bl = non_skipped block_list ∧
   ∀ (i : nat) b, bl !! i = Some b →
     ∃ subres nodes d off,
       off = u64 (sum_Z ((fun b => id_range (subres_of b)) <$> take i bl)) ∧
       (i = 0%nat → off = 0) ∧
       stored b = Some subres ∧
       relabelled initial_node_labeling b = Ok nodes ∧
       br !! i = Some d ∧
       (∀ n v, d !! n = Some v →
          ∃ (j : nat) r, nodes !! j = Some n ∧ subres !! j = Some r ∧
                         v = if decide (n ≠ 0) then u64 (r + off) else 0) ∧
       (NoDup nodes →
        ∀ (j : nat) n r, nodes !! j = Some n → subres !! j = Some r → n ≠ 0 →
                         d !! n = Some (u64 (r + off)))) ∧
  block_offsets_of [3 + 1; 0 + 1; 5 + 1] = Ok [0; 4; 5].
Proof.
  intros H. apply read_subresults_spec in H as (Hbl & _ & H).
  split; [|reflexivity]. split; [done|].
  intros i b Hb. destruct (H i b Hb) as (subres & nodes & Hst & Hrel & Hlen & Hd).
  eexists subres, nodes, _, _. split; [reflexivity|].
  split; [by intros ->|]. do 3 (split; [done|]). split.
  - intros n v Hv.
    apply result_dict_lookup_Some in Hv as (j & r & Hn & Hr & ->).
    apply list_lookup_fmap_Some in Hr as (r0 & -> & Hr0).
    exists j, r0. do 2 (split; [done|]). unfold entry. by case_decide.
  - intros Hnd j n r Hn Hr Hn0.
    match goal with
    | |- result_dict _ (?f <$> _) !! _ = _ =>
        assert (Hx : (f <$> subres) !! j = Some (f r))
          by (by rewrite list_lookup_fmap, Hr)
    end.
    rewrite (result_dict_lookup_NoDup _ _ _ _ _ Hnd Hn Hx).
    unfold entry. by rewrite decide_True.
Qed.

(** C6.  In every dictionary that [_read_subresults] returns, node 0 is
    mapped to 0 and to nothing else, whatever the offset of the block and
    whatever the initial node labeling; it is in the dictionary as soon as 0
    is among the (relabelled) nodes of the block. *)
Theorem zero_maps_to_zero block_list initial_node_labeling bl br :
  _read_subresults block_list initial_node_labeling = Ok (bl, br) →
  ∀ (i : nat) d, br !! i = Some d →
    (∀ v, d !! 0 = Some v → v = 0) ∧
    (∀ b nodes, bl !! i = Some b →
       relabelled initial_node_labeling b = Ok nodes →
       0 ∈ nodes → d !! 0 = Some 0).
Proof.
  intros H i d Hd. apply read_subresults_spec in H as (_ & Hlen & H).
  destruct (lookup_lt_is_Some_2 bl i) as [b Hb].
  { rewrite <- Hlen. by eapply lookup_lt_Some. }
  destruct (H i b Hb) as (subres & nodes & Hst & Hrel & Hl & Hd').
  rewrite Hd in Hd'. injection Hd' as ->. split.
  - apply result_dict_zero.
  - intros b' nodes' Hb' Hrel' H0.
    rewrite Hb in Hb'. injection Hb' as <-.
    rewrite Hrel in Hrel'. injection Hrel' as <-.
    apply list_elem_of_lookup in H0 as [j Hj].
    destruct (lookup_lt_is_Some_2 subres j) as [r Hr].
    { rewrite <- Hl. by eapply lookup_lt_Some. }
    destruct (result_dict_lookup_is_Some nodes
                ((fun r => u64 (r + u64 (sum_Z ((fun b => id_range (subres_of b))
                                                  <$> take i bl)))) <$> subres)
                j 0 (u64 (r + u64 (sum_Z ((fun b => id_range (subres_of b))
                                            <$> take i bl)))))
      as [v Hv]; [done|by rewrite list_lookup_fmap, Hr|].
    rewrite Hv. by apply result_dict_zero in Hv as ->.
Qed.

(** *** Blocks without a sub-result *)

Lemma mapR_without_skipped b block_list results :
  stored b = None →
  Forall2 (fun x res => read_subres x = Ok res) block_list results →
  ∃ results',
    mapR read_subres (filter (fun x => x ≠ b) block_list) = Ok results' ∧
    omap id results' = omap id results ∧
    omap keep_id (zip (filter (fun x => x ≠ b) block_list) results')
      = omap keep_id (zip block_list results).
Proof.
  intros Hb. induction 1 as [|x res l results Hx _ (results' & IH1 & IH2 & IH3)].
  - by exists [].
  - rewrite filter_cons.
    change (zip (x :: l) (res :: results)) with ((x, res) :: zip l results).
    destruct (decide (x ≠ b)) as [Hne|Heq].
    + exists (res :: results'). cbn [mapR]. rewrite Hx, IH1.
      cbn [mbind result_bind].
      change (zip (x :: filter (fun x => x ≠ b) l) (res :: results'))
        with ((x, res) :: zip (filter (fun x => x ≠ b) l) results').
      cbn [omap list_omap]. by rewrite IH2, IH3.
    + apply dec_stable in Heq as ->. exists results'.
      apply read_subres_inv in Hx. rewrite Hb in Hx. destruct Hx as [-> _].
      cbn [omap list_omap keep_id fst snd id]. done.
Qed.

Section WritePhase.
Variable ws : Z -> list Z.
Variable takeDict : gmap Z Z -> list Z -> result (list Z).
Variable store_write : Z -> list Z -> result unit.

#[local] Abbreviation _write_block_res :=
  (_write_block_res ws takeDict store_write).
#[local] Abbreviation sub_solutions :=
  (sub_solutions blocking_ loadNodes read_chunk ws takeDict store_write).

Lemma written_app t1 t2 : written (t1 ++ t2) = written t1 ++ written t2.
Proof. unfold written. apply omap_app. Qed.

Lemma write_block_res_trace block_id block_res t :
  ∃ evs, (_write_block_res block_id block_res t).2 = t ++ evs ∧
         ∀ b, b ∈ written evs → b = block_id.
Proof.
  unfold SubSolutions._write_block_res, mbind, M_bind, emit, lift. cbn.
  destruct (takeDict _ _) as [seg|]; cbn.
  - destruct (store_write _ _); cbn; rewrite <- ?app_assoc;
      eexists; (split; [reflexivity|]); cbn; intros b Hb;
      by apply list_elem_of_singleton in Hb.
  - eexists. split; [reflexivity|]. cbn. intros b Hb. by inversion Hb.
Qed.

Lemma run_tasks_trace (l : list (Z * gmap Z Z)) t :
  ∃ evs,
    (run_tasks ((fun '(block_id, block_res) =>
                   _write_block_res block_id block_res) <$> l) t).2 = t ++ evs ∧
    ∀ b, b ∈ written evs → b ∈ l.*1.
Proof.
  revert t. induction l as [|[b0 d0] l IH]; intros t.
  - exists []. cbn. rewrite app_nil_r. split; [done|]. intros b Hb.
    by inversion Hb.
  - cbn [fmap list_fmap run_tasks].
    destruct (write_block_res_trace b0 d0 t) as (evs1 & H1 & Hw1).
    destruct (_write_block_res b0 d0 t) as [[[]|e] t1] eqn:E; cbn in H1; subst t1.
    + destruct (IH (t ++ evs1)) as (evs2 & H2 & Hw2).
      exists (evs1 ++ evs2). rewrite app_assoc. split; [done|].
      intros b. rewrite written_app, elem_of_app. cbn.
      intros [Hb|Hb]; [apply Hw1 in Hb as ->; by left|apply Hw2 in Hb; by right].
    + destruct (IH (t ++ evs1)) as (evs2 & H2 & Hw2). cbn [snd].
      exists (evs1 ++ evs2). rewrite app_assoc. split; [done|].
      intros b. rewrite written_app, elem_of_app. cbn.
      intros [Hb|Hb]; [apply Hw1 in Hb as ->; by left|apply Hw2 in Hb; by right].
Qed.

(** The write phase writes to the blocks that [_read_subresults] returned,
    and to no other. *)
Lemma sub_solutions_written job_id block_list scale node_labeling t :
  ∃ evs,
    (sub_solutions job_id block_list scale node_labeling t).2 = t ++ evs ∧
    ∀ b, b ∈ written evs →
      ∃ bl br,
        _read_subresults block_list
          (if decide (scale > 1) then Some node_labeling else None)
          = Ok (bl, br) ∧
        b ∈ bl.
Proof.
  unfold SubSolutions.sub_solutions.
  unfold mbind at 1, M_bind at 1, lift at 1.
  destruct (SubSolutions._read_subresults _ _ _ _ _) as [[bl br]|] eqn:E.
  - unfold mbind, M_bind.
    destruct (run_tasks_trace (zip bl br) t) as (evs & Hevs & Hw).
    change (map ?f (zip bl br)) with (f <$> zip bl br).
    destruct (run_tasks _ t) as [[[]|e] t1]; cbn in Hevs; subst t1; cbn.
    + unfold emit. cbn. rewrite <- app_assoc. eexists. split; [reflexivity|].
      intros b. rewrite written_app, elem_of_app. cbn.
      intros [Hb|Hb]; [|by inversion Hb].
      exists bl, br. split; [done|]. apply Hw in Hb.
      apply list_elem_of_fmap in Hb as ([b' d] & -> & Hb).
      apply list_elem_of_lookup in Hb as [i Hi].
      apply lookup_zip_with_Some in Hi as (x & y & [= <- <-] & Hx & _).
      by eapply list_elem_of_lookup_2.
    + exists evs. split; [done|]. intros b Hb.
      exists bl, br. split; [done|]. apply Hw in Hb.
      apply list_elem_of_fmap in Hb as ([b' d] & -> & Hb).
      apply list_elem_of_lookup in Hb as [i Hi].
      apply lookup_zip_with_Some in Hi as (x & y & [= <- <-] & Hx & _).
      by eapply list_elem_of_lookup_2.
  - exists []. cbn. rewrite app_nil_r. split; [done|]. intros b Hb.
    by inversion Hb.
Qed.

(** C7.  A block whose stored sub-result is absent is not among the blocks
    that [_read_subresults] returns, and leaving it out of the block list
    changes neither the blocks returned nor any dictionary (it adds nothing
    to the offsets of the blocks after it); the write phase of
    [sub_solutions] does not write to it. *)
Theorem block_without_result_omitted b block_list :
  stored b = None →
  (∀ initial_node_labeling bl br,
     _read_subresults block_list initial_node_labeling = Ok (bl, br) →
     (b ∉ bl) ∧
     _read_subresults (filter (fun x => x ≠ b) block_list)
       initial_node_labeling = Ok (bl, br)) ∧
  (∀ job_id scale node_labeling t,
     ∃ evs,
       (sub_solutions job_id block_list scale node_labeling t).2 = t ++ evs ∧
       b ∉ written evs).
Proof.
  intros Hb. split.
  - intros init bl br H. split.
    + apply read_subresults_spec in H as (-> & _).
      unfold SubSolutions.non_skipped. rewrite list_elem_of_filter, Hb.
      intros [[? ?] _]. discriminate.
    + revert H. unfold SubSolutions._read_subresults.
      destruct (mapR _ block_list) as [results|] eqn:Hres;
        cbn [mbind result_bind]; [|discriminate].
      apply mapR_Forall2 in Hres.
      destruct (mapR_without_skipped b _ _ Hb Hres) as (results' & -> & H2 & H3).
      cbn [mbind result_bind]. rewrite !omap_fmap_id, H2, H3. done.
  - intros job_id scale node_labeling t.
    destruct (sub_solutions_written job_id block_list scale node_labeling t)
      as (evs & Hevs & Hw).
    exists evs. split; [done|]. intros Hin.
    apply Hw in Hin as (bl & br & H & Hin).
    apply read_subresults_spec in H as (-> & _).
    unfold SubSolutions.non_skipped in Hin.
    rewrite list_elem_of_filter, Hb in Hin. destruct Hin as [[? ?] _].
    discriminate.
Qed.

End WritePhase.

End ReadSubresultsFacts.

End SubSolutionsFacts.

Module SubSolutionsExamples.
Import Numpy Nifty SubSolutions SubSolutionsFacts.

(** C1, the claim as it stands, on three blocks with the maxima 3, 0 and 5:
    the offsets are not 0, 3, 3, and local id 4 of the third block is not
    mapped to 7.  The same holds when the middle block has no sub-result at
    all: the third block then has offset 4 and its local id 4 is mapped to
    8. *)
Lemma maxima_3_0_5_offsets_differ :
  block_offsets_of [3 + 1; 0 + 1; 5 + 1] ≠ Ok [0; 3; 3] ∧
  (∃ d0 d1 d2,
     _read_subresults ex_blocking ex_nodes ex_results [0; 1; 2] None
       = Ok ([0; 1; 2], [d0; d1; d2]) ∧
     d0 !! 12 = Some 2 ∧ d2 !! 35 = Some 9 ∧ d2 !! 35 ≠ Some 7) ∧
  (∃ d0 d2,
     _read_subresults ex_blocking ex_nodes ex_results_gap [0; 1; 2] None
       = Ok ([0; 2], [d0; d2]) ∧
     d0 !! 12 = Some 2 ∧ d2 !! 35 = Some 8 ∧ d2 !! 35 ≠ Some 7).
Proof.
  split; [by vm_compute|]. split.
  - eexists _, _, _. split; [vm_compute; reflexivity|].
    split; [by vm_compute|]. split; by vm_compute.
  - eexists _, _. split; [vm_compute; reflexivity|].
    split; [by vm_compute|]. split; by vm_compute.
Qed.

Lemma block_offsets_sum_id_ranges_witness :
  ∃ d0 d1 d2,
    _read_subresults ex_blocking ex_nodes ex_results [0; 1; 2] None
      = Ok ([0; 1; 2], [d0; d1; d2]) ∧
    d0 !! 12 = Some 2 ∧ d2 !! 35 = Some 9.
Proof.
  eexists _, _, _. split; [vm_compute; reflexivity|].
  match goal with
  | |- ?d0 !! 12 = _ ∧ ?d2 !! 35 = _ =>
      assert (E : _read_subresults ex_blocking ex_nodes ex_results [0; 1; 2] None
                  = Ok ([0; 1; 2], [d0; _; d2])) by (vm_compute; reflexivity)
  end.
  destruct (block_offsets_sum_id_ranges _ _ _ _ _ _ _ E) as [[_ H] _].
  split.
  - destruct (H 0%nat 0 eq_refl)
      as (subres & nodes & d & off & -> & _ & Hst & Hrel & Hd & _ & Hnd).
    injection Hd as <-. vm_compute in Hst, Hrel.
    injection Hst as <-. injection Hrel as <-.
    rewrite (Hnd ltac:(apply (bool_decide_unpack _); by vm_compute) 2%nat 12 2);
      done.
  - destruct (H 2%nat 2 eq_refl)
      as (subres & nodes & d & off & -> & _ & Hst & Hrel & Hd & _ & Hnd).
    injection Hd as <-. vm_compute in Hst, Hrel.
    injection Hst as <-. injection Hrel as <-.
    rewrite (Hnd ltac:(apply (bool_decide_unpack _); by vm_compute) 4%nat 35 4);
      done.
Defined.

Lemma zero_maps_to_zero_witness :
  ∃ d0 d1,
    _read_subresults ex_blocking ex_nodes_coarse ex_results_coarse [0; 1]
      (Some ex_labeling) = Ok ([0; 1], [d0; d1]) ∧
    d1 !! 0 = Some 0 ∧ d1 !! 7 = Some 8.
Proof.
  eexists _, _. split; [vm_compute; reflexivity|].
  match goal with
  | |- ?d1 !! 0 = _ ∧ _ =>
      assert (E : _read_subresults ex_blocking ex_nodes_coarse ex_results_coarse
                    [0; 1] (Some ex_labeling) = Ok ([0; 1], [_; d1]))
        by (vm_compute; reflexivity)
  end.
  split; [|by vm_compute].
  destruct (zero_maps_to_zero _ _ _ _ _ _ _ E 1%nat _ eq_refl) as [_ H].
  apply (H 1 [0; 7; 7; 0]); [reflexivity|reflexivity|set_solver].
Defined.

Lemma block_without_result_omitted_witness :
  stored ex_blocking ex_results_gap 1 = None ∧
  _read_subresults ex_blocking ex_nodes ex_results_gap [0; 2] None
    = _read_subresults ex_blocking ex_nodes ex_results_gap [0; 1; 2] None ∧
  ∃ evs,
    (sub_solutions ex_blocking ex_nodes ex_results_gap ex_ws ex_takeDict
       ex_store_write 0 [0; 1; 2] 1 [] []).2 = [] ++ evs ∧
    1 ∉ written evs.
Proof.
  destruct (block_without_result_omitted ex_blocking ex_nodes ex_results_gap
              ex_ws ex_takeDict ex_store_write 1 [0; 1; 2] eq_refl) as [H1 H2].
  split; [reflexivity|]. split; [|apply H2].
  destruct (_read_subresults ex_blocking ex_nodes ex_results_gap [0; 1; 2] None)
    as [[bl br]|] eqn:E; [|by vm_compute in E].
  destruct (H1 None bl br E) as [_ H]. exact H.
Defined.

End SubSolutionsExamples.

(** ** The per-block pipeline *)

Module PipelineFacts.
Import Numpy Nifty LoadInput Frameworks MultiscaleInference.

Section PipelineFacts.
Context {V Pre : Type}.
Variable blocking_ : blocking.
Variable halo : list Z.
Variable ds_in : list (list Z).
Variable ds_out : list out_dataset.
Variable mask : option (list (Z * Z) -> list bool).
Variables scale_factors scale_halos : list (list Z).
Variable preprocess : list loaded -> result Pre.
Variable predict : Pre -> result (pdata V).
Variable channel_mapping : list (Z * Z).
Variable channel_accumulation : option (ndarray V -> ndarray V).
Variable _to_uint8 : ndarray V -> ndarray V.
Variable store_write : nat -> list slice -> ndarray V -> result unit.

#[local] Abbreviation load_input :=
  (load_input (V:=V) blocking_ halo ds_in mask scale_factors scale_halos).
#[local] Abbreviation preprocess_impl := (preprocess_impl (V:=V) preprocess).
#[local] Abbreviation predict_impl := (predict_impl predict).
#[local] Abbreviation channel_output_for :=
  (channel_output_for channel_accumulation _to_uint8).
#[local] Abbreviation write_loop :=
  (write_loop channel_accumulation _to_uint8 store_write).
#[local] Abbreviation write_output :=
  (write_output blocking_ ds_out channel_mapping channel_accumulation
                _to_uint8 store_write).
#[local] Abbreviation pipeline :=
  (pipeline blocking_ halo ds_in ds_out mask scale_factors scale_halos
            preprocess predict channel_mapping channel_accumulation
            _to_uint8 store_write).

Lemma stage_events_nil k b : stage_events (V:=V) k b [].
Proof. constructor. Qed.

Lemma stage_events_no_marker k b b' (evs : list (event V)) :
  stage_events k b evs → k ≠ 4%nat → existsb (is_success_of b') evs = false.
Proof.
  intros H Hk. induction H as [|e evs [He _] _ IH]; [done|].
  cbn. rewrite IH, orb_false_r. destruct e; cbn in *; congruence.
Qed.

#[local] Hint Resolve stage_events_nil : core.

Ltac run_M :=
  unfold mbind, M_bind, mret, M_ret, emit, lift; cbn [fst snd].

Lemma load_input_events b t :
  ∃ evs, (load_input b t).2 = t ++ evs ∧ stage_events 0 b evs ∧
         ∀ x, (load_input b t).1 = Ok x → x.1 = b.
Proof.
  unfold MultiscaleInference.load_input. run_M.
  destruct mask as [m|]; [case_decide|];
    try destruct (_load_inputs _ _ _ _ _ _); cbn; rewrite <- ?app_assoc;
    (eexists; split; [reflexivity|]); (split; [by repeat constructor|]);
    by (intros ? ?; simplify_eq).
Qed.

Lemma preprocess_impl_events x t :
  ∃ evs, (preprocess_impl x t).2 = t ++ evs ∧ stage_events 1 x.1 evs ∧
         ∀ y, (preprocess_impl x t).1 = Ok y → y.1 = x.1.
Proof.
  destruct x as [b [data|]]; unfold MultiscaleInference.preprocess_impl; run_M.
  - destruct (preprocess data); cbn; (eexists; split; [reflexivity|]);
      (split; [by repeat constructor|]); by (intros ? ?; simplify_eq).
  - exists []. rewrite app_nil_r. split; [done|]. split; [done|].
    by (intros ? ?; simplify_eq).
Qed.

Lemma predict_impl_events x t :
  ∃ evs, (predict_impl x t).2 = t ++ evs ∧ stage_events 2 x.1 evs ∧
         ∀ y, (predict_impl x t).1 = Ok y → y.1 = x.1.
Proof.
  destruct x as [b [data|]]; unfold MultiscaleInference.predict_impl; run_M.
  - destruct (predict data); cbn; (eexists; split; [reflexivity|]);
      (split; [by repeat constructor|]); by (intros ? ?; simplify_eq).
  - exists []. rewrite app_nil_r. split; [done|]. split; [done|].
    by (intros ? ?; simplify_eq).
Qed.

Lemma write_loop_events dtype_ b bb output k l t :
  ∃ evs, (write_loop dtype_ b bb output k l t).2 = t ++ evs ∧
         stage_events 3 b evs.
Proof.
  revert k t. induction l as [|[dso cm] l IH]; intros k t.
  - exists []. cbn. by rewrite app_nil_r.
  - cbn [MultiscaleInference.write_loop].
    unfold MultiscaleInference.write_channels. run_M.
    destruct (MultiscaleInference.channel_output_for _ _ _ _ _ _ _)
      as [[out_bb co]|]; cbn.
    + destruct (store_write k out_bb co); cbn.
      * destruct (IH (S k) (t ++ [WriteRegion b k out_bb co])) as (evs & -> & H).
        rewrite <- app_assoc. eexists. split; [reflexivity|].
        constructor; [done|exact H].
      * eexists. split; [reflexivity|]. by repeat constructor.
    + exists []. by rewrite app_nil_r.
Qed.

Lemma write_output_events dtype_ x t :
  ∃ evs, (write_output dtype_ x t).2 = t ++ evs ∧ stage_events 3 x.1 evs ∧
         ∀ b, (write_output dtype_ x t).1 = Ok b → b = x.1.
Proof.
  destruct x as [b [output|]]; unfold MultiscaleInference.write_output.
  - run_M. cbn [fst].
    destruct (match output with Arr a => Ok a | _ => Raise AttributeError end)
      as [a|]; cbn; [|exists []; by rewrite app_nil_r].
    assert (Hgo : ∀ t,
      ∃ evs,
        (match crop_to_block blocking_ (block_to_bb (getBlock blocking_ b)) a
         with
         | Ok a0 =>
             match write_loop dtype_ b (block_to_bb (getBlock blocking_ b)) a0
                     0%nat (zip ds_out channel_mapping) t with
             | (Ok _, t') => (Ok b, t')
             | (Raise e, t') => (Raise e, t')
             end
         | Raise e => (Raise e, t)
         end).2 = t ++ evs ∧ stage_events 3 b evs ∧
        ∀ b', (match crop_to_block blocking_
                       (block_to_bb (getBlock blocking_ b)) a with
               | Ok a0 =>
                   match write_loop dtype_ b
                           (block_to_bb (getBlock blocking_ b)) a0
                           0%nat (zip ds_out channel_mapping) t with
                   | (Ok _, t') => (Ok b, t')
                   | (Raise e, t') => (Raise e, t')
                   end
               | Raise e => (Raise e, t)
               end).1 = Ok b' → b' = b).
    { intros t0. destruct (crop_to_block _ _ _) as [a0|]; cbn;
        [|exists []; by rewrite app_nil_r].
      destruct (write_loop_events dtype_ b (block_to_bb (getBlock blocking_ b))
                  a0 0%nat (zip ds_out channel_mapping) t0) as (evs & Hevs & H).
      destruct (write_loop _ _ _ _ _ _ _) as [[[]|e] t1]; cbn in *; subst t1;
        exists evs; (split; [done|]); (split; [done|]); by (intros ? ?; simplify_eq). }
    case_decide; [unfold assert; case_bool_decide|]; cbn;
      try apply Hgo. exists []. by rewrite app_nil_r.
  - run_M. exists []. rewrite app_nil_r. split; [done|]. split; [done|].
    by (intros ? ?; simplify_eq).
Qed.

(** C5.  The events that the pipeline of a block adds to the trace are the
    events of its load, preprocess, compute and write stages, in this
    order, followed by the success marker if and only if the pipeline
    returns.  When it returns, every stage has returned without an
    exception, each one started on the trace that the stage before it left,
    and the marker is the last event, written on the trace that the write
    stage left.  When it raises, one of the first four stages raised that
    exception, no later stage added an event, and the trace has no success
    marker of the block that was not there before. *)
Theorem marker_after_write dtype_ b t :
  ∃ e_load e_pre e_pred e_write : list (event V),
    stage_events 0 b e_load ∧ stage_events 1 b e_pre ∧
    stage_events 2 b e_pred ∧ stage_events 3 b e_write ∧
    existsb (is_success_of b) (e_load ++ e_pre ++ e_pred ++ e_write) = false ∧
    match pipeline dtype_ b t with
    | (Ok n, t') =>
        n = 1 ∧
        t' = t ++ e_load ++ e_pre ++ e_pred ++ e_write ++ [LogBlockSuccess b] ∧
        ∃ x1 x2 x3,
          load_input b t = (Ok x1, t ++ e_load) ∧
          preprocess_impl x1 (t ++ e_load)
            = (Ok x2, t ++ e_load ++ e_pre) ∧
          predict_impl x2 (t ++ e_load ++ e_pre)
            = (Ok x3, t ++ e_load ++ e_pre ++ e_pred) ∧
          write_output dtype_ x3 (t ++ e_load ++ e_pre ++ e_pred)
            = (Ok b, t ++ e_load ++ e_pre ++ e_pred ++ e_write)
    | (Raise e, t') =>
        t' = t ++ e_load ++ e_pre ++ e_pred ++ e_write ∧
        (load_input b t = (Raise e, t') ∧ e_pre = [] ∧ e_pred = [] ∧ e_write = []
         ∨ (∃ x1, load_input b t = (Ok x1, t ++ e_load) ∧
                  preprocess_impl x1 (t ++ e_load) = (Raise e, t')) ∧
           e_pred = [] ∧ e_write = []
         ∨ (∃ x2, predict_impl x2 (t ++ e_load ++ e_pre) = (Raise e, t')) ∧
           e_write = []
         ∨ ∃ x3, write_output dtype_ x3 (t ++ e_load ++ e_pre ++ e_pred)
                 = (Raise e, t'))
    end.
Proof.
  assert (Hno : ∀ e0 e1 e2 e3 : list (event V),
            stage_events 0 b e0 → stage_events 1 b e1 →
            stage_events 2 b e2 → stage_events 3 b e3 →
            existsb (is_success_of b) (e0 ++ e1 ++ e2 ++ e3) = false).
  { intros e0 e1 e2 e3 H0 H1 H2 H3. rewrite !existsb_app.
    by rewrite (stage_events_no_marker _ _ _ _ H0),
      (stage_events_no_marker _ _ _ _ H1), (stage_events_no_marker _ _ _ _ H2),
      (stage_events_no_marker _ _ _ _ H3). }
  unfold MultiscaleInference.pipeline. unfold mbind, M_bind.
  destruct (load_input_events b t) as (e0 & H0 & S0 & B0).
  destruct (load_input b t) as [[x1|e] t1] eqn:E1; cbn in H0; subst t1.
  2:{ exists e0, [], [], []. do 4 (split; [by auto|]). split; [by apply Hno|].
      rewrite !app_nil_r. eauto 10. }
  specialize (B0 x1 eq_refl).
  destruct (preprocess_impl_events x1 (t ++ e0)) as (e1 & H1 & S1 & B1).
  rewrite B0 in S1.
  destruct (preprocess_impl x1 (t ++ e0)) as [[x2|e] t2] eqn:E2;
    cbn in H1; subst t2; rewrite <- ?app_assoc in *.
  2:{ exists e0, e1, [], []. do 4 (split; [by auto|]). split; [by apply Hno|].
      rewrite !app_nil_r. eauto 10. }
  specialize (B1 x2 eq_refl). rewrite B0 in B1.
  destruct (predict_impl_events x2 (t ++ e0 ++ e1)) as (e2 & H2 & S2 & B2).
  rewrite B1 in S2.
  destruct (predict_impl x2 (t ++ e0 ++ e1)) as [[x3|e] t3] eqn:E3;
    cbn in H2; subst t3; rewrite <- ?app_assoc in *.
  2:{ exists e0, e1, e2, []. do 4 (split; [by auto|]). split; [by apply Hno|].
      rewrite !app_nil_r. eauto 10. }
  specialize (B2 x3 eq_refl). rewrite B1 in B2.
  destruct (write_output_events dtype_ x3 (t ++ e0 ++ e1 ++ e2))
    as (e3 & H3 & S3 & B3).
  rewrite B2 in S3.
  destruct (write_output dtype_ x3 (t ++ e0 ++ e1 ++ e2)) as [[b'|e] t4] eqn:E4;
    cbn in H3; subst t4; rewrite <- ?app_assoc in *.
  2:{ exists e0, e1, e2, e3. do 4 (split; [by auto|]). split; [by apply Hno|].
      eauto 10. }
  specialize (B3 b' eq_refl). rewrite B2 in B3. subst b'.
  exists e0, e1, e2, e3. do 5 (split; [by auto|]).
  unfold log2, mbind, M_bind, emit, mret, M_ret. cbn.
  rewrite <- !app_assoc. split; [done|]. split; [done|]. eauto 10.
Qed.

(** *** The whole job *)

Ltac raised :=
  cbn; rewrite <- ?app_assoc; eexists; split; [reflexivity|]; right; by eexists.

Lemma pipeline_trace dtype_ b t :
  ∃ evs, (pipeline dtype_ b t).2 = t ++ evs ∧
         ((pipeline dtype_ b t).1 = Ok 1 ∧
          existsb (is_success_of b) evs = true
          ∨ ∃ e, (pipeline dtype_ b t).1 = Raise e).
Proof.
  unfold MultiscaleInference.pipeline. unfold mbind, M_bind.
  destruct (load_input_events b t) as (e0 & H0 & _ & B0).
  destruct (load_input b t) as [[x1|e] t1]; cbn in H0; subst t1; [|by raised].
  specialize (B0 x1 eq_refl).
  destruct (preprocess_impl_events x1 (t ++ e0)) as (e1 & H1 & _ & B1).
  destruct (preprocess_impl x1 (t ++ e0)) as [[x2|e] t2];
    cbn in H1; subst t2; rewrite <- ?app_assoc in *; [|by raised].
  specialize (B1 x2 eq_refl). rewrite B0 in B1.
  destruct (predict_impl_events x2 (t ++ e0 ++ e1)) as (e2 & H2 & _ & B2).
  destruct (predict_impl x2 (t ++ e0 ++ e1)) as [[x3|e] t3];
    cbn in H2; subst t3; rewrite <- ?app_assoc in *; [|by raised].
  specialize (B2 x3 eq_refl). rewrite B1 in B2.
  destruct (write_output_events dtype_ x3 (t ++ e0 ++ e1 ++ e2))
    as (e3 & H3 & _ & B3).
  destruct (write_output dtype_ x3 (t ++ e0 ++ e1 ++ e2)) as [[b'|e] t4];
    cbn in H3; subst t4; rewrite <- ?app_assoc in *; [|by raised].
  specialize (B3 b' eq_refl). rewrite B2 in B3. subst b'.
  unfold log2, mbind, M_bind, emit, mret, M_ret. cbn.
  rewrite <- !app_assoc. eexists. split; [reflexivity|]. left.
  split; [done|]. rewrite !existsb_app. cbn.
  rewrite bool_decide_true by done. by rewrite !orb_true_r.
Qed.

(** When [_run_inference] returns, every block of the list has its success
    marker: the reconciliation finds no failed block. *)
Lemma run_inference_all_marked block_list t t' :
  _run_inference blocking_ halo ds_in ds_out mask scale_factors scale_halos
                 preprocess predict channel_mapping channel_accumulation
                 _to_uint8 store_write block_list t = (Ok tt, t') →
  failed_blocks block_list t' = [].
Proof.
  unfold _run_inference. run_M.
  destruct (out_dtype ds_out) as [dtype_|]; [|discriminate].
  assert (Hm : ∀ l t0 r t1,
            mapM (pipeline dtype_) l t0 = (Ok r, t1) →
            ∃ evs, t1 = t0 ++ evs ∧
                   Forall (fun b => existsb (is_success_of b) evs = true) l).
  { induction l as [|b l IH]; intros t0 r t1; cbn [mapM]; run_M.
    - intros [= <- <-]. exists []. by rewrite app_nil_r.
    - destruct (pipeline_trace dtype_ b t0) as (evs & Hevs & Hb).
      destruct (pipeline dtype_ b t0) as [[n|e] t2]; cbn in Hevs; subst t2;
        [|discriminate].
      destruct Hb as [[_ Hb]|[e [=]]].
      destruct (mapM _ l (t0 ++ evs)) as [[r'|e] t3] eqn:E; [|discriminate].
      intros [= <- <-]. apply IH in E as (evs' & -> & Hl).
      exists (evs ++ evs'). rewrite app_assoc. split; [done|].
      constructor.
      + by rewrite existsb_app, Hb.
      + eapply Forall_impl; [exact Hl|]. intros b' Hb'. cbn in Hb'.
        by rewrite existsb_app, Hb', orb_true_r. }
  destruct (mapM _ block_list t) as [[r|e] t1] eqn:E; [|discriminate].
  intros [= <-]. apply Hm in E as (evs & -> & Hl).
  unfold failed_blocks. induction Hl as [|b l Hb _ IH]; [done|].
  rewrite filter_cons, decide_False; [exact IH|].
  by rewrite !existsb_app, Hb, orb_true_r.
Qed.

(** *** Blocks outside the mask *)

Lemma filter_true_all_false (l : list bool) :
  Forall (fun v => v = false) l → filter (fun v => v = true) l = [].
Proof.
  induction 1 as [|v l -> _ IH]; [done|].
  rewrite filter_cons, decide_False by done. exact IH.
Qed.

(** C2 (as amended).  When a mask is configured and the region of a block
    in it is false everywhere, the pipeline of the block logs the start,
    reads the mask and logs the block as successful: nothing else happens,
    in particular [_load_inputs], the preprocessor, the predictor and the
    volume store are not called.  There is no marker for a skipped block
    other than the success marker; with it, the reconciliation of the stage
    does not count the block among the failed ones. *)
Theorem masked_block_skipped dtype_ b m t :
  mask = Some m →
  Forall (fun v => v = false) (m (block_to_bb (getBlock blocking_ b))) →
  load_input b t = (Ok (b, None), t ++ [LogStart b; ReadMask b]) ∧
  pipeline dtype_ b t
    = (Ok 1, t ++ [LogStart b; ReadMask b; LogBlockSuccess b]) ∧
  ∀ block_list t_after,
    b ∉ failed_blocks block_list
          (t ++ [LogStart b; ReadMask b; LogBlockSuccess b] ++ t_after).
Proof.
  intros Hm Hall.
  assert (Hload : load_input b t = (Ok (b, None), t ++ [LogStart b; ReadMask b])).
  { unfold MultiscaleInference.load_input. rewrite Hm. run_M.
    rewrite filter_true_all_false by done. cbn [length].
    rewrite decide_True by done. cbn beta. by rewrite <- app_assoc. }
  split; [done|]. split.
  - unfold MultiscaleInference.pipeline. unfold mbind at 1, M_bind at 1.
    rewrite Hload. run_M. cbn. unfold log2. run_M. by rewrite <- app_assoc.
  - intros block_list t_after. unfold failed_blocks.
    rewrite list_elem_of_filter, !existsb_app. cbn.
    rewrite bool_decide_true by done. rewrite !orb_true_r. by intros [? _].
Qed.

(** *** Predictions and output datasets *)

Lemma write_loop_ok dtype_ b bb output k l t t' :
  write_loop dtype_ b bb output k l t = (Ok tt, t') →
  ∃ outs,
    Forall2 (fun p out => channel_output_for dtype_ bb output p.1 p.2 = Ok out)
            l outs ∧
    t' = t ++ imap (fun i out => WriteRegion b (k + i) out.1 out.2) outs.
Proof.
  revert k t. induction l as [|[dso cm] l IH]; intros k t.
  - intros [= <-]. exists []. cbn. by rewrite app_nil_r.
  - cbn [MultiscaleInference.write_loop].
    unfold MultiscaleInference.write_channels. run_M.
    destruct (MultiscaleInference.channel_output_for _ _ _ _ _ _ _)
      as [[out_bb co]|] eqn:E; cbn; [|discriminate].
    destruct (store_write k out_bb co); cbn; [|discriminate].
    intros H. apply IH in H as (outs & Houts & ->).
    exists ((out_bb, co) :: outs). split; [by constructor|].
    rewrite <- app_assoc. cbn. rewrite Nat.add_0_r. do 2 f_equal.
    apply imap_ext. intros i x _. cbn. do 2 f_equal. lia.
Qed.

Lemma getitem_ndim (a a' : ndarray V) bb :
  getitem a bb = Ok a' → ndim a' = ndim a.
Proof.
  unfold getitem, getitem_shape, ndim.
  case_decide; cbn; [discriminate|]. intros [= <-]. cbn.
  rewrite length_app, length_fmap, length_zip_with, length_drop. lia.
Qed.

Lemma crop_to_block_ndim bb (a a' : ndarray V) :
  crop_to_block blocking_ bb a = Ok a' → ndim a' = ndim a.
Proof.
  unfold crop_to_block. case_decide; [by intros [= <-]|]. apply getitem_ndim.
Qed.

(** C8 (as amended).  A predictor with a plain halo that gets a list from
    its model keeps the first array only, squeezed and cropped by the halo.
    In the write stage a prediction without channel axis (three
    dimensions) needs exactly one output dataset: with another number of
    output datasets the stage raises an [AssertionError] and writes nothing.
    A prediction with a channel axis (four dimensions) serves every output
    dataset with the channels [[chan_start, chan_stop)] of that dataset's
    own channel mapping, so that the outputs get different arrays unless
    their mappings name the same channels. *)
Theorem single_prediction_outputs :
  (∀ (model : pdata V → pdata V) h input o rest,
     check_data input = Ok tt → model input = Lst (o :: rest) →
     __call__ model None (Halo h) input
       = (out ← crop (squeeze o) h; Ok (Arr out))) ∧
  (∀ dtype_ b a t,
     length (shape a) = 3%nat → length ds_out ≠ 1%nat →
     write_output dtype_ (b, Some (Arr a)) t = (Raise AssertionError, t)) ∧
  (∀ dtype_ b a t b' t',
     ndim a = 4%nat →
     write_output dtype_ (b, Some (Arr a)) t = (Ok b', t') →
     ∃ output outs,
       crop_to_block blocking_ (block_to_bb (getBlock blocking_ b)) a
         = Ok output ∧
       t' = t ++ imap (fun i out => WriteRegion b i out.1 out.2) outs ∧
       Forall2 (fun p out =>
                  ∃ sl, getitem output [Slice p.2.1 p.2.2] = Ok sl ∧
                        out.2 = finish_channel channel_accumulation _to_uint8
                                  dtype_ (squeeze sl))
               (zip ds_out channel_mapping) outs).
Proof.
  split; [|split].
  - intros model h input o rest Hc Hm.
    unfold __call__, apply_model. rewrite Hc, Hm. reflexivity.
  - intros dtype_ b a t H3 Hout.
    unfold MultiscaleInference.write_output. run_M.
    rewrite decide_True by done. unfold assert.
    by rewrite bool_decide_false.
  - intros dtype_ b a t b' t' H4.
    unfold MultiscaleInference.write_output. run_M.
    unfold ndim in H4. rewrite decide_False by lia. cbn.
    destruct (crop_to_block _ _ _) as [output|] eqn:Hcrop; cbn; [|discriminate].
    destruct (write_loop _ _ _ _ _ _ _) as [[[]|e] t1] eqn:Hloop; cbn;
      [|discriminate].
    intros [= <- <-]. apply write_loop_ok in Hloop as (outs & Houts & ->).
    exists output, outs. split; [done|]. split; [done|].
    apply crop_to_block_ndim in Hcrop. fold (ndim a) in H4.
    eapply Forall2_impl; [exact Houts|].
    intros [dso [cs ce]] [out_bb co]. cbn.
    unfold MultiscaleInference.channel_output_for.
    destruct (if decide (dso_ndim dso = 3%nat) then _ else _); cbn;
      [|discriminate].
    rewrite decide_True by congruence.
    destruct (getitem output _) as [sl|]; cbn; [|discriminate].
    intros [= <- <-]. eauto.
Qed.

End PipelineFacts.

End PipelineFacts.

Module PipelineExamples.
Import Numpy Nifty LoadInput Frameworks MultiscaleInference PipelineFacts.

(** C2, the claim as it stands: a block whose mask region is false
    everywhere is not recorded as skipped; the pipeline writes the same
    success marker for it as for a block that was processed. *)
Lemma masked_block_logged_as_success :
  ex_pipeline ex_one_output ex_mask ex_predict3 1 []
    = (Ok 1, [LogStart 1; ReadMask 1; LogBlockSuccess 1]) ∧
  existsb (is_success_of 1)
          (ex_pipeline ex_one_output ex_mask ex_predict3 1 []).2 = true.
Proof. split; reflexivity. Qed.

Lemma masked_block_skipped_witness :
  ex_pipeline ex_one_output ex_mask ex_predict3 1 []
    = (Ok 1, [] ++ [LogStart 1; ReadMask 1; LogBlockSuccess 1]) ∧
  1 ∉ failed_blocks (V:=Z) [0; 1]
        ([] ++ [LogStart 1; ReadMask 1; LogBlockSuccess 1] ++ []).
Proof.
  destruct (masked_block_skipped ex_blocking [0; 0; 0] ex_ds_in ex_one_output
              ex_mask [[1; 1; 1]] [[0; 0; 0]] ex_preprocess ex_predict3
              ex_channel_mapping None (fun a => a) ex_store_write float32 1
              (fun _ => replicate 8 false) [] eq_refl)
    as (_ & H2 & H3).
  - repeat constructor.
  - split; [exact H2|apply H3].
Defined.

(** C8, the claim as it stands: with two output datasets declared, a single
    prediction without channel axis is written to neither of them (the
    write stage raises), and a single prediction with two channels gives the
    two datasets different arrays. *)
Lemma single_array_not_served_identically :
  ex_pipeline ex_two_outputs None ex_predict3 0 []
    = (Raise AssertionError,
       [LogStart 0; CallLoadInputs 0; CallPreprocess 0; CallPredict 0]) ∧
  ex_pipeline ex_two_outputs None ex_predict4 0 []
    = (Ok 1,
       [LogStart 0; CallLoadInputs 0; CallPreprocess 0; CallPredict 0;
        WriteRegion 0 0 [Slice 0 2; Slice 0 2; Slice 0 2]
          (NDArray [2; 2; 2] [0; 1; 2; 3; 4; 5; 6; 7]);
        WriteRegion 0 1 [Slice 0 2; Slice 0 2; Slice 0 2]
          (NDArray [2; 2; 2] [8; 9; 10; 11; 12; 13; 14; 15]);
        LogBlockSuccess 0]).
Proof. split; reflexivity. Qed.

Lemma single_prediction_outputs_witness :
  write_output ex_blocking ex_two_outputs ex_channel_mapping None (fun a => a)
               ex_store_write float32 (0, Some (Arr ex_prediction3)) []
    = (Raise AssertionError, []) ∧
  ∃ out0 out1,
    (write_output ex_blocking ex_two_outputs ex_channel_mapping None
                  (fun a => a) ex_store_write float32
                  (0, Some (Arr ex_prediction4)) []).2
      = [] ++ imap (fun i out => WriteRegion 0 i out.1 out.2) [out0; out1] ∧
    out0.2 = NDArray [2; 2; 2] [0; 1; 2; 3; 4; 5; 6; 7] ∧
    out1.2 = NDArray [2; 2; 2] [8; 9; 10; 11; 12; 13; 14; 15].
Proof.
  destruct (single_prediction_outputs ex_blocking ex_two_outputs
              ex_channel_mapping None (fun a => a) ex_store_write)
    as (_ & Hb & Hc).
  split; [by apply Hb|].
  destruct (Hc float32 0 ex_prediction4 [] 0
              [WriteRegion 0 0 [Slice 0 2; Slice 0 2; Slice 0 2]
                 (NDArray [2; 2; 2] [0; 1; 2; 3; 4; 5; 6; 7]);
               WriteRegion 0 1 [Slice 0 2; Slice 0 2; Slice 0 2]
                 (NDArray [2; 2; 2] [8; 9; 10; 11; 12; 13; 14; 15])]
              eq_refl eq_refl)
    as (output & outs & Hcrop & Ht & Houts).
  injection Hcrop as <-.
  destruct outs as [|out0 [|out1 [|? ?]]]; try discriminate Ht.
  exists out0, out1. split; [by rewrite <- Ht|].
  apply Forall2_cons in Houts as [(sl0 & Hsl0 & H0) Houts].
  apply Forall2_cons in Houts as [(sl1 & Hsl1 & H1) _].
  injection Hsl0 as <-. injection Hsl1 as <-. split; [exact H0|exact H1].
Defined.

(** The pipeline of a block inside the mask-free example. *)
Lemma pipeline_of_unmasked_block :
  ex_pipeline ex_one_output None ex_predict3 1 []
    = (Ok 1,
       [LogStart 1; CallLoadInputs 1; CallPreprocess 1; CallPredict 1;
        WriteRegion 1 0 [Slice 0 2; Slice 0 2; Slice 2 4] ex_prediction3;
        LogBlockSuccess 1]).
Proof. reflexivity. Qed.

End PipelineExamples.

(** ** Preprocessing *)

Module FrameworksFacts.
Import Numpy Frameworks.

Section PreprocessingFacts.
Context {V F : Type}.
Variable astype_float32 : V -> F.
Variables fadd fsub fdiv : F -> F -> F.
Variable is_zero : F -> bool.
Variables np_mean np_std np_min np_max : list F -> F.
Variable eps_default : F.

#[local] Abbreviation normalize :=
  (normalize fadd fsub fdiv is_zero np_mean np_std).
#[local] Abbreviation preprocess_torch :=
  (preprocess_torch astype_float32 fadd fsub fdiv is_zero np_mean np_std
                    np_min np_max eps_default).
#[local] Abbreviation cast := (cast astype_float32).
#[local] Abbreviation nonzero := (nonzero is_zero).

Lemma nonzero_app l1 l2 : nonzero (l1 ++ l2) = nonzero l1 ++ nonzero l2.
Proof. apply filter_app. Qed.

Lemma nonzero_insert_zero l1 l2 z :
  is_zero z = true → nonzero (l1 ++ z :: l2) = nonzero (l1 ++ l2).
Proof.
  intros Hz. rewrite !nonzero_app. f_equal. unfold Frameworks.nonzero.
  rewrite filter_cons, decide_False; [done|]. by rewrite Hz.
Qed.

(** C9.  Without explicit mean and standard deviation, [normalize] takes
    both statistics of the voxels that are not zero (all of them, in the
    order of the array, and no others) and maps every voxel [x] of the
    array, the zero ones included, to [(x - mean) / (std + eps)]; zero
    voxels put into the array do not change the statistics.  Explicit
    statistics are used as given.  [preprocess_torch] with its default
    arguments is this normalization of the array cast to [float32], applied
    to the array or to every array of a list; it is a function of its
    arguments alone. *)
Theorem normalize_nonzero_statistics :
  (∀ (d : ndarray F) eps,
     normalize d eps None None true
       = NDArray (shape d)
           ((fun x => fdiv (fsub x (np_mean (nonzero (data d))))
                           (fadd (np_std (nonzero (data d))) eps))
              <$> data d)) ∧
  (∀ (l : list F) x, x ∈ nonzero l ↔ x ∈ l ∧ is_zero x = false) ∧
  (∀ l, sublist (nonzero l) l) ∧
  (∀ l1 l2 z, is_zero z = true →
     np_mean (nonzero (l1 ++ z :: l2)) = np_mean (nonzero (l1 ++ l2)) ∧
     np_std (nonzero (l1 ++ z :: l2)) = np_std (nonzero (l1 ++ l2))) ∧
  (∀ (d : ndarray F) eps (i : nat) x,
     data d !! i = Some x →
     data (normalize d eps None None true) !! i
       = Some (fdiv (fsub x (np_mean (nonzero (data d))))
                    (fadd (np_std (nonzero (data d))) eps))) ∧
  (∀ (d : ndarray F) eps m s,
     normalize d eps (Some m) (Some s) true
       = NDArray (shape d) ((fun x => fdiv (fsub x m) (fadd s eps)) <$> data d)) ∧
  (∀ a : ndarray V,
     preprocess_torch (Arr a) None None true
       = Ok (Arr (normalize (cast a) eps_default None None true))) ∧
  (∀ l : list (ndarray V),
     preprocess_torch (Lst l) None None true
       = Ok (Lst ((fun a => normalize (cast a) eps_default None None true)
                    <$> l))).
Proof.
  split; [done|]. split.
  { intros l x. unfold Frameworks.nonzero. rewrite list_elem_of_filter. tauto. }
  split; [intros l; apply sublist_filter|]. split.
  { intros l1 l2 z Hz. by rewrite nonzero_insert_zero. }
  split; [|by repeat split].
  intros d eps i x Hx. unfold Frameworks.normalize. cbn [data].
  by rewrite list_lookup_fmap, Hx.
Qed.

End PreprocessingFacts.

End FrameworksFacts.

(** ** The background size filter *)

Module BackgroundSizeFilterFacts.
Import Numpy BackgroundSizeFilter.

Lemma sum_u64_from acc l :
  foldl (fun acc x => u64 (acc + x)) (u64 acc) l
  = u64 (acc + SubSolutions.sum_Z l).
Proof.
  revert acc. induction l as [|x l IH]; intros acc; cbn.
  - by rewrite Z.add_0_r.
  - rewrite IH, <- Z.add_assoc. apply SubSolutionsFacts.u64_add_l.
Qed.

Lemma sum_u64_mod l : sum_u64 l = u64 (SubSolutions.sum_Z l).
Proof. unfold sum_u64. apply (sum_u64_from 0). Qed.

Lemma sum_Z_nonneg l : Forall (fun x => 0 ≤ x) l → 0 ≤ SubSolutions.sum_Z l.
Proof. unfold SubSolutions.sum_Z. induction 1; cbn; lia. Qed.

Lemma sum_Z_zero l :
  Forall (fun x => 0 ≤ x) l →
  SubSolutions.sum_Z l = 0 ↔ Forall (fun x => x = 0) l.
Proof.
  induction 1 as [|x l Hx Hl IH]; [by split|].
  pose proof (sum_Z_nonneg l Hl).
  change (SubSolutions.sum_Z (x :: l)) with (x + SubSolutions.sum_Z l). split.
  - intros Hs. constructor; [lia|]. apply IH. lia.
  - intros Hall. apply Forall_cons in Hall as [-> Hall].
    apply IH in Hall. lia.
Qed.

Lemma count_true_zero (mask : list bool) :
  count_true mask = 0 ↔ Forall (fun m => m = false) mask.
Proof.
  unfold count_true. induction mask as [|[|] mask IH].
  - by split.
  - rewrite filter_cons, decide_True by done. split; [cbn; lia|].
    intros H. apply Forall_cons in H as [? _]. done.
  - rewrite filter_cons, decide_False by done. rewrite IH. split.
    + by constructor.
    + intros H. by apply Forall_cons in H as [_ ?].
Qed.

Lemma discard_zip discard_ids labels :
  zip_with (fun l (m : bool) => if m then 0 else l) labels
           ((fun l => bool_decide (l ∈ discard_ids)) <$> labels)
  = discard discard_ids labels.
Proof.
  unfold discard. induction labels as [|l labels IH]; [done|].
  cbn. rewrite IH. f_equal. by case_bool_decide; case_decide.
Qed.

Lemma discard_none discard_ids labels :
  Forall (fun m => m = false)
         ((fun l => bool_decide (l ∈ discard_ids)) <$> labels) →
  discard discard_ids labels = labels.
Proof.
  unfold discard. induction labels as [|l labels IH]; [done|].
  cbn. intros H. apply Forall_cons in H as [Hl H].
  rewrite IH by done. f_equal. apply bool_decide_eq_false in Hl.
  by rewrite decide_False.
Qed.

(** What [apply_block] does as long as the sum of the labels of the block
    stays below [2^64]: nothing but the log entries when all labels are 0,
    and otherwise the write of the labels without the ids to discard. *)
Lemma apply_block_without_wrap block_id ds_in ds_out discard_ids st :
  let labels := volumes st ds_in block_id in
  Forall (fun l => 0 ≤ l) labels →
  SubSolutions.sum_Z labels < 2 ^ 64 →
  apply_block block_id ds_in ds_out discard_ids st
  = if decide (Forall (fun l => l = 0) labels)
    then fu_log (LogBlockSuccess block_id) (fu_log (LogStart block_id) st)
    else fu_log (LogBlockSuccess block_id)
           (write_region ds_out block_id (discard discard_ids labels)
              (fu_log (LogStart block_id) st)).
Proof.
  intros labels Hnn Hlt. unfold apply_block. cbn [volumes fu_log].
  fold labels. rewrite sum_u64_mod. unfold u64.
  pose proof (sum_Z_nonneg _ Hnn).
  rewrite Z.mod_small by lia.
  destruct (decide (Forall (fun l => l = 0) labels)) as [Hz|Hz].
  - rewrite decide_True; [done|]. by apply (sum_Z_zero _ Hnn).
  - rewrite (decide_False (P := SubSolutions.sum_Z labels = 0));
      [|intros H0; by apply Hz, (sum_Z_zero _ Hnn)].
    case_decide as Hc.
    + apply count_true_zero in Hc. by rewrite discard_none.
    + by rewrite discard_zip.
Qed.

(** C10.  On a block whose labels are twice [2^63], the sum of the labels
    wraps around to 0: [apply_block] takes the block for one that holds
    only the ignore label, writes nothing to the output dataset and logs the
    block as successful, although the labels are not 0 and none of them is
    to be discarded. *)
Theorem apply_block_sum_wraps :
  volumes ex_state ex_in 0 = [2 ^ 63; 2 ^ 63] ∧
  sum_u64 (volumes ex_state ex_in 0) = 0 ∧
  discard [7] (volumes ex_state ex_in 0) = [2 ^ 63; 2 ^ 63] ∧
  volumes (apply_block 0 ex_in ex_out [7] ex_state) ex_out 0 = [0; 0] ∧
  log (apply_block 0 ex_in ex_out [7] ex_state)
    = [LogStart 0; LogBlockSuccess 0].
Proof. repeat split; by vm_compute. Qed.

End BackgroundSizeFilterFacts.

(** ** Global ids across the blocks *)

Module GlobalIdFacts.
Import Numpy Nifty SubSolutions SubSolutionsFacts.

Lemma foldl_max_ge x l :
  x ≤ foldl Z.max x l ∧ Forall (fun r => r ≤ foldl Z.max x l) l.
Proof.
  revert x. induction l as [|y l IH]; intros x; cbn; [split; [lia|constructor]|].
  destruct (IH (Z.max x y)) as [H1 H2]. split; [lia|].
  constructor; [lia|done].
Qed.

Lemma id_range_bound l r : r ∈ l → r < id_range l.
Proof.
  unfold id_range. destruct l as [|x l]; [by inversion 1|]. cbn.
  destruct (foldl_max_ge x l) as [H1 H2]. intros [->|Hin]%elem_of_cons; [lia|].
  rewrite Forall_forall in H2. specialize (H2 r Hin). lia.
Qed.

Lemma id_range_nonneg l : Forall (fun r => 0 ≤ r) l → 0 ≤ id_range l.
Proof.
  unfold id_range. destruct l as [|x l]; [done|]. cbn. intros [Hx _]%Forall_cons.
  destruct (foldl_max_ge x l) as [H1 _]. lia.
Qed.

Lemma sum_Z_app l1 l2 : sum_Z (l1 ++ l2) = sum_Z l1 + sum_Z l2.
Proof. unfold sum_Z. induction l1; cbn; lia. Qed.

Lemma sum_Z_take_le (l : list Z) (i j : nat) x :
  Forall (fun r => 0 ≤ r) l → (i < j)%nat → l !! i = Some x →
  0 ≤ sum_Z (take i l) ∧ sum_Z (take i l) + x ≤ sum_Z (take j l) ∧
  sum_Z (take j l) ≤ sum_Z l.
Proof.
  intros Hl Hij Hx.
  pose proof (BackgroundSizeFilterFacts.sum_Z_nonneg _ (Forall_take _ i _ Hl)).
  pose proof (BackgroundSizeFilterFacts.sum_Z_nonneg _ (Forall_drop _ j _ Hl)).
  assert (E1 : sum_Z l = sum_Z (take j l) + sum_Z (drop j l)).
  { by rewrite <- sum_Z_app, take_drop. }
  assert (Hx' : take j l !! i = Some x) by (rewrite lookup_take_lt; done).
  pose proof (take_drop_middle _ _ _ Hx') as E2.
  rewrite take_take, Nat.min_l in E2 by lia.
  assert (E3 : sum_Z (take j l)
               = sum_Z (take i l) + (x + sum_Z (drop (S i) (take j l)))).
  { rewrite <- E2 at 1. by rewrite sum_Z_app. }
  pose proof (BackgroundSizeFilterFacts.sum_Z_nonneg _ (Forall_drop _ (S i) _ (Forall_take _ j _ Hl))).
  lia.
Qed.

Section ReadSubresults.
Variable blocking_ : blocking.
Variable loadNodes : Z -> list Z.
Variable read_chunk : list Z -> option (list Z).

#[local] Abbreviation read_subres := (read_subres blocking_ loadNodes read_chunk).
#[local] Abbreviation _read_subresults :=
  (_read_subresults blocking_ loadNodes read_chunk).
#[local] Abbreviation stored := (stored blocking_ read_chunk).
#[local] Abbreviation subres_of := (subres_of blocking_ read_chunk).
#[local] Abbreviation non_skipped := (non_skipped blocking_ read_chunk).
#[local] Abbreviation relabelled := (relabelled loadNodes).

(** X1.  The global ids of different blocks do not meet.  When the stored
    sub-results hold no negative value and the id ranges of the blocks that
    have a sub-result add up to less than [2^64], the ids that
    [_read_subresults] gives to the nodes other than 0 of a block are all
    smaller than the ids it gives to the nodes other than 0 of any block
    that comes later in the list, and all of them lie in [[0, 2^64)]. *)
Theorem global_ids_increase_with_blocks block_list initial_node_labeling bl br :
  (∀ chunk subres, read_chunk chunk = Some subres →
                   Forall (fun r => 0 ≤ r) subres) →
  sum_Z ((fun b => id_range (subres_of b)) <$> non_skipped block_list) < 2 ^ 64 →
  _read_subresults block_list initial_node_labeling = Ok (bl, br) →
  ∀ (i j : nat) di dj ni nj vi vj,
    (i < j)%nat → br !! i = Some di → br !! j = Some dj →
    di !! ni = Some vi → dj !! nj = Some vj → ni ≠ 0 → nj ≠ 0 →
    0 ≤ vi ∧ vi < vj ∧ vj < 2 ^ 64.
Proof.
  intros Hnn Hsum H. apply read_subresults_spec in H as (-> & Hlen & H).
  set (bl := non_skipped block_list) in *.
  set (R := (fun b => id_range (subres_of b)) <$> bl) in *.
  assert (HR : Forall (fun r => 0 ≤ r) R).
  { subst R. apply Forall_fmap, Forall_forall. intros b _. cbn.
    apply id_range_nonneg. unfold SubSolutions.subres_of.
    destruct (stored b) as [s|] eqn:E; [|constructor]. exact (Hnn _ _ E). }
  intros i j di dj ni nj vi vj Hij Hdi Hdj Hvi Hvj Hni Hnj.
  assert (Hj : (j < length bl)%nat) by (rewrite <- Hlen; by eapply lookup_lt_Some).
  destruct (lookup_lt_is_Some_2 bl i) as [bi Hbi]; [lia|].
  destruct (lookup_lt_is_Some_2 bl j) as [bj Hbj]; [lia|].
  destruct (H i bi Hbi) as (si & nodesi & Hsi & _ & _ & Hdi').
  destruct (H j bj Hbj) as (sj & nodesj & Hsj & _ & _ & Hdj').
  rewrite Hdi in Hdi'. injection Hdi' as ->.
  rewrite Hdj in Hdj'. injection Hdj' as ->.
  apply result_dict_lookup_Some in Hvi as (ki & ri & _ & Hri & ->).
  apply result_dict_lookup_Some in Hvj as (kj & rj & _ & Hrj & ->).
  apply list_lookup_fmap_Some in Hri as (ri0 & -> & Hri0).
  apply list_lookup_fmap_Some in Hrj as (rj0 & -> & Hrj0).
  unfold entry. rewrite !decide_True by done.
  rewrite !fmap_take. fold R.
  assert (HRi : R !! i = Some (id_range si)).
  { subst R. rewrite list_lookup_fmap, Hbi. cbn. unfold SubSolutions.subres_of.
    by rewrite Hsi. }
  assert (HRj : R !! j = Some (id_range sj)).
  { subst R. rewrite list_lookup_fmap, Hbj. cbn. unfold SubSolutions.subres_of.
    by rewrite Hsj. }
  destruct (sum_Z_take_le R i j _ HR Hij HRi) as (H0 & H1 & H2).
  destruct (sum_Z_take_le R j (S j) _ HR ltac:(lia) HRj) as (H3 & H4 & H5).
  assert (Hi0 : 0 ≤ ri0 < id_range si).
  { apply list_elem_of_lookup_2 in Hri0. split; [|by apply id_range_bound].
    pose proof (Hnn _ _ Hsi) as Hf. rewrite Forall_forall in Hf. by apply Hf. }
  assert (Hj0 : 0 ≤ rj0 < id_range sj).
  { apply list_elem_of_lookup_2 in Hrj0. split; [|by apply id_range_bound].
    pose proof (Hnn _ _ Hsj) as Hf. rewrite Forall_forall in Hf. by apply Hf. }
  unfold u64. rewrite !(Z.mod_small (sum_Z _)) by lia.
  rewrite !Z.mod_small by lia. lia.
Qed.


Lemma read_subres_none b :
  Forall (fun f => f ≠ 0) (blockShape blocking_) →
  stored b = None → 0 ∈ loadNodes b → read_subres b = Ok None.
Proof.
  intros Hbs Hst H0. unfold SubSolutions.read_subres.
  rewrite LoadInputFacts.floordiv_zip_ok by done. cbn [mbind result_bind].
  fold (chunk_of blocking_ b). fold (stored b). rewrite Hst.
  unfold assert. by rewrite bool_decide_true.
Qed.

Lemma mapR_all_none block_list :
  Forall (fun b => read_subres b = Ok None) block_list →
  mapR read_subres block_list = Ok ((fun _ => None) <$> block_list).
Proof. induction 1 as [|b l Hb _ IH]; cbn; [done|]. by rewrite Hb, IH. Qed.

Lemma omap_all_none {A B C} (g : A → C) (l : list B) :
  omap (fun res : option A => g <$> res) ((fun _ => None) <$> l) = [].
Proof. by induction l. Qed.

(** X2.  When no block of the list has a stored sub-result (every block,
    if any, holds the ignore label), [_read_subresults] does not return an
    empty result: the array of offsets is empty and [block_offsets[0] = 0]
    raises an [IndexError].  This is so for the empty block list, too. *)
Theorem no_stored_subresult_is_index_error block_list initial_node_labeling :
  Forall (fun f => f ≠ 0) (blockShape blocking_) →
  Forall (fun b => stored b = None ∧ 0 ∈ loadNodes b) block_list →
  _read_subresults block_list initial_node_labeling = Raise IndexError.
Proof.
  intros Hbs Hall. unfold SubSolutions._read_subresults.
  rewrite mapR_all_none.
  2:{ eapply Forall_impl; [exact Hall|]. intros b [? ?]. by apply read_subres_none. }
  cbn [mbind result_bind].
  rewrite !omap_all_none. reflexivity.
Qed.

Lemma mapR_app_raise {A B} (f : A → result B) l1 x l2 e :
  Forall (fun a => ∃ r, f a = Ok r) l1 → f x = Raise e →
  mapR f (l1 ++ x :: l2) = Raise e.
Proof.
  intros H Hx. induction H as [|a l [r Ha] _ IH]; cbn; [by rewrite Hx|].
  by rewrite Ha, IH.
Qed.

(** X3.  [read_subres] accepts a block without a stored sub-result only if
    0 is among its nodes, and a block with a sub-result only if it has as
    many nodes as results.  The first block of the list that breaks one of
    the two rules makes the whole of [_read_subresults] raise an
    [AssertionError], whatever comes after it in the list. *)
Theorem block_without_result_needs_node_zero b l1 l2 initial_node_labeling :
  Forall (fun f => f ≠ 0) (blockShape blocking_) →
  Forall (fun x => ∃ r, read_subres x = Ok r) l1 →
  stored b = None ∧ 0 ∉ loadNodes b
  ∨ (∃ subres, stored b = Some subres ∧ length (loadNodes b) ≠ length subres) →
  _read_subresults (l1 ++ b :: l2) initial_node_labeling = Raise AssertionError.
Proof.
  intros Hbs Hl1 Hb. unfold SubSolutions._read_subresults.
  rewrite (mapR_app_raise _ _ _ _ AssertionError); [done|done|].
  unfold SubSolutions.read_subres.
  rewrite LoadInputFacts.floordiv_zip_ok by done. cbn [mbind result_bind].
  fold (chunk_of blocking_ b). fold (stored b).
  destruct Hb as [[-> H0]|(subres & -> & Hlen)]; unfold assert.
  - by rewrite bool_decide_false.
  - by rewrite bool_decide_false.
Qed.

Lemma foldl_enter_last l d k r (j : nat) :
  l !! j = Some (k, r) → k ∉ (drop (S j) l).*1 →
  foldl enter d l !! k = Some (entry k r).
Proof.
  revert d j. induction l as [|[n r'] l IH]; intros d j; [done|].
  destruct j as [|j]; cbn [foldl lookup list_lookup drop].
  - intros [= -> ->] Hnot. rewrite drop_0 in Hnot.
    destruct (foldl enter (enter d (k, r)) l !! k) as [v|] eqn:E.
    + apply foldl_enter_lookup_Some in E as [E|(j' & r'' & Hj' & _)].
      * rewrite enter_lookup, decide_True in E by done. done.
      * exfalso. apply Hnot. apply list_elem_of_fmap. exists (k, r'').
        split; [done|]. by eapply list_elem_of_lookup_2.
    + exfalso. assert (is_Some (foldl enter (enter d (k, r)) l !! k)) as [? ?].
      { apply foldl_enter_keeps. rewrite enter_lookup, decide_True by done. eauto. }
      congruence.
  - intros Hj Hnot. by apply (IH _ j).
Qed.

Lemma result_dict_keys bnodes bres n :
  length bnodes = length bres →
  is_Some (result_dict bnodes bres !! n) ↔ n ∈ bnodes.
Proof.
  intros Hlen. split.
  - intros [v Hv]. apply result_dict_lookup_Some in Hv as (j & r & Hj & _).
    by eapply list_elem_of_lookup_2.
  - intros [j Hj]%list_elem_of_lookup.
    destruct (lookup_lt_is_Some_2 bres j) as [r Hr].
    { rewrite <- Hlen. by eapply lookup_lt_Some. }
    by eapply result_dict_lookup_is_Some.
Qed.

(** X4.  The dictionary that [_read_subresults] builds for a block has
    exactly the nodes of the block (under the initial node labeling, if
    there is one) as its keys.  Where a node occurs several times, as it
    does under a node labeling that merges nodes, the dictionary keeps the
    result of its last occurrence: that result plus the offset of the
    block, or 0 for node 0. *)
Theorem dictionary_keys_and_last_occurrence block_list initial_node_labeling
    bl br (i : nat) b d :
  _read_subresults block_list initial_node_labeling = Ok (bl, br) →
  bl !! i = Some b → br !! i = Some d →
  ∃ nodes subres,
    relabelled initial_node_labeling b = Ok nodes ∧
    stored b = Some subres ∧ length nodes = length subres ∧
    (∀ n, is_Some (d !! n) ↔ n ∈ nodes) ∧
    (∀ (j : nat) n r,
       nodes !! j = Some n → subres !! j = Some r → n ∉ drop (S j) nodes →
       d !! n = Some (if decide (n ≠ 0)
                      then u64 (r + u64 (sum_Z ((fun b => id_range (subres_of b))
                                                  <$> take i bl)))
                      else 0)).
Proof.
  intros H Hb Hd. apply read_subresults_spec in H as (_ & _ & H).
  destruct (H i b Hb) as (subres & nodes & Hst & Hrel & Hlen & Hd').
  rewrite Hd in Hd'. injection Hd' as ->.
  exists nodes, subres. do 3 (split; [done|]). split.
  - intros n. apply result_dict_keys. by rewrite length_fmap.
  - intros j n r Hn Hr Hlast. rewrite result_dict_fold.
    erewrite (foldl_enter_last _ _ n _ j); [reflexivity| |].
    + apply lookup_zip_with_Some. eexists _, _. split; [reflexivity|].
      split; [done|]. by rewrite list_lookup_fmap, Hr.
    + intros Hin. apply Hlast.
      apply list_elem_of_fmap in Hin as ([n' r'] & -> & Hin).
      apply list_elem_of_lookup in Hin as [k Hk].
      rewrite lookup_drop in Hk.
      apply lookup_zip_with_Some in Hk as (x & y & [= <- <-] & Hx & _).
      apply list_elem_of_lookup. exists k. by rewrite lookup_drop.
Qed.


Section WriteTasks.
Variable ws : Z -> list Z.
Variable takeDict : gmap Z Z -> list Z -> result (list Z).
Variable store_write : Z -> list Z -> result unit.

#[local] Abbreviation _write_block_res :=
  (_write_block_res ws takeDict store_write).
#[local] Abbreviation sub_solutions :=
  (sub_solutions blocking_ loadNodes read_chunk ws takeDict store_write).

Lemma write_block_res_cases b d t :
  (∃ e, takeDict d (ws b) = Raise e ∧
        _write_block_res b d t = (Raise e, t ++ [LogStart b]))
  ∨ (∃ seg e, takeDict d (ws b) = Ok seg ∧ store_write b seg = Raise e ∧
        _write_block_res b d t = (Raise e, t ++ [LogStart b; WriteSeg b seg]))
  ∨ (∃ seg, takeDict d (ws b) = Ok seg ∧ store_write b seg = Ok tt ∧
        _write_block_res b d t
        = (Ok tt, t ++ [LogStart b; WriteSeg b seg; LogBlockSuccess b])).
Proof.
  unfold SubSolutions._write_block_res, mbind, M_bind, emit, lift. cbn.
  destruct (takeDict d (ws b)) as [seg|e]; [|left; eauto].
  right. destruct (store_write b seg) as [[]|e] eqn:Es; rewrite <- !app_assoc; cbn.
  - right. eauto.
  - left. eauto.
Qed.

(** Where a trace has the success marker of a block, it has before it a
    write of the block that the store accepted. *)
Lemma accepted_write_before_marker_app (e1 e2 : list event) :
  (∀ (k : nat) b, e1 !! k = Some (LogBlockSuccess b) →
     ∃ (k' : nat) seg d, (k' < k)%nat ∧ e1 !! k' = Some (WriteSeg b seg) ∧
       takeDict d (ws b) = Ok seg ∧ store_write b seg = Ok tt) →
  (∀ (k : nat) b, e2 !! k = Some (LogBlockSuccess b) →
     ∃ (k' : nat) seg d, (k' < k)%nat ∧ e2 !! k' = Some (WriteSeg b seg) ∧
       takeDict d (ws b) = Ok seg ∧ store_write b seg = Ok tt) →
  ∀ (k : nat) b, (e1 ++ e2) !! k = Some (LogBlockSuccess b) →
     ∃ (k' : nat) seg d, (k' < k)%nat ∧ (e1 ++ e2) !! k' = Some (WriteSeg b seg) ∧
       takeDict d (ws b) = Ok seg ∧ store_write b seg = Ok tt.
Proof.
  intros H1 H2 k b Hk. apply lookup_app_Some in Hk as [Hk|[Hle Hk]].
  - destruct (H1 k b Hk) as (k' & seg & d & ? & Hk' & ? & ?).
    exists k', seg, d. split; [done|]. split; [|done].
    by apply lookup_app_l_Some.
  - destruct (H2 _ b Hk) as (k' & seg & d & ? & Hk' & ? & ?).
    exists (length e1 + k')%nat, seg, d. split; [lia|]. split; [|done].
    rewrite lookup_app_r by lia. by replace (length e1 + k' - length e1)%nat with k' by lia.
Qed.

Lemma run_tasks_events (l : list (Z * gmap Z Z)) t :
  ∃ evs,
    (run_tasks ((fun '(block_id, block_res) =>
                   _write_block_res block_id block_res) <$> l) t).2 = t ++ evs ∧
    (∀ (k : nat) b, evs !! k = Some (LogBlockSuccess b) →
       ∃ (k' : nat) seg d, (k' < k)%nat ∧ evs !! k' = Some (WriteSeg b seg) ∧
         takeDict d (ws b) = Ok seg ∧ store_write b seg = Ok tt) ∧
    (∀ b, b ∈ l.*1 → LogStart b ∈ evs) ∧
    (∀ j, LogJobSuccess j ∉ evs) ∧
    ((run_tasks ((fun '(block_id, block_res) =>
                   _write_block_res block_id block_res) <$> l) t).1 = Ok tt →
     ∀ b, b ∈ l.*1 → LogBlockSuccess b ∈ evs).
Proof.
  revert t. induction l as [|[b0 d0] l IH]; intros t.
  - exists []. cbn. rewrite app_nil_r. split; [done|].
    split; [by intros k b [=]|]. split; [by intros b Hb; inversion Hb|].
    split; [by intros j Hj; inversion Hj|]. by intros _ b Hb; inversion Hb.
  - cbn [fmap list_fmap run_tasks].
    assert (∃ r ev0, _write_block_res b0 d0 t = (r, t ++ ev0) ∧
              (∀ (k : nat) b, ev0 !! k = Some (LogBlockSuccess b) →
                 ∃ (k' : nat) seg d, (k' < k)%nat ∧ ev0 !! k' = Some (WriteSeg b seg) ∧
                   takeDict d (ws b) = Ok seg ∧ store_write b seg = Ok tt) ∧
              LogStart b0 ∈ ev0 ∧ (∀ j, LogJobSuccess j ∉ ev0) ∧
              (r = Ok tt → LogBlockSuccess b0 ∈ ev0)) as (r & ev0 & E & Q0 & S0 & J0 & B0).
    { destruct (write_block_res_cases b0 d0 t)
        as [(e & _ & ->)|[(seg & e & _ & _ & ->)|(seg & Hd & Hs & ->)]];
        eexists _, _; (split; [reflexivity|]).
      - split; [by intros [|[|k]] b [=]|]. split; [by left|].
        split; [|done]. intros j Hj. apply list_elem_of_singleton in Hj. done.
      - split; [by intros [|[|[|k]]] b [=]|]. split; [by left|].
        split; [|done]. intros j Hj.
        apply elem_of_cons in Hj as [?|Hj]; [done|].
        apply list_elem_of_singleton in Hj. done.
      - split.
        { intros [|[|[|[|k]]]] b [=]. subst b. exists 1%nat, seg, d0.
          split; [lia|]. done. }
        split; [by left|]. split.
        { intros j Hj. repeat (apply elem_of_cons in Hj as [?|Hj]; [done|]).
          by inversion Hj. }
        intros _. right. right. by left. }
    rewrite E. destruct (IH (t ++ ev0)) as (evs & Hevs & Q & St & J & B).
    exists (ev0 ++ evs).
    assert (Ht : (match r with
                  | Ok _ => run_tasks ((fun '(block_id, block_res) =>
                        _write_block_res block_id block_res) <$> l) (t ++ ev0)
                  | Raise e => (Raise e, (run_tasks ((fun '(block_id, block_res) =>
                        _write_block_res block_id block_res) <$> l) (t ++ ev0)).2)
                  end).2 = t ++ ev0 ++ evs).
    { destruct r; cbn; by rewrite Hevs, app_assoc. }
    split; [exact Ht|]. split; [by apply accepted_write_before_marker_app|].
    split.
    { intros b Hb. cbn in Hb. apply elem_of_cons in Hb as [->|Hb];
        apply elem_of_app; [by left|right; by apply St]. }
    split.
    { intros j Hj. apply elem_of_app in Hj as [Hj|Hj]; [by eapply J0|by eapply J]. }
    intros Hok b Hb. destruct r as [[]|e]; [|discriminate Hok].
    cbn in Hb. apply elem_of_cons in Hb as [->|Hb]; apply elem_of_app.
    + left. by apply B0.
    + right. by apply B.
Qed.


(** X5.  In the trace of [sub_solutions] the success marker of a block
    comes only after a write of that block which the store accepted, with a
    segmentation that [nt.takeDict] returned for the watershed labels of the
    block. *)
Theorem block_marker_only_after_accepted_write job_id block_list scale
    node_labeling t :
  ∃ evs,
    (sub_solutions job_id block_list scale node_labeling t).2 = t ++ evs ∧
    ∀ (k : nat) b, evs !! k = Some (LogBlockSuccess b) →
      ∃ (k' : nat) seg d, (k' < k)%nat ∧ evs !! k' = Some (WriteSeg b seg) ∧
        takeDict d (ws b) = Ok seg ∧ store_write b seg = Ok tt.
Proof.
  unfold SubSolutions.sub_solutions.
  unfold mbind at 1, M_bind at 1, lift at 1.
  destruct (SubSolutions._read_subresults _ _ _ _ _) as [[bl br]|e].
  - unfold mbind, M_bind.
    destruct (run_tasks_events (zip bl br) t) as (evs & Hevs & Q & _).
    change (map ?f (zip bl br)) with (f <$> zip bl br).
    destruct (run_tasks _ t) as [[[]|e] t1]; cbn in Hevs; subst t1; cbn.
    + unfold emit. cbn. rewrite <- app_assoc. eexists. split; [reflexivity|].
      apply accepted_write_before_marker_app; [exact Q|]. by intros [|k] b [=].
    + by exists evs.
  - exists []. cbn. rewrite app_nil_r. split; [done|]. by intros k b [=].
Qed.

(** X6.  [sub_solutions] submits a task for every block that
    [_read_subresults] returns, and every one of them is started, also
    after another one has raised.  The job is logged as successful if and
    only if the function returns, and then every returned block has its
    success marker.  When [_read_subresults] raises, [sub_solutions]
    raises the same exception: no block is started, nothing is written and
    nothing is marked as successful. *)
Theorem every_block_is_attempted job_id block_list scale node_labeling t :
  match _read_subresults block_list
          (if decide (scale > 1) then Some node_labeling else None) with
  | Ok (bl, br) =>
      ∃ r evs,
        sub_solutions job_id block_list scale node_labeling t = (r, t ++ evs) ∧
        (∀ b, b ∈ bl → LogStart b ∈ evs) ∧
        (r = Ok tt ↔ LogJobSuccess job_id ∈ evs) ∧
        (r = Ok tt → ∀ b, b ∈ bl → LogBlockSuccess b ∈ evs)
  | Raise e =>
      sub_solutions job_id block_list scale node_labeling t = (Raise e, t)
  end.
Proof.
  unfold SubSolutions.sub_solutions.
  unfold mbind at 1, M_bind at 1, lift at 1.
  destruct (SubSolutions._read_subresults _ _ _ _ _) as [[bl br]|e] eqn:E;
    [|done].
  apply read_subresults_spec in E as (_ & Hlen & _).
  assert (Hfst : (zip bl br).*1 = bl) by (apply fst_zip; lia).
  unfold mbind, M_bind.
  destruct (run_tasks_events (zip bl br) t) as (evs & Hevs & _ & St & J & B).
  rewrite Hfst in St, B.
  change (map ?f (zip bl br)) with (f <$> zip bl br).
  destruct (run_tasks _ t) as [[[]|e] t1]; cbn in Hevs; subst t1; cbn.
  - unfold emit. cbn. rewrite <- app_assoc. eexists _, _. split; [reflexivity|].
    split; [intros b Hb; apply elem_of_app; left; by apply St|].
    split; [split; [intros _; apply elem_of_app; right; by left|done]|].
    intros _ b Hb. apply elem_of_app. left. apply B; [done|done].
  - exists (Raise e), evs. split; [done|]. split; [exact St|].
    split; [|done]. split; [done|]. intros Hj. by apply J in Hj.
Qed.

End WriteTasks.
End ReadSubresults.

Lemma global_ids_increase_with_blocks_witness :
  ∃ d0 d1 d2 v0 v2,
    _read_subresults ex_blocking ex_nodes ex_results [0; 1; 2] None
      = Ok ([0; 1; 2], [d0; d1; d2]) ∧
    d0 !! 13 = Some v0 ∧ d2 !! 31 = Some v2 ∧
    0 ≤ v0 ∧ v0 < v2 ∧ v2 < 2 ^ 64.
Proof.
  destruct (_read_subresults ex_blocking ex_nodes ex_results [0; 1; 2] None)
    as [[bl br]|] eqn:E; [|by vm_compute in E].
  destruct br as [|d0 [|d1 [|d2 [|? ?]]]]; try (by vm_compute in E).
  pose proof E as E'. vm_compute in E'. injection E' as <- <- <- <-.
  eexists _, _, _, 3, 5. split; [reflexivity|].
  split; [by vm_compute|]. split; [by vm_compute|].
  eapply (global_ids_increase_with_blocks _ _ _ _ _ _ _ _ _ E 0%nat 2%nat
            _ _ 13 31 3 5); [lia|reflexivity|reflexivity| | |done|done];
    by vm_compute.
  Unshelve.
  - intros chunk subres H. unfold ex_results in H.
    repeat case_match; simplify_eq; repeat constructor; lia.
  - by vm_compute.
Defined.

Lemma no_stored_subresult_is_index_error_witness :
  _read_subresults ex_blocking ex_nodes_coarse (fun _ => None) [0; 1] None
  = Raise IndexError.
Proof.
  apply no_stored_subresult_is_index_error.
  - repeat constructor. done.
  - repeat constructor.
Defined.

Lemma block_without_result_needs_node_zero_witness :
  _read_subresults ex_blocking ex_nodes (fun _ => None) ([] ++ 2 :: [1]) None
  = Raise AssertionError.
Proof.
  apply block_without_result_needs_node_zero.
  - repeat constructor. done.
  - constructor.
  - left. split; [reflexivity|]. apply (bool_decide_unpack _). by vm_compute.
Defined.

Lemma dictionary_keys_and_last_occurrence_witness :
  ∃ d0 d1,
    _read_subresults ex_blocking ex_nodes_coarse ex_results_coarse [0; 1]
      (Some ex_labeling) = Ok ([0; 1], [d0; d1]) ∧
    (is_Some (d1 !! 7) ↔ 7 ∈ [0; 7; 7; 0]) ∧ d1 !! 7 = Some 8.
Proof.
  destruct (_read_subresults ex_blocking ex_nodes_coarse ex_results_coarse
              [0; 1] (Some ex_labeling)) as [[bl br]|] eqn:E;
    [|by vm_compute in E].
  destruct br as [|d0 [|d1 [|? ?]]]; try (by vm_compute in E).
  pose proof E as E'. vm_compute in E'. injection E' as <- <- <-.
  eexists _, _. split; [reflexivity|].
  destruct (dictionary_keys_and_last_occurrence _ _ _ _ _ _ _ 1%nat 1 _ E
              eq_refl eq_refl)
    as (nodes & subres & Hrel & Hst & _ & Hkeys & Hlast).
  vm_compute in Hrel, Hst. injection Hrel as <-. injection Hst as <-.
  split; [apply Hkeys|].
  rewrite (Hlast 2%nat 7 3); [by vm_compute|reflexivity|reflexivity|].
  apply (bool_decide_unpack _). by vm_compute.
Defined.

End GlobalIdFacts.

(** ** The scale levels of the input *)

Module ScaleFacts.
Import Numpy LoadInput LoadInputFacts.

Lemma floordiv_zip_zero xs sf (i : nat) :
  sf !! i = Some 0 → (i < length xs)%nat →
  floordiv_zip xs sf = Raise ZeroDivisionError.
Proof.
  unfold floordiv_zip. revert sf i.
  induction xs as [|x xs IH]; intros sf i Hi Hlt; cbn in Hlt; [lia|].
  destruct sf as [|f sf]; [by destruct i|].
  change (zip (x :: xs) (f :: sf)) with ((x, f) :: zip xs sf).
  cbn [mapR fst snd]. destruct i as [|i].
  - injection Hi as ->. unfold floordiv. by rewrite decide_True.
  - destruct (floordiv x f) as [q|e] eqn:E; cbn [mbind result_bind].
    + rewrite (IH sf i); [done|done|lia].
    + unfold floordiv in E. case_decide; congruence.
Qed.

(** X7.  A scale factor with a zero entry on an axis that the block offset
    has makes [_load_input] raise a [ZeroDivisionError], before the dataset
    is read. *)
Theorem zero_scale_factor_raises shape offset block_shape halo sf sh (i : nat) :
  sf !! i = Some 0 → (i < length offset)%nat →
  _load_input shape offset block_shape halo sf sh = Raise ZeroDivisionError.
Proof.
  intros Hi Hlt. unfold _load_input, window.
  rewrite (floordiv_zip_zero offset sf i); [reflexivity|done|done].
Qed.

Lemma window_inv offset block_shape halo sf sh starts stops :
  window offset block_shape halo sf sh = Ok (starts, stops) →
  starts = map (fun '(off, ha, s) => off - ha - s)
             (zip3 (zip_with Z.div offset sf) (zip_with Z.div halo sf) sh) ∧
  stops = map (fun '(off, bs, ha, s) => off + bs + ha + s)
            (zip4 (zip_with Z.div offset sf) (zip_with Z.div block_shape sf)
                  (zip_with Z.div halo sf) sh).
Proof.
  unfold window.
  destruct (floordiv_zip offset sf) as [o|] eqn:Eo; [|discriminate].
  destruct (floordiv_zip block_shape sf) as [b|] eqn:Eb; [|discriminate].
  destruct (floordiv_zip halo sf) as [h|] eqn:Eh; [|discriminate].
  apply SubSolutionsFacts.floordiv_zip_inv in Eo as ->.
  apply SubSolutionsFacts.floordiv_zip_inv in Eb as ->.
  apply SubSolutionsFacts.floordiv_zip_inv in Eh as ->.
  cbn. by intros [= <- <-].
Qed.

(** X8.  The array that [_load_input] returns for a scale level of a
    three-dimensional dataset has the extent of the requested window on
    every axis, [bs // f + 2 * (h // f) + 2 * s] for block shape [bs], halo
    [h], scale factor [f] and scale halo [s], as soon as the window meets
    the dataset on every axis; the region read is the window cut to the
    dataset. *)
Theorem coarse_input_shape vshape offset block_shape halo sf sh starts stops :
  window offset block_shape halo sf sh = Ok (starts, stops) →
  length vshape = 3%nat → length starts = 3%nat → length stops = 3%nat →
  Forall (fun n => 0 < n) vshape →
  Forall2 (fun s n => s < n) starts vshape →
  Forall (fun t => 0 < t) stops →
  Forall2 (fun s t => s < t) starts stops →
  ∃ r, _load_input vshape offset block_shape halo sf sh = Ok r ∧
    bb r = zip (map (Z.max 0) starts) (zip_with Z.min vshape stops) ∧
    data_shape r = zip_with Z.sub stops starts ∧
    ∀ (i : nat) off bs h f s,
      offset !! i = Some off → block_shape !! i = Some bs →
      halo !! i = Some h → sf !! i = Some f → sh !! i = Some s →
      data_shape r !! i = Some (bs / f + 2 * (h / f) + 2 * s).
Proof.
  intros Hw Hn Hs Ht Hpos Hsn Htp Hst.
  destruct (window_inv _ _ _ _ _ _ _ Hw) as [Es Et].
  assert (Hi : ∀ (i : nat) off bs h f s,
            offset !! i = Some off → block_shape !! i = Some bs →
            halo !! i = Some h → sf !! i = Some f → sh !! i = Some s →
            zip_with Z.sub stops starts !! i
            = Some (bs / f + 2 * (h / f) + 2 * s)).
  { intros i off bs h f s Ho Hb Hh Hf Hsh. rewrite lookup_zip_with, Es, Et.
    rewrite !list_lookup_fmap. unfold zip4, zip3.
    rewrite !lookup_zip_with, Ho, Hb, Hh, Hf, Hsh. cbn. f_equal. lia. }
  clear Es Et.
  list3 vshape Hn. list3 starts Hs. list3 stops Ht.
  repeat match goal with
         | H : Forall2 _ (_ :: _) (_ :: _) |- _ => apply Forall2_cons in H; destruct H
         | H : Forall _ (_ :: _) |- _ => apply Forall_cons in H; destruct H
         end.
  destruct (clamp3 vshape0 vshape1 vshape2 _ _ _ _ _ _ _ _ _ _ _ Hw)
    as (r & Hr & Hbb & Hshape & Hpad); try lia.
  exists r. split; [exact Hr|]. split; [exact Hbb|]. split; [exact Hshape|].
  rewrite Hshape. exact Hi.
Qed.

Lemma mapR_Forall2_iff {A B} (f : A → result B) l ys :
  mapR f l = Ok ys ↔ Forall2 (fun x y => f x = Ok y) l ys.
Proof.
  split; [apply SubSolutionsFacts.mapR_Forall2|].
  induction 1 as [|x y l ys Hx _ IH]; cbn; [done|]. by rewrite Hx, IH.
Qed.

(** X9.  [_load_inputs] returns one array per scale level, the [i]-th one
    loaded from the [i]-th dataset with the [i]-th scale factor and the
    [i]-th scale halo, for as many levels as the shortest of the three
    lists has: datasets, factors or halos beyond that are ignored.  It
    returns if and only if every one of these loads returns. *)
Theorem load_inputs_levelwise shapes offset block_shape halo scale_factors
    scale_halos rs :
  _load_inputs shapes offset block_shape halo scale_factors scale_halos = Ok rs
  ↔ length rs = (length shapes `min` (length scale_factors
                                        `min` length scale_halos))%nat ∧
    ∀ (i : nat) shape sf sh,
      shapes !! i = Some shape → scale_factors !! i = Some sf →
      scale_halos !! i = Some sh →
      ∃ r, rs !! i = Some r ∧
           _load_input shape offset block_shape halo sf sh = Ok r.
Proof.
  unfold _load_inputs. rewrite mapR_Forall2_iff, Forall2_lookup. unfold zip3.
  split.
  - intros H.
    assert (Hlen : length rs = length (zip (zip shapes scale_factors) scale_halos)).
    { apply Nat.le_antisymm.
      - destruct (decide (length rs ≤ length (zip (zip shapes scale_factors) scale_halos))%nat); [done|].
        specialize (H (length (zip (zip shapes scale_factors) scale_halos))).
        rewrite (lookup_ge_None_2 (zip _ _)) in H by lia.
        destruct (lookup_lt_is_Some_2 rs (length (zip (zip shapes scale_factors) scale_halos))) as [r Hr]; [lia|].
        rewrite Hr in H. inversion H.
      - destruct (decide (length (zip (zip shapes scale_factors) scale_halos) ≤ length rs)%nat); [done|].
        specialize (H (length rs)).
        rewrite (lookup_ge_None_2 rs) in H by lia.
        destruct (lookup_lt_is_Some_2 (zip (zip shapes scale_factors) scale_halos) (length rs)) as [r Hr]; [lia|].
        rewrite Hr in H. inversion H. }
    split; [rewrite Hlen, !length_zip_with; lia|].
    intros i shape sf sh H1 H2 H3. specialize (H i).
    rewrite !lookup_zip_with, H1, H2, H3 in H. cbn in H.
    inversion H as [r ? Hr|]; subst. eauto.
  - intros [Hlen H] i.
    destruct (zip (zip shapes scale_factors) scale_halos !! i) as [[[shape sf] sh]|] eqn:E.
    + apply lookup_zip_with_Some in E as (p & sh' & [= <- <-] & E & H3).
      apply lookup_zip_with_Some in E as (shape' & sf' & [= <- <-] & H1 & H2).
      destruct (H i _ _ _ H1 H2 H3) as (r & -> & Hr). by constructor.
    + rewrite lookup_ge_None_2; [constructor|].
      apply lookup_ge_None_1 in E. rewrite !length_zip_with in E. lia.
Qed.

Lemma coarse_input_shape_witness :
  ∃ r, _load_input [10; 10; 10] [0; 10; 10] [10; 10; 10] [4; 4; 4] [2; 2; 2]
                   [1; 1; 1] = Ok r ∧
       bb r = [(0, 8); (2, 10); (2, 10)] ∧ data_shape r = [11; 11; 11] ∧
       data_shape r !! 0%nat = Some (10 / 2 + 2 * (4 / 2) + 2 * 1).
Proof.
  destruct (coarse_input_shape [10; 10; 10] [0; 10; 10] [10; 10; 10] [4; 4; 4]
              [2; 2; 2] [1; 1; 1] [-3; 2; 2] [8; 13; 13])
    as (r & Hr & Hbb & Hs & Hi); try reflexivity; try (repeat constructor; lia).
  exists r. split; [exact Hr|]. split; [exact Hbb|]. split; [exact Hs|].
  by apply (Hi 0%nat 0 10 4 2 1).
Defined.

Lemma zero_scale_factor_raises_witness :
  _load_input [20; 20; 20] [0; 0; 0] [10; 10; 10] [2; 2; 2] [1; 0; 1] [0; 0; 0]
  = Raise ZeroDivisionError.
Proof. apply (zero_scale_factor_raises _ _ _ _ _ _ 1%nat); [reflexivity|cbn; lia]. Defined.

End ScaleFacts.

(** ** Cropping and preprocessing *)

Module PredicterFacts.
Import Numpy Frameworks LoadInputFacts.

Section Predicter.
Context {V : Type}.

Lemma crop_axes (block_shape halo : list Z) :
  Forall (fun bs => 0 ≤ bs) block_shape → Forall (fun h => 0 ≤ h) halo →
  length block_shape = length halo →
  map (fun '(n, s) => slice_extent n s)
      (zip (zip_with (fun bs h => bs + 2 * h) block_shape halo)
           (map (fun '(ha, sh) => Slice ha (sh - ha))
                (zip halo (zip_with (fun bs h => bs + 2 * h) block_shape halo))))
  = block_shape.
Proof.
  intros Hbs. revert halo. induction Hbs as [|bs l Hb _ IH]; intros [|h hs] Hh Hlen;
    try discriminate; [done|].
  apply Forall_cons in Hh as [Hh0 Hh]. cbn [zip_with zip map].
  rewrite IH by (done || by injection Hlen). f_equal.
  cbn. rewrite slice_len_in by lia. lia.
Qed.

(** X10.  [PytorchPredicter.crop] undoes the halo of [_load_input]: an
    output that has the shape of the padded input, [block_shape + 2 * halo]
    on the three spatial axes, is cropped to the block shape.  An output
    with a channel axis in front keeps all its channels. *)
Theorem crop_gives_block_shape (out : ndarray V) (block_shape halo : list Z) :
  length block_shape = 3%nat → length halo = 3%nat →
  Forall (fun bs => 0 ≤ bs) block_shape → Forall (fun h => 0 ≤ h) halo →
  (shape out = zip_with (fun bs h => bs + 2 * h) block_shape halo →
   ∃ a, crop out halo = Ok a ∧ shape a = block_shape) ∧
  (∀ c, shape out = c :: zip_with (fun bs h => bs + 2 * h) block_shape halo →
   ∃ a, crop out halo = Ok a ∧ shape a = c :: block_shape).
Proof.
  intros Hb Hh Hbs Hhalo.
  assert (Hz : length (zip_with (fun bs h => bs + 2 * h) block_shape halo) = 3%nat)
    by (rewrite length_zip_with; lia).
  split.
  - intros Hs.
    assert (Hnd : ndim out = 3%nat) by (unfold ndim; by rewrite Hs).
    unfold crop. rewrite (decide_True (P := ndim out = 3%nat)) by done.
    rewrite (decide_False (P := ndim out = 4%nat)) by lia.
    unfold getitem, getitem_shape. rewrite Hs.
    rewrite !length_map, !length_zip_with, Hb, Hh. cbn [Nat.min].
    rewrite decide_False by lia. cbn [mbind result_bind].
    eexists. split; [reflexivity|]. cbn [shape].
    rewrite crop_axes by (done || lia).
    by rewrite drop_ge, app_nil_r by lia.
  - intros c Hs.
    assert (Hnd : ndim out = 4%nat) by (unfold ndim; rewrite Hs; cbn; lia).
    unfold crop. rewrite (decide_False (P := ndim out = 3%nat)) by lia.
    rewrite (decide_True (P := ndim out = 4%nat)) by done.
    unfold getitem, getitem_shape. rewrite Hs. cbn [length tail].
    rewrite !length_map, !length_zip_with, Hb, Hh. cbn [Nat.min].
    rewrite decide_False by lia. cbn [mbind result_bind].
    eexists. split; [reflexivity|]. cbn [shape zip zip_with map slice_extent].
    rewrite crop_axes by (done || lia). cbn [drop].
    by rewrite drop_ge, app_nil_r by lia.
Qed.


(** X11.  A predictor with one halo per output scale (a nested halo), on
    input that passes [check_data].  When the model returns a list, the
    number of its outputs must be the number of halos, or the call raises an
    [AssertionError]; when the call returns, it returns as many arrays as
    the model did, the [i]-th output cropped by the [i]-th halo.  When the
    model returns a single array, of three or four dimensions once
    squeezed, the call raises a [TypeError]. *)
Theorem multiscale_halo_crops_each_output (model : pdata V → pdata V)
    (input : pdata V) (hs : list (list Z)) :
  check_data input = Ok tt →
  (∀ outs, model input = Lst outs → length hs ≠ length outs →
     __call__ model None (MultiscaleHalo hs) input = Raise AssertionError) ∧
  (∀ outs res, model input = Lst outs →
     __call__ model None (MultiscaleHalo hs) input = Ok res →
     ∃ cropped, res = Lst cropped ∧ length cropped = length outs ∧
       ∀ (i : nat) o h, outs !! i = Some o → hs !! i = Some h →
         ∃ a, cropped !! i = Some a ∧ crop (squeeze o) h = Ok a) ∧
  (∀ out, model input = Arr out → hs ≠ [] →
     ndim (squeeze out) = 3%nat ∨ ndim (squeeze out) = 4%nat →
     __call__ model None (MultiscaleHalo hs) input = Raise TypeError).
Proof.
  intros Hc. unfold __call__, apply_model. rewrite Hc. cbn [mbind result_bind].
  split; [|split].
  - intros outs -> Hlen. cbn [mbind result_bind]. unfold assert.
    rewrite length_fmap. by rewrite bool_decide_false.
  - intros outs res ->. cbn [mbind result_bind]. unfold assert.
    rewrite length_fmap. case_bool_decide as Hlen; [|discriminate].
    cbn [mbind result_bind].
    destruct (mapR _ _) as [cropped|] eqn:E; [|discriminate].
    cbn [mbind result_bind]. intros [= <-]. exists cropped. split; [done|].
    apply SubSolutionsFacts.mapR_Forall2 in E.
    pose proof (Forall2_length _ _ _ E) as Hl.
    rewrite length_zip_with, length_fmap in Hl. split; [lia|].
    intros i o h Ho Hh.
    destruct (Forall2_lookup_l _ _ _ i (squeeze o, h) E) as (a & Ha & Hcrop).
    { apply lookup_zip_with_Some. exists (squeeze o), h.
      split; [done|]. split; [by rewrite list_lookup_fmap, Ho|done]. }
    eauto.
  - intros out -> Hhs Hnd. cbn [mbind result_bind].
    destruct hs as [|h0 hs']; [done|].
    destruct (decide (ndim (squeeze out) = 3%nat)) as [H3|H3].
    + unfold ndim in H3. destruct (shape (squeeze out)) as [|n l]; [done|]. done.
    + destruct Hnd as [?|H4]; [done|]. unfold ndim in H4.
      destruct (shape (squeeze out)) as [|n [|n' l]]; done.
Qed.

End Predicter.

Section PreprocessingShapes.
Context {V F : Type}.
Variable astype_float32 : V -> F.
Variables fadd fsub fdiv : F -> F -> F.
Variable is_zero : F -> bool.
Variables np_mean np_std np_min np_max : list F -> F.
Variable eps_default : F.

#[local] Abbreviation preprocess_torch :=
  (preprocess_torch astype_float32 fadd fsub fdiv is_zero np_mean np_std
                    np_min np_max eps_default).


End PreprocessingShapes.
Lemma crop_gives_block_shape_witness :
  (∃ a, crop (NDArray [6; 6; 4] (replicate 144 0)) [2; 2; 1] = Ok a
        ∧ shape a = [2; 2; 2]) ∧
  (∃ a, crop (NDArray [3; 6; 6; 4] (replicate 432 0)) [2; 2; 1] = Ok a
        ∧ shape a = [3; 2; 2; 2]).
Proof.
  destruct (crop_gives_block_shape (NDArray [6; 6; 4] (replicate 144 0))
              [2; 2; 2] [2; 2; 1]) as [H3 _];
    [reflexivity|reflexivity|repeat constructor; lia..|].
  destruct (crop_gives_block_shape (NDArray [3; 6; 6; 4] (replicate 432 0))
              [2; 2; 2] [2; 2; 1]) as [_ H4];
    [reflexivity|reflexivity|repeat constructor; lia..|].
  split; [by apply H3|by apply (H4 3)].
Defined.

Lemma multiscale_halo_crops_each_output_witness :
  __call__ (fun _ => Lst [NDArray [4; 4; 4] (replicate 64 0);
                          NDArray [2; 2; 2] (replicate 8 0)])
           None (MultiscaleHalo [[1; 1; 1]])
           (Arr (NDArray [4; 4; 4] (replicate 64 0)))
  = Raise AssertionError.
Proof.
  destruct (multiscale_halo_crops_each_output
              (fun _ => Lst [NDArray [4; 4; 4] (replicate 64 0);
                             NDArray [2; 2; 2] (replicate 8 0)])
              (Arr (NDArray [4; 4; 4] (replicate 64 0))) [[1; 1; 1]] eq_refl)
    as (H & _ & _).
  by apply (H _ eq_refl).
Defined.

End PredicterFacts.

(** ** Writing the predictions *)

Module WriteOutputFacts.
Import Numpy Nifty LoadInput Frameworks MultiscaleInference PipelineFacts.

Section WriteOutput.
Context {V Pre : Type}.
Variable blocking_ : blocking.
Variable halo : list Z.
Variable ds_in : list (list Z).
Variable ds_out : list out_dataset.
Variable mask : option (list (Z * Z) -> list bool).
Variables scale_factors scale_halos : list (list Z).
Variable preprocess : list loaded -> result Pre.
Variable predict : Pre -> result (pdata V).
Variable channel_mapping : list (Z * Z).
Variable channel_accumulation : option (ndarray V -> ndarray V).
Variable _to_uint8 : ndarray V -> ndarray V.
Variable store_write : nat -> list slice -> ndarray V -> result unit.

#[local] Abbreviation channel_output_for :=
  (channel_output_for channel_accumulation _to_uint8).
#[local] Abbreviation write_loop :=
  (write_loop channel_accumulation _to_uint8 store_write).
#[local] Abbreviation write_output :=
  (write_output blocking_ ds_out channel_mapping channel_accumulation
                _to_uint8 store_write).
#[local] Abbreviation pipeline :=
  (pipeline blocking_ halo ds_in ds_out mask scale_factors scale_halos
            preprocess predict channel_mapping channel_accumulation
            _to_uint8 store_write).
#[local] Abbreviation _run_inference :=
  (_run_inference blocking_ halo ds_in ds_out mask scale_factors scale_halos
                  preprocess predict channel_mapping channel_accumulation
                  _to_uint8 store_write).

Ltac run_trace :=
  unfold mbind, M_bind, mret, M_ret, emit, lift; cbn [fst snd].

(** X13.  The loop over the output datasets in [write_output] does not
    undo what it has written: when the checks of a dataset fail (or its
    channels cannot be cut out), the datasets before it in the list have
    been written, in their order, and the exception of the failing dataset
    is what the loop raises; no dataset after it is touched. *)
Theorem earlier_datasets_stay_written dtype_ b bb output k l1 outs dso cm l2 e t :
  Forall2 (fun p out => channel_output_for dtype_ bb output p.1 p.2 = Ok out)
          l1 outs →
  (∀ (i : nat) out, outs !! i = Some out →
                    store_write (k + i)%nat out.1 out.2 = Ok tt) →
  channel_output_for dtype_ bb output dso cm = Raise e →
  write_loop dtype_ b bb output k (l1 ++ (dso, cm) :: l2) t
  = (Raise e,
     t ++ imap (fun i out => WriteRegion b (k + i) out.1 out.2) outs).
Proof.
  intros Hl1. revert k t.
  induction Hl1 as [|[dso1 cm1] [bb1 a1] l1 outs H1 _ IH]; intros k t Hst He.
  - cbn [app MultiscaleInference.write_loop imap].
    unfold MultiscaleInference.write_channels. run_trace.
    rewrite He. cbn. by rewrite app_nil_r.
  - cbn [app MultiscaleInference.write_loop].
    unfold MultiscaleInference.write_channels. run_trace.
    cbn [fst snd] in H1. rewrite H1. cbn.
    pose proof (Hst 0%nat (bb1, a1) eq_refl) as Hs0. cbn in Hs0.
    rewrite Nat.add_0_r in Hs0. rewrite Hs0. cbn.
    rewrite (IH (S k)); [|intros i out Ho; replace (S k + i)%nat with (k + S i)%nat by lia; by apply Hst|done].
    rewrite <- app_assoc. cbn. rewrite Nat.add_0_r. do 3 f_equal.
    apply imap_ext. intros i x _. cbn. do 2 f_equal. lia.
Qed.


Lemma slice_extent_prefix n ash :
  0 ≤ ash → ash ≤ n → slice_extent n (Slice 0 ash) = ash.
Proof. intros. cbn. rewrite LoadInputFacts.slice_len_in by lia. lia. Qed.

(** X14.  A prediction of the block shape of the blocking for a block that
    is cut off at the boundary of the volume is cut to the block before it
    is written: with one three-dimensional output dataset, the array that
    [write_output] writes to the region of the block has the shape of that
    region (and is cast to [uint8] where the dataset has that type). *)
Theorem truncated_block_written_whole dtype_ b (a : ndarray V) dso cs ce t :
  ds_out = [dso] → channel_mapping = [(cs, ce)] → dso_ndim dso = 3%nat →
  (channel_accumulation = None → ce - cs = 1) →
  length (shape a) = 3%nat → shape a = blockShape blocking_ →
  Forall2 (fun '(start, stop) n => 0 ≤ stop - start ≤ n)
          (block_to_bb (getBlock blocking_ b)) (blockShape blocking_) →
  ∃ a',
    shape a' = map (fun '(start, stop) => stop - start)
                   (block_to_bb (getBlock blocking_ b)) ∧
    (write_output dtype_ (b, Some (Arr a)) t).2
    = t ++ [WriteRegion b 0 (to_slices (block_to_bb (getBlock blocking_ b)))
              (if decide (dtype_ = uint8) then _to_uint8 a' else a')].
Proof.
  intros Hds Hcm Hdso Hacc Hlen Hshape Hbb.
  set (bb := block_to_bb (getBlock blocking_ b)) in *.
  assert (Hcrop : ∃ a', crop_to_block blocking_ bb a = Ok a' ∧
            shape a' = map (fun '(start, stop) => stop - start) bb ∧
            ndim a' = 3%nat).
  { unfold crop_to_block, block_shape.
    destruct (decide (_ = blockShape blocking_)) as [E|E].
    - exists a. split; [done|]. split; [congruence|done].
    - unfold ndim. rewrite Hlen. rewrite decide_False by lia.
      unfold getitem, getitem_shape. rewrite !length_map.
      rewrite <- Hshape in Hbb. pose proof (Forall2_length _ _ _ Hbb) as Hl.
      rewrite decide_False by lia. cbn [mbind result_bind].
      eexists. split; [reflexivity|]. cbn [shape].
      rewrite Hl, drop_all, app_nil_r.
      assert (Hgo : ∀ (sh : list Z) (l : list (Z * Z)),
                Forall2 (fun '(start, stop) n => 0 ≤ stop - start ≤ n) l sh →
                map (fun '(n, s) => slice_extent n s)
                    (zip sh (map (fun ash => Slice 0 ash)
                               (map (fun '(start, stop) => stop - start) l)))
                = map (fun '(start, stop) => stop - start) l).
      { intros sh l H. induction H as [|[s0 e0] n l' sh' H0 _ IH]; [done|].
        cbn [map zip zip_with]. rewrite IH. f_equal.
        apply slice_extent_prefix; lia. }
      split; [by apply Hgo|]. unfold ndim. cbn [shape].
      rewrite Hgo by done. rewrite length_map. lia. }
  destruct Hcrop as (a' & Hcrop & Hsh & Hnd). exists a'. split; [exact Hsh|].
  unfold MultiscaleInference.write_output. run_trace.
  rewrite decide_True by done. rewrite Hds. cbn [length].
  unfold assert. rewrite bool_decide_true by done. cbn.
  fold bb. rewrite Hcrop. cbn. rewrite Hcm. cbn.
  unfold MultiscaleInference.write_channels,
    MultiscaleInference.channel_output_for. run_trace.
  rewrite (decide_True (P := dso_ndim dso = 3%nat)) by done.
  assert (Hassert : match channel_accumulation with
                    | Some _ => Ok ()
                    | None => assert (bool_decide (ce - cs = 1))
                    end = Ok tt).
  { destruct channel_accumulation; [done|]. unfold assert.
    by rewrite bool_decide_true by auto. }
  rewrite Hassert. cbn. rewrite (decide_False (P := ndim a' = 4%nat)) by lia. cbn.
  assert (Hfin : finish_channel channel_accumulation _to_uint8 dtype_ a'
                 = if decide (dtype_ = uint8) then _to_uint8 a' else a').
  { unfold finish_channel. destruct channel_accumulation; [|done].
    by rewrite (decide_False (P := ndim a' = 4%nat)) by lia. }
  rewrite Hfin. by destruct (store_write _ _ _) as [[]|].
Qed.

(** X15.  With a channel accumulation configured, [write_output] applies
    it to the channels [[chan_start, chan_stop)] of a four-dimensional
    prediction only if the squeezed slice still has four axes: if the
    mapping names more than one channel and no spatial axis of the
    prediction has extent 1.  Otherwise the squeezed slice is written as it
    is. *)
Theorem accumulation_needs_four_axes dtype_ bb (output : ndarray V) dso cs ce
    acc c z y x out_bb a :
  channel_accumulation = Some acc → shape output = [c; z; y; x] →
  0 ≤ cs → cs ≤ ce → ce ≤ c →
  channel_output_for dtype_ bb output dso (cs, ce) = Ok (out_bb, a) →
  ∃ sl, getitem output [Slice cs ce] = Ok sl ∧
    shape sl = [ce - cs; z; y; x] ∧
    a = (if decide (dtype_ = uint8) then _to_uint8 else id)
          (if decide (ce - cs ≠ 1 ∧ z ≠ 1 ∧ y ≠ 1 ∧ x ≠ 1)
           then acc (squeeze sl) else squeeze sl).
Proof.
  intros Hacc Hshape H0 H1 H2.
  assert (∃ sl, getitem output [Slice cs ce] = Ok sl ∧
            shape sl = [ce - cs; z; y; x]) as (sl & Hsl & Hsh).
  { unfold getitem, getitem_shape. rewrite Hshape. cbn [length].
    rewrite decide_False by lia. cbn [mbind result_bind].
    eexists. split; [reflexivity|]. cbn [shape zip zip_with map drop app
                                           slice_extent].
    by rewrite LoadInputFacts.slice_len_in by lia. }
  unfold MultiscaleInference.channel_output_for.
  destruct (if decide (dso_ndim dso = 3%nat) then _ else _) as [obb|];
    cbn [mbind result_bind]; [|discriminate].
  rewrite (decide_True (P := ndim output = 4%nat))
    by (unfold ndim; by rewrite Hshape).
  rewrite Hsl. cbn [mbind result_bind]. intros [= <- <-].
  exists sl. split; [done|]. split; [done|].
  assert (E : ndim (squeeze sl) = 4%nat
              ↔ ce - cs ≠ 1 ∧ z ≠ 1 ∧ y ≠ 1 ∧ x ≠ 1).
  { unfold ndim, squeeze. cbn [shape]. rewrite Hsh.
    rewrite !filter_cons, filter_nil.
    destruct (decide (ce - cs ≠ 1)), (decide (z ≠ 1)), (decide (y ≠ 1)),
      (decide (x ≠ 1)); cbn [length]; split; try tauto; try lia;
      intros; exfalso; lia. }
  unfold finish_channel. rewrite Hacc.
  destruct (decide (ndim (squeeze sl) = 4%nat)) as [E1|E1];
    destruct (decide (_ ∧ _)) as [E2|E2]; try tauto;
    by destruct (decide (dtype_ = uint8)).
Qed.

(** X16.  Output datasets of different types are rejected: [_run_inference]
    raises an [AssertionError] before it touches any block. *)
Theorem outputs_of_different_dtype_rejected block_list t d1 d2 :
  d1 ∈ ds_out → d2 ∈ ds_out → dso_dtype d1 ≠ dso_dtype d2 →
  _run_inference block_list t = (Raise AssertionError, t).
Proof.
  intros H1 H2 Hne. unfold MultiscaleInference._run_inference, out_dtype. run_trace.
  destruct ds_out as [|dso l]; [by inversion H1|].
  assert (forallb (fun d => bool_decide (dso_dtype d = dso_dtype dso)) (dso :: l)
          = false) as ->; [|done].
  apply not_true_is_false. intros Hall. rewrite forallb_forall in Hall.
  apply Hne. apply list_elem_of_In, Hall, bool_decide_eq_true in H1.
  apply list_elem_of_In, Hall, bool_decide_eq_true in H2. congruence.
Qed.

Lemma mapM_pipeline_ok dtype_ l t r t1 :
  mapM (pipeline dtype_) l t = (Ok r, t1) →
  r = replicate (length l) 1 ∧
  ∃ evs, t1 = t ++ evs ∧ ∀ b, b ∈ l → LogBlockSuccess b ∈ evs.
Proof.
  revert t r t1. induction l as [|b l IH]; intros t r t1; cbn [mapM]; run_trace.
  - intros [= <- <-]. split; [done|]. exists []. rewrite app_nil_r.
    split; [done|]. intros b Hb. by inversion Hb.
  - destruct (pipeline_trace blocking_ halo ds_in ds_out mask scale_factors
                scale_halos preprocess predict channel_mapping
                channel_accumulation _to_uint8 store_write dtype_ b t)
      as (evs & Hevs & Hb).
    destruct (pipeline dtype_ b t) as [[n|e] t2]; cbn in Hevs; subst t2;
      [|discriminate].
    destruct Hb as [[[= ->] Hb]|[e [=]]].
    destruct (mapM _ l (t ++ evs)) as [[r'|e] t3] eqn:E; [|discriminate].
    intros [= <- <-]. apply IH in E as (-> & evs' & -> & Hl).
    split; [done|]. exists (evs ++ evs'). rewrite app_assoc. split; [done|].
    intros b' [->|Hb']%elem_of_cons; apply elem_of_app.
    + left. apply existsb_exists in Hb as (x & Hx & Hs).
      apply list_elem_of_In in Hx. destruct x; try discriminate Hs.
      cbn in Hs. apply bool_decide_eq_true in Hs. by subst.
    + right. by apply Hl.
Qed.

Lemma run_inference_marks_blocks block_list t t' :
  _run_inference block_list t = (Ok tt, t') →
  ∃ evs, t' = t ++ evs ∧ ∀ b, b ∈ block_list → LogBlockSuccess b ∈ evs.
Proof.
  unfold MultiscaleInference._run_inference. run_trace.
  destruct (out_dtype ds_out) as [dtype_|]; [|discriminate].
  destruct (mapM _ block_list t) as [[r|e] t1] eqn:E; [|discriminate].
  intros [= <-]. apply mapM_pipeline_ok in E as (-> & evs & -> & Hl).
  exists (evs ++ [LogFinished (foldr Z.add 0 (replicate (length block_list) 1))]).
  split; [by rewrite <- app_assoc|].
  intros b Hb. apply elem_of_app. left. by apply Hl.
Qed.

(** X17.  When [_run_inference] returns, every block of the list has been
    logged as successful, and the last thing it logs is the number of
    blocks of the list, the blocks skipped for the mask included. *)
Theorem finished_message_counts_every_block block_list t t' :
  _run_inference block_list t = (Ok tt, t') →
  ∃ evs,
    t' = t ++ evs ++ [LogFinished (Z.of_nat (length block_list))] ∧
    ∀ b, b ∈ block_list → LogBlockSuccess b ∈ evs.
Proof.
  unfold MultiscaleInference._run_inference. run_trace.
  destruct (out_dtype ds_out) as [dtype_|]; [|discriminate].
  destruct (mapM _ block_list t) as [[r|e] t1] eqn:E; [|discriminate].
  intros [= <-]. apply mapM_pipeline_ok in E as (-> & evs & -> & Hl).
  exists evs. split; [|done]. rewrite <- app_assoc. do 4 f_equal.
  induction (length block_list) as [|n IHn]; cbn [replicate foldr]; lia.
Qed.

End WriteOutput.
Lemma truncated_block_written_whole_witness :
  ∃ a', shape a' = [2; 2; 1] ∧
    (write_output
       (Blocking [2; 2; 2]
          (fun b => Block [0; 0; 2 * b] [2; 2; Z.min (2 * b + 2) 3]))
       ex_one_output [(0, 1)] None (fun a => a) ex_store_write float32
       (1, Some (Arr ex_prediction3)) []).2
    = [] ++ [WriteRegion 1 0 [Slice 0 2; Slice 0 2; Slice 2 3] a'].
Proof.
  destruct (truncated_block_written_whole
              (Blocking [2; 2; 2]
                 (fun b => Block [0; 0; 2 * b] [2; 2; Z.min (2 * b + 2) 3]))
              ex_one_output [(0, 1)] None (fun a => a) ex_store_write float32
              1 ex_prediction3 (OutDataset [2; 2; 4] float32) 0 1 [])
    as (a' & Hs & Ht); try reflexivity; try done.
  - repeat constructor; cbn; lia.
  - exists a'. split; [exact Hs|exact Ht].
Defined.

Lemma earlier_datasets_stay_written_witness :
  write_loop None (fun a => a) ex_store_write float32 0
             [(0, 2); (0, 2); (0, 2)] ex_prediction4 0
             ([(OutDataset [2; 2; 4] float32, (0, 1))]
                ++ (OutDataset [2; 2; 4] float32, (0, 2)) :: []) []
  = (Raise AssertionError,
     [WriteRegion 0 0 [Slice 0 2; Slice 0 2; Slice 0 2]
        (NDArray [2; 2; 2] [0; 1; 2; 3; 4; 5; 6; 7])]).
Proof.
  apply (earlier_datasets_stay_written None (fun a => a) ex_store_write float32
           0 [(0, 2); (0, 2); (0, 2)] ex_prediction4 0%nat
           [(OutDataset [2; 2; 4] float32, (0, 1))]
           [([Slice 0 2; Slice 0 2; Slice 0 2],
             NDArray [2; 2; 2] [0; 1; 2; 3; 4; 5; 6; 7])]).
  - by repeat constructor.
  - done.
  - reflexivity.
Defined.

Lemma accumulation_needs_four_axes_witness :
  ∃ sl, getitem ex_prediction4 [Slice 0 2] = Ok sl ∧
        shape sl = [2 - 0; 2; 2; 2] ∧
        channel_output_for (Some (fun a : ndarray Z => NDArray [2; 2; 2] (take 8 (data a))))
          (fun a => a) float32 [(0, 2); (0, 2); (0, 2)] ex_prediction4
          (OutDataset [2; 2; 4] float32) (0, 2)
        = Ok ([Slice 0 2; Slice 0 2; Slice 0 2],
              NDArray [2; 2; 2] (take 8 (data (squeeze sl)))).
Proof.
  destruct (accumulation_needs_four_axes
              (Some (fun a : ndarray Z => NDArray [2; 2; 2] (take 8 (data a))))
              (fun a => a) float32 [(0, 2); (0, 2); (0, 2)] ex_prediction4
              (OutDataset [2; 2; 4] float32) 0 2
              (fun a : ndarray Z => NDArray [2; 2; 2] (take 8 (data a)))
              2 2 2 2 [Slice 0 2; Slice 0 2; Slice 0 2]
              (NDArray [2; 2; 2] [0; 1; 2; 3; 4; 5; 6; 7]))
    as (sl & Hsl & Hsh & Ha); try reflexivity; try lia.
  exists sl. split; [exact Hsl|]. split; [exact Hsh|].
  vm_compute in Hsl. injection Hsl as <-. reflexivity.
Defined.

Lemma outputs_of_different_dtype_rejected_witness :
  _run_inference ex_blocking [0; 0; 0] ex_ds_in
    [OutDataset [2; 2; 4] float32; OutDataset [2; 2; 4] uint8] None
    [[1; 1; 1]] [[0; 0; 0]] ex_preprocess ex_predict3 ex_channel_mapping None
    (fun a => a) ex_store_write [0; 1] []
  = (Raise AssertionError, []).
Proof.
  apply (outputs_of_different_dtype_rejected _ _ _ _ _ _ _ _ _ _ _ _ _ _ _
           (OutDataset [2; 2; 4] float32) (OutDataset [2; 2; 4] uint8));
    [by left|by right; left|done].
Defined.

Lemma finished_message_counts_every_block_witness :
  ∃ evs,
    (_run_inference ex_blocking [0; 0; 0] ex_ds_in ex_one_output ex_mask
       [[1; 1; 1]] [[0; 0; 0]] ex_preprocess ex_predict3 ex_channel_mapping
       None (fun a => a) ex_store_write [0; 1] []).2
    = [] ++ evs ++ [LogFinished 2] ∧
    LogBlockSuccess 0 ∈ evs ∧ LogBlockSuccess 1 ∈ evs.
Proof.
  destruct (_run_inference ex_blocking [0; 0; 0] ex_ds_in ex_one_output ex_mask
              [[1; 1; 1]] [[0; 0; 0]] ex_preprocess ex_predict3
              ex_channel_mapping None (fun a => a) ex_store_write [0; 1] [])
    as [[[]|e] t'] eqn:E; [|by vm_compute in E].
  destruct (finished_message_counts_every_block _ _ _ _ _ _ _ _ _ _ _ _ _ _ _ _ E)
    as (evs & -> & H).
  exists evs. split; [reflexivity|]. split; apply H; [by left|by right; left].
Defined.

End WriteOutputFacts.

(** ** The jobs of the background size filter *)

Module FilterJobFacts.
Import Numpy BackgroundSizeFilter BackgroundSizeFilterFacts.

Lemma discard_idem discard_ids labels :
  discard discard_ids (discard discard_ids labels) = discard discard_ids labels.
Proof.
  unfold discard. rewrite <- list_fmap_compose. apply list_fmap_ext.
  intros _ l _. cbn. destruct (decide (l ∈ discard_ids)); [|by rewrite decide_False].
  by case_decide.
Qed.

(** What [apply_block] leaves in the volume store. *)
Lemma volumes_apply_block block_id ds_in ds_out discard_ids st ds b :
  volumes (apply_block block_id ds_in ds_out discard_ids st) ds b
  = if decide (sum_u64 (volumes st ds_in block_id) = 0) then volumes st ds b
    else if decide (ds = ds_out ∧ b = block_id)
         then discard discard_ids (volumes st ds_in block_id)
         else volumes st ds b.
Proof.
  unfold apply_block. cbn [volumes fu_log].
  destruct (decide (sum_u64 _ = 0)); [done|].
  destruct (decide (count_true _ = 0)) as [Hc|Hc]; cbn [volumes fu_log write_region].
  - apply count_true_zero in Hc. rewrite discard_none by done.
    by destruct (decide (ds = ds_out ∧ b = block_id)).
  - rewrite discard_zip. by destruct (decide (ds = ds_out ∧ b = block_id)).
Qed.

Lemma max_ids_apply_block block_id ds_in ds_out discard_ids st :
  max_ids (apply_block block_id ds_in ds_out discard_ids st) = max_ids st.
Proof. unfold apply_block. by repeat case_decide. Qed.

Lemma log_apply_block block_id ds_in ds_out discard_ids st :
  log (apply_block block_id ds_in ds_out discard_ids st)
  = log st ++ [LogStart block_id; LogBlockSuccess block_id].
Proof.
  unfold apply_block. repeat case_decide; cbn; by rewrite <- app_assoc.
Qed.

(** X18.  [apply_block] touches the region of its block in the output
    dataset and nothing else: every other region of every dataset (the
    input dataset, unless the filter runs in place) and the [maxId]
    attributes are as before, and the log gains the start line and the
    success marker of the block. *)
Theorem apply_block_touches_one_region block_id ds_in ds_out discard_ids st :
  (∀ ds b, (ds, b) ≠ (ds_out, block_id) →
     volumes (apply_block block_id ds_in ds_out discard_ids st) ds b
     = volumes st ds b) ∧
  max_ids (apply_block block_id ds_in ds_out discard_ids st) = max_ids st ∧
  log (apply_block block_id ds_in ds_out discard_ids st)
  = log st ++ [LogStart block_id; LogBlockSuccess block_id].
Proof.
  split; [|split; [apply max_ids_apply_block|apply log_apply_block]].
  intros ds b Hne. rewrite volumes_apply_block.
  destruct (decide (sum_u64 _ = 0)); [reflexivity|].
  destruct (decide (ds = ds_out ∧ b = block_id)) as [[-> ->]|]; [done|reflexivity].
Qed.

(** X19.  Running [apply_block] on a block a second time, as a retry of
    the job does, leaves the volume store as the first run left it, whether
    the filter writes to another dataset or works in place. *)
Theorem apply_block_again_changes_nothing block_id ds_in ds_out discard_ids st
    ds b :
  volumes (apply_block block_id ds_in ds_out discard_ids
             (apply_block block_id ds_in ds_out discard_ids st)) ds b
  = volumes (apply_block block_id ds_in ds_out discard_ids st) ds b.
Proof.
  rewrite (volumes_apply_block _ _ _ _ (apply_block _ _ _ _ _)).
  destruct (decide (sum_u64 _ = 0)) as [|H1]; [reflexivity|].
  destruct (decide (ds = ds_out ∧ b = block_id)) as [[-> ->]|]; [|reflexivity].
  rewrite !volumes_apply_block in *.
  destruct (decide (sum_u64 (volumes st ds_in block_id) = 0)) as [H0|H0];
    [by rewrite H0 in H1|].
  rewrite (decide_True (P := ds_out = ds_out ∧ block_id = block_id)) by done.
  destruct (decide (ds_in = ds_out ∧ block_id = block_id)); [|reflexivity].
  apply discard_idem.
Qed.

Section FilterJob.
Variables (job_id : Z) (input_path input_key output_path output_key : string).
Variable discard_ids : list Z.

#[local] Abbreviation ds_in := (input_path, input_key).
#[local] Abbreviation ds_out := (output_path, output_key).
#[local] Abbreviation blocks := 
  (foldl (fun st block_id => apply_block block_id ds_in ds_out discard_ids st)).

Lemma volumes_blocks block_list st ds b :
  volumes (blocks st block_list) ds b
  = if decide (ds = ds_out ∧ b ∈ block_list
               ∧ sum_u64 (volumes st ds_in b) ≠ 0)
    then discard discard_ids (volumes st ds_in b)
    else volumes st ds b.
Proof.
  revert st. induction block_list as [|x l IH]; intros st; cbn [foldl].
  - rewrite decide_False; [done|]. intros (_ & H & _). by inversion H.
  - rewrite IH. clear IH.
    pose proof (volumes_apply_block x ds_in ds_out discard_ids st) as E.
    destruct (decide (b = x)) as [->|Hbx].
    + destruct (decide (sum_u64 (volumes st ds_in x) = 0)) as [H0|H0].
      * rewrite !E.
        rewrite !decide_False; [done| |]; intros (_ & _ & ?); done.
      * destruct (decide (ds = ds_out)) as [->|Hds].
        -- rewrite (decide_True (P := _ ∧ x ∈ x :: l ∧ _))
             by (split; [done|split; [by left|done]]).
           rewrite !E.
           rewrite (decide_True (P := ds_out = ds_out ∧ x = x)) by done.
           destruct (decide (_ ∧ x ∈ l ∧ _)); [|reflexivity].
           case_decide; [apply discard_idem|reflexivity].
        -- rewrite !(decide_False (P := ds = ds_out ∧ _ ∧ _)) by (by intros [? _]).
           rewrite E.
           by rewrite (decide_False (P := ds = ds_out ∧ _)) by (by intros [? _]).
    + assert (E' : ∀ ds', volumes (apply_block x ds_in ds_out discard_ids st) ds' b
                          = volumes st ds' b).
      { intros ds'. rewrite E. destruct (decide (sum_u64 _ = 0)); [reflexivity|].
        by rewrite decide_False by (by intros [_ ?]). }
      rewrite !E'. apply decide_ext. rewrite elem_of_cons.
      split; [intros (? & ? & ?); eauto|intros (? & [?|?] & ?); [done|eauto]].
Qed.

Lemma max_ids_blocks block_list st :
  max_ids (blocks st block_list) = max_ids st.
Proof.
  revert st. induction block_list as [|x l IH]; intros st; cbn [foldl]; [done|].
  by rewrite IH, max_ids_apply_block.
Qed.

Lemma log_blocks block_list st :
  log (blocks st block_list)
  = log st ++ (block_list ≫= fun b => [LogStart b; LogBlockSuccess b]).
Proof.
  revert st. induction block_list as [|x l IH]; intros st; cbn [foldl].
  - cbn. by rewrite app_nil_r.
  - rewrite IH, log_apply_block. cbn. by rewrite <- app_assoc.
Qed.

(** X20.  What a job of the filter leaves behind.  The region of a block of
    the block list in the output dataset holds the input labels of the
    block with the ids to discard set to 0, unless the sum of the input
    labels is 0 in 64-bit arithmetic; then the region is as it was.  All
    other regions are as they were.  This holds in place, too, and for a
    block list that names a block more than once.  The log gains the start
    line and the success marker of every block, in the order of the list,
    and the success marker of the job. *)
Theorem filter_job_volumes block_list st :
  (∀ ds b,
     volumes (background_size_filter job_id input_path input_key output_path
                output_key block_list discard_ids st) ds b
     = if decide (ds = ds_out ∧ b ∈ block_list
                  ∧ sum_u64 (volumes st ds_in b) ≠ 0)
       then discard discard_ids (volumes st ds_in b)
       else volumes st ds b) ∧
  log (background_size_filter job_id input_path input_key output_path
         output_key block_list discard_ids st)
  = log st ++ (block_list ≫= fun b => [LogStart b; LogBlockSuccess b])
      ++ [LogJobSuccess job_id].
Proof.
  unfold background_size_filter. split.
  - intros ds b. rewrite <- volumes_blocks.
    destruct (_ && _); [|done]. by destruct (max_ids _ _).
  - cbn [log fu_log]. rewrite app_assoc, <- log_blocks.
    destruct (_ && _); [|done]. by destruct (max_ids _ _).
Qed.

(** X21.  The [maxId] attribute.  Only job 0 copies it, only when the
    filter does not run in place and only if the input dataset has one:
    then the output dataset gets the [maxId] of the input.  In every other
    case, and for every other dataset, the attribute is as it was. *)
Theorem max_id_copied_by_job_zero block_list st ds :
  max_ids (background_size_filter job_id input_path input_key output_path
             output_key block_list discard_ids st) ds
  = if decide (job_id = 0 ∧ ds_in ≠ ds_out ∧ ds = ds_out
               ∧ is_Some (max_ids st ds_in))
    then max_ids st ds_in else max_ids st ds.
Proof.
  unfold background_size_filter. cbn [max_ids fu_log].
  destruct (decide (job_id = 0)) as [->|Hj].
  - rewrite bool_decide_true by done. cbn [andb].
    destruct (decide (ds_in = ds_out)) as [Heq|Hne].
    + rewrite !bool_decide_true by congruence. cbn [andb negb].
      rewrite max_ids_blocks. rewrite decide_False; [done|]. by intros (_ & ? & _).
    + assert (bool_decide (input_path = output_path)
              && bool_decide (input_key = output_key) = false) as ->.
      { apply andb_false_iff. destruct (decide (input_path = output_path)) as [->|];
          [right|left]; apply bool_decide_eq_false; congruence. }
      cbn [negb]. rewrite max_ids_blocks.
      destruct (max_ids st ds_in) as [m|] eqn:Em; cbn [max_ids].
      * destruct (decide (ds = ds_out)) as [->|Hds].
        -- by rewrite decide_True by eauto.
        -- rewrite decide_False; [done|]. by intros (_ & _ & ? & _).
      * rewrite max_ids_blocks. rewrite decide_False; [done|].
        intros (_ & _ & _ & [? ?]). done.
  - rewrite bool_decide_false by done. cbn [andb]. rewrite max_ids_blocks.
    rewrite decide_False; [done|]. by intros (? & _).
Qed.

End FilterJob.
End FilterJobFacts.

(** ** The frameworks and the inference job *)

Module DispatchFacts.
Import Setup Dispatch.

(** X22. [get_predictor] and [get_preprocessor] know the same frameworks:
    one raises KeyError exactly when the other does, which is for every name
    but pytorch, inferno and tensorflow; and a predictor class is returned
    only for its own name, with its imports in place, the preprocessor of
    that name being the torch one for pytorch and inferno. *)
Theorem dispatchers_know_the_same_frameworks {K} env framework (kwargs : K) :
  (get_predictor env framework = Raises KeyError
   ↔ get_preprocessor framework kwargs = Raises KeyError) ∧
  (get_preprocessor framework kwargs = Raises KeyError
   ↔ framework ∉ ["pytorch"; "inferno"; "tensorflow"]%string) ∧
  (∀ cls, get_predictor env framework = Returns cls →
     match cls with
     | PytorchPredicter =>
         framework = "pytorch"%string ∧ torch env = true ∧
         get_preprocessor framework kwargs = Returns (PreprocessTorch kwargs)
     | InfernoPredicter =>
         framework = "inferno"%string ∧ torch env = true ∧
         Trainer env = true ∧
         get_preprocessor framework kwargs = Returns (PreprocessTorch kwargs)
     | TensorflowPredicter =>
         framework = "tensorflow"%string ∧ tensorflow env = true ∧
         get_preprocessor framework kwargs = Returns (PreprocessTf kwargs)
     end).
Proof.
  unfold get_predictor, get_preprocessor.
  destruct (decide (framework = "pytorch"%string)) as [->|H1].
  { destruct (torch env); cbn; split_and!; try (split; intros; try done);
      try (intros cls [= <-]; done); try (by intros ? [=]).
    all: exfalso; match goal with H : _ ∉ _ |- _ => apply H end; by left. }
  destruct (decide (framework = "inferno"%string)) as [->|H2].
  { destruct (torch env), (Trainer env); cbn; split_and!;
      try (split; intros; try done);
      try (intros cls [= <-]; done); try (by intros ? [=]).
    all: exfalso; match goal with H : _ ∉ _ |- _ => apply H end; by right; left. }
  assert (Hb : bool_decide (framework ∈ ["inferno"%string; "pytorch"%string])
               = false).
  { apply bool_decide_eq_false. intros H.
    apply elem_of_cons in H as [?|H]; [done|].
    apply elem_of_cons in H as [?|H]; [done|]. inversion H. }
  rewrite Hb.
  destruct (decide (framework = "tensorflow"%string)) as [->|H3].
  { destruct (tensorflow env); cbn; split_and!;
      try (split; intros; try done);
      try (intros cls [= <-]; done); try (by intros ? [=]).
    all: exfalso; match goal with H : _ ∉ _ |- _ => apply H end;
      by right; right; left. }
  split_and!; try done.
  split; [|done]. intros _ H.
  repeat (apply elem_of_cons in H as [?|H]; [done|]). inversion H.
Qed.

End DispatchFacts.

Module InferenceJobFacts.
Import Numpy Nifty LoadInput Frameworks MultiscaleInference Setup Dispatch
  InferenceTask.

Section JobFacts.
Context {V Pre PrepModel : Type}.
Variable env : imports.
Variable np_getattr : string -> option (ndarray V -> ndarray V).
Variable get_prep_model : string -> result PrepModel.
Variable load_predictor :
  predictor_class -> string -> list Z -> Z -> option PrepModel -> bool ->
  result (Pre -> result (pdata V)).
Variable preprocess_torch : list loaded -> result Pre.
Variable g_in : string -> option (list Z).
Variable f_out : string -> option out_dataset.
Variable nt_blocking : list Z -> list Z -> list Z -> blocking.
Variable load_mask :
  string -> string -> list Z -> result (list (Z * Z) -> list bool).
Variable _to_uint8 : ndarray V -> ndarray V.
Variable store_write : nat -> list slice -> ndarray V -> result unit.

#[local] Abbreviation multiscale_inference :=
  (multiscale_inference env np_getattr get_prep_model load_predictor
     preprocess_torch g_in f_out nt_blocking load_mask _to_uint8 store_write).

Ltac run_setup :=
  unfold check; unfold mbind, SetupM_bind, mret, SetupM_ret, tell, pure;
  cbn [fst snd].

(** The assertion on the scales, [[1, 1, 1]] and [[0, 0, 0]] prepended. *)
Lemma scale_check_false (scale_factors scale_halos : list (list Z)) :
  length scale_factors ≠ 2%nat ∨ length scale_halos ≠ 2%nat →
  bool_decide (length ([1; 1; 1] :: scale_factors)
               = length ([0; 0; 0] :: scale_halos))
  && bool_decide (length ([0; 0; 0] :: scale_halos) = 3%nat) = false.
Proof.
  intros H. cbn [length]. apply andb_false_iff.
  destruct (decide (length scale_halos = 2%nat)) as [E|E].
  - left. apply bool_decide_eq_false. lia.
  - right. apply bool_decide_eq_false. lia.
Qed.

(** X23. A job whose configuration does not hold exactly two scale factors
    and two scale halos (three scales with the full resolution) raises
    AssertionError right after its first two log lines: no model is loaded
    and no block is touched. *)
Theorem job_needs_three_scales job_id config block_list t :
  length (Config.scale_factors config) ≠ 2%nat
  ∨ length (Config.scale_halos config) ≠ 2%nat →
  multiscale_inference job_id config block_list t
  = (Raises (Exn AssertionError),
     t ++ [Log (StartProcessingJob job_id); Log ReadingConfig]).
Proof.
  intros H. unfold InferenceTask.multiscale_inference. run_setup.
  rewrite (scale_check_false _ _ H). cbn. by rewrite <- app_assoc.
Qed.

Lemma bind_returns {E A B} (m : SetupM E A) (f : A → SetupM E B) t b t' :
  (m ≫= f) t = (Returns b, t') →
  ∃ a t1, m t = (Returns a, t1) ∧ f a t1 = (Returns b, t').
Proof.
  unfold mbind, SetupM_bind. destruct (m t) as [[a|e] t1]; [eauto|discriminate].
Qed.

Ltac grows H :=
  lazymatch type of H with
  | _ ?a = (Returns _, ?b) =>
      assert (a `prefix_of` b)
        by (clear -H;
            unfold check, tell, pure, mbind, SetupM_bind, mret, SetupM_ret in H;
            repeat case_match; simplify_eq;
            repeat apply prefix_app_r; reflexivity)
  end.

(** X24. A job that returns has logged its success last, and before that
    the success of every block of its block list. *)
Theorem job_success_means_blocks_done job_id config block_list t t' :
  multiscale_inference job_id config block_list t = (Returns tt, t') →
  ∃ evs,
    t' = t ++ evs ++ [LogJobSuccess job_id] ∧
    ∀ b, b ∈ block_list → OfBlocks (LogBlockSuccess b) ∈ evs.
Proof.
  unfold InferenceTask.multiscale_inference. intros H.
  repeat (apply bind_returns in H as (? & ? & ? & H); cbv zeta in H).
  revert H.
  repeat match goal with
         | H : ?f = (Returns _, _) |- _ =>
             lazymatch f with
             | of_M _ _ _ => fail
             | _ => grows H; clear H
             end
         end.
  intros Hlast.
  match goal with
  | H : of_M _ _ ?a = (_, ?b) |- _ =>
      assert (Hpre : t `prefix_of` a)
        by (repeat (etrans; [eassumption|]); reflexivity);
      unfold of_M in H
  end.
  destruct (_run_inference _ _ _ _ _ _ _ _ _ _ _ _ _ _ []) as [[[]|e] tr] eqn:E;
    [|match goal with H : (_, _) = (Returns _, _) |- _ => discriminate H end].
  apply WriteOutputFacts.run_inference_marks_blocks in E as (evs & -> & Hevs).
  destruct Hpre as [e0 ->].
  match goal with H : (_, _) = (Returns _, _) |- _ => injection H as _ <- end.
  unfold tell in Hlast. injection Hlast as <-.
  exists (e0 ++ (OfBlocks <$> ([] ++ evs))).
  split; [by rewrite <- !app_assoc|].
  intros b Hb. apply elem_of_app. right. apply list_elem_of_fmap.
  exists (LogBlockSuccess b). split; [done|]. cbn. by apply Hevs.
Qed.

Lemma get_predictor_tensorflow :
  get_predictor env "tensorflow"
  = if tensorflow env then Returns TensorflowPredicter
    else Raises (Exn AssertionError).
Proof. unfold get_predictor. cbn. by destruct (tensorflow env). Qed.

Ltac raised_early :=
  eexists _, _; (split; [rewrite <- ?app_assoc; reflexivity|]);
  split_and!; intros; intros Hin;
  repeat (apply elem_of_cons in Hin as [Hin|Hin]; [discriminate Hin|]);
  inversion Hin.

(** X25. A job for the framework tensorflow always raises, before it logs
    that it has the model: no block is started and the job does not log
    success. *)
Theorem tensorflow_job_cannot_run job_id config block_list t :
  Config.framework config = "tensorflow"%string →
  ∃ e evs,
    multiscale_inference job_id config block_list t = (Raises e, t ++ evs) ∧
    (Log HaveModel ∉ evs) ∧ (∀ ev, OfBlocks ev ∉ evs) ∧
    (LogJobSuccess job_id ∉ evs).
Proof.
  intros Hf. unfold InferenceTask.multiscale_inference. rewrite Hf.
  rewrite get_predictor_tensorflow. run_setup.
  destruct (_ && _); cbn [of_result assert]; [|raised_early].
  destruct (TaskConfig.channel_accumulation _) as [ca|];
    [destruct (np_getattr ca); [|raised_early]|].
  all: destruct (TaskConfig.device_mapping _) as [dm|];
    [unfold getitem_key; destruct (dm job_id); [|raised_early]|].
  all: destruct (TaskConfig.prep_model _) as [pm|];
    [destruct (get_prep_model pm); cbn [of_result]; [|raised_early]|].
  all: destruct (tensorflow env); cbn [of_result make_predictor]; raised_early.
Qed.

End JobFacts.

Lemma job_needs_three_scales_witness :
  ex_job 0 (ex_config "pytorch" 1) [0; 1] []
  = (Raises (Exn AssertionError),
     [] ++ [Log (StartProcessingJob 0); Log ReadingConfig]).
Proof. apply job_needs_three_scales. left. vm_compute. lia. Defined.

Lemma job_success_means_blocks_done_witness :
  ∃ evs,
    (ex_job 0 (ex_config "pytorch" 3) [0; 1] []).2
    = [] ++ evs ++ [LogJobSuccess 0] ∧
    ∀ b, b ∈ [0; 1] → OfBlocks (LogBlockSuccess b) ∈ evs.
Proof.
  apply (job_success_means_blocks_done (PrepModel := unit)
           (Imports true true true) (fun name => None) (fun name => Ok tt)
           (fun cls checkpoint_path halo gpu prep_model use_best =>
              Ok ex_predict3)
           ex_preprocess ex_g (fun key => Some (OutDataset [2; 2; 4] float32))
           (fun roiBegin roiEnd blockShape => MultiscaleInference.ex_blocking)
           (fun mask_path mask_key shape => Ok (fun bb => []))
           (fun a => a) MultiscaleInference.ex_store_write
           0 (ex_config "pytorch" 3) [0; 1] []).
  vm_compute. reflexivity.
Defined.

Lemma tensorflow_job_cannot_run_witness :
  ∃ e evs,
    ex_job 0 (ex_config "tensorflow" 3) [0; 1] [] = (Raises e, [] ++ evs) ∧
    (Log HaveModel ∉ evs) ∧ (∀ ev, OfBlocks ev ∉ evs) ∧
    (LogJobSuccess 0 ∉ evs).
Proof. apply tensorflow_job_cannot_run. reflexivity. Defined.

End InferenceJobFacts.

(** ** The inference task *)

Module RunImplFacts.
Import Numpy Nifty LoadInput Frameworks MultiscaleInference Setup Dispatch
  InferenceTask.

Section RunImplFacts.
Variable self : Self.t.
Variable global_config_values : string * list Z.
Variable get_task_config : TaskConfig.t.
Variable g : string -> option (list Z).
Variable blocks_in_volume : list Z -> list Z -> list Z.
Variable perform : call -> result unit.

#[local] Abbreviation make_output_volumes := (make_output_volumes perform).
#[local] Abbreviation run_impl :=
  (run_impl self global_config_values get_task_config g blocks_in_volume
            perform).
#[local] Abbreviation job_config := (job_config self get_task_config).

Ltac run_setup :=
  unfold check, do; unfold mbind, SetupM_bind, mret, SetupM_ret, tell, pure;
  cbn [fst snd].

(** What the loop over the output keys asks of the output file. *)
Lemma make_output_volumes_requires shape chunks dtype compression
    channel_accumulation l t :
  ∃ r reqs,
    make_output_volumes shape chunks dtype compression channel_accumulation l t
    = (r, t ++ reqs) ∧
    Forall (fun q => ∃ k s c d z, q = RequireDataset k s c d z) reqs ∧
    (r = Returns tt →
     Forall2 (fun (p : string * list Z) q =>
                length p.2 = 2%nat ∧ p.2 !!! 1%nat - p.2 !!! 0%nat > 0 ∧
                ∃ shape', shape = Some shape' ∧
                  q = if bool_decide (p.2 !!! 1%nat - p.2 !!! 0%nat > 1)
                         && bool_decide (channel_accumulation = None)
                      then RequireDataset p.1
                             ((p.2 !!! 1%nat - p.2 !!! 0%nat) :: shape')
                             (1 :: chunks) dtype compression
                      else RequireDataset p.1 shape' chunks dtype compression)
             l reqs).
Proof.
  revert t. induction l as [|[out_key out_channels] l IH]; intros t.
  - exists (Returns tt), []. cbn. rewrite app_nil_r. split; [done|].
    split; [constructor|]. intros _. constructor.
  - cbn [InferenceTask.make_output_volumes]. run_setup.
    destruct (bool_decide (length out_channels = 2%nat)) eqn:E1;
      cbn [of_result assert];
      [|eexists _, []; rewrite app_nil_r; split; [reflexivity|];
        split; [constructor|discriminate]].
    destruct (bool_decide (_ > 0)) eqn:E2;
      cbn [of_result assert];
      [|eexists _, []; rewrite app_nil_r; split; [reflexivity|];
        split; [constructor|discriminate]].
    destruct shape as [shape'|]; cbn [bound];
      [|eexists _, []; rewrite app_nil_r; split; [reflexivity|];
        split; [constructor|discriminate]].
    apply bool_decide_eq_true in E1, E2.
    destruct (bool_decide (_ > 1) && bool_decide (channel_accumulation = None))
      eqn:E3.
    + destruct (perform _) as [[]|e] eqn:Ep; cbn [of_result].
      * destruct (IH (t ++ [RequireDataset out_key
                              ((out_channels !!! 1%nat - out_channels !!! 0%nat)
                                 :: shape') (1 :: chunks) dtype compression]))
          as (r & reqs & -> & Hreqs & Hok).
        eexists r, (_ :: reqs). rewrite <- app_assoc. split; [reflexivity|].
        split; [constructor; [by eauto 10|done]|].
        intros Hr. constructor; [|by apply Hok]. cbn [fst snd].
        rewrite E3. eauto 10.
      * eexists _, [_]. split; [reflexivity|].
        split; [repeat constructor; by eauto 10|discriminate].
    + destruct (perform _) as [[]|e] eqn:Ep; cbn [of_result].
      * destruct (IH (t ++ [RequireDataset out_key shape' chunks dtype
                              compression]))
          as (r & reqs & -> & Hreqs & Hok).
        eexists r, (_ :: reqs). rewrite <- app_assoc. split; [reflexivity|].
        split; [constructor; [by eauto 10|done]|].
        intros Hr. constructor; [|by apply Hok]. cbn [fst snd].
        rewrite E3. eauto 10.
      * eexists _, [_]. split; [reflexivity|].
        split; [repeat constructor; by eauto 10|discriminate].
Qed.


(** The scales after the first leave the shape alone. *)
Lemma check_scales_later ii scales shape r :
  ii ≠ 0%nat →
  check_scales g ii scales shape = Returns r →
  r = shape ∧ Forall (fun s => is_Some (g s)) scales.
Proof.
  revert ii shape. induction scales as [|s scales IH]; intros ii shape Hii.
  - cbn. intros [= <-]. by split.
  - cbn [check_scales]. destruct (bool_decide (is_Some (g s))) eqn:E;
      cbn; [|discriminate].
    apply bool_decide_eq_true in E. rewrite decide_False by done.
    intros H. apply IH in H as [-> H]; [|lia]. split; [done|].
    by constructor.
Qed.

Lemma check_scales_first scales r :
  check_scales g 0 scales None = Returns r →
  r = head scales ≫= g ∧ Forall (fun s => is_Some (g s)) scales.
Proof.
  destruct scales as [|s scales].
  - cbn. intros [= <-]. by split.
  - cbn [check_scales]. destruct (bool_decide (is_Some (g s))) eqn:E;
      cbn; [|discriminate].
    apply bool_decide_eq_true in E. rewrite decide_True by done.
    intros H. apply check_scales_later in H as [-> H]; [|lia]. split; [done|].
    by constructor.
Qed.

Ltac not_a_job Hreqs Hin :=
  repeat first
    [ apply elem_of_app in Hin as [Hin|Hin]
    | apply elem_of_cons in Hin as [Hin|Hin]; [discriminate Hin|] ];
  try (by inversion Hin);
  try (rewrite Forall_forall in Hreqs;
       destruct (Hreqs _ Hin) as (? & ? & ? & ? & ? & ?); discriminate).

Ltac no_jobs :=
  cbn [snd]; eexists;
  (split; [rewrite <- ?app_assoc;
           first [reflexivity | symmetry; apply app_nil_r]|]);
  left; intros nj bj cj Hin;
  repeat first
    [ apply elem_of_app in Hin as [Hin|Hin]
    | apply elem_of_cons in Hin as [Hin|Hin]; [discriminate Hin|] ];
  try (by inversion Hin);
  try (match goal with
       | H : Forall _ ?reqs, Hin : _ ∈ ?reqs |- _ =>
           rewrite Forall_forall in H;
           destruct (H _ Hin) as (? & ? & ? & ? & ? & ?); discriminate
       end).

(** What [run_impl] has done when it ends: either it never called
    [prepare_jobs], or it called it once, after everything else that it
    checks and asks for. *)
Lemma run_impl_reaches_jobs t :
  ∃ evs,
    (run_impl t).2 = t ++ evs ∧
    ((∀ n bl c, PrepareJobs n bl c ∉ evs) ∨
     ∃ shape' reqs pre post bl,
       evs = pre ++ PrepareJobs (Z.of_nat (length bl) `min` Self.max_jobs self)
                      bl (job_config global_config_values.2) :: post ∧
       (∀ n' bl' c', PrepareJobs n' bl' c' ∉ pre ++ post) ∧
       bl = (if decide (Self.n_retries self = 0)
             then blocks_in_volume shape' global_config_values.2
             else Self.block_list self) ∧
       (Self.n_retries self ≠ 0 →
        CleanUpForRetry (Self.block_list self) ∈ pre) ∧
       Self.framework self ∈ ["pytorch"; "inferno"]%string ∧
       head (Self.input_scales self) ≫= g = Some shape' ∧
       Forall (fun s => is_Some (g s)) (Self.input_scales self) ∧
       Z.of_nat (length (Self.scale_halos self))
       = Z.of_nat (length (Self.input_scales self)) - 1 ∧
       Z.of_nat (length (Self.scale_factors self))
       = Z.of_nat (length (Self.input_scales self)) - 1 ∧
       all_divide (zip (default ((fun bs => bs / 2) <$> global_config_values.2)
                                (TaskConfig.chunks get_task_config))
                       global_config_values.2) = Ok true ∧
       (∀ q, q ∈ reqs → q ∈ pre) ∧
       Forall2 (fun (p : string * list Z) q =>
                  length p.2 = 2%nat ∧ p.2 !!! 1%nat - p.2 !!! 0%nat > 0 ∧
                  q = if bool_decide (p.2 !!! 1%nat - p.2 !!! 0%nat > 1)
                         && bool_decide
                              (TaskConfig.channel_accumulation get_task_config
                               = None)
                      then RequireDataset p.1
                             ((p.2 !!! 1%nat - p.2 !!! 0%nat) :: shape')
                             (1 :: default ((fun bs => bs / 2)
                                              <$> global_config_values.2)
                                     (TaskConfig.chunks get_task_config))
                             (default "uint8"%string
                                (TaskConfig.dtype get_task_config))
                             (default "gzip"%string
                                (TaskConfig.compression get_task_config))
                      else RequireDataset p.1 shape'
                             (default ((fun bs => bs / 2)
                                         <$> global_config_values.2)
                                (TaskConfig.chunks get_task_config))
                             (default "uint8"%string
                                (TaskConfig.dtype get_task_config))
                             (default "gzip"%string
                                (TaskConfig.compression get_task_config)))
               (Self.output_key self) reqs).
Proof.
  unfold InferenceTask.run_impl.
  destruct global_config_values as [shebang block_shape]. cbn [snd].
  run_setup.
  destruct (bool_decide (Self.framework self ∈ _)) eqn:Efw;
    cbn [of_result assert]; [|no_jobs].
  apply bool_decide_eq_true in Efw.
  destruct (perform (Init shebang)); cbn [of_result]; [|no_jobs].
  destruct (bool_decide (default "uint8"%string _ ∈ _));
    cbn [of_result assert]; [|no_jobs].
  destruct (check_scales g 0 _ None) as [shape|] eqn:Ec; [|no_jobs].
  apply check_scales_first in Ec as [Hshape Hscales].
  destruct (bool_decide (Z.of_nat (length (Self.scale_halos self)) = _)) eqn:Eh;
    cbn [of_result assert]; [|no_jobs].
  destruct (bool_decide (Z.of_nat (length (Self.scale_factors self)) = _))
    eqn:Ef; cbn [of_result assert]; [|no_jobs].
  apply bool_decide_eq_true in Eh, Ef.
  assert (∃ shape', shape = Some shape') as [shape' ->].
  { destruct (Self.input_scales self) as [|s l]; [cbn in Eh; lia|].
    apply Forall_cons in Hscales as [[sh Hs] _]. exists sh.
    by rewrite Hshape. }
  symmetry in Hshape.
  destruct (all_divide _) as [[]|] eqn:Ed; cbn [of_result assert];
    [|no_jobs|no_jobs].
  match goal with
  | |- context [make_output_volumes ?sh ?ch ?dt ?co ?acc ?l ?t0] =>
      destruct (make_output_volumes_requires sh ch dt co acc l t0)
        as (r & reqs & -> & Hreqs & Hok)
  end.
  destruct r as [[]|e]; [|no_jobs]. specialize (Hok eq_refl).
  eapply Forall2_impl in Hok;
    [|intros p q (H1 & H2 & sh & [= <-] & H3);
      exact (conj H1 (conj H2 H3))].
  destruct (decide (Self.mask_path self ≠ ""%string)) as [Hmask|Hmask];
    [destruct (bool_decide (Self.mask_key self ≠ ""%string));
     cbn [of_result assert]; [|no_jobs]|].
  all: destruct (decide (Self.n_retries self = 0)) as [Hretry|Hretry];
    [cbn [bound]
    |destruct (perform (CleanUpForRetry _)); cbn [of_result]; [|no_jobs]].
  all: destruct (perform (PrepareJobs _ _ _)); cbn [of_result];
    [destruct (perform (SubmitJobs _)); cbn [of_result];
     [destruct (perform WaitForJobs); cbn [of_result]|]|].
  all: cbn [snd]; eexists;
    (split; [rewrite <- ?app_assoc; reflexivity|]); right;
    first
      [ exists shape', reqs, ([Init shebang] ++ reqs); eexists _, _;
        split; [cbn [app]; reflexivity|]
      | exists shape', reqs,
          ([Init shebang] ++ reqs ++ [CleanUpForRetry (Self.block_list self)]);
        eexists _, _;
        split; [rewrite <- ?app_assoc; cbn [app]; reflexivity|] ];
    (split; [intros nj bj cj Hin; not_a_job Hreqs Hin|]);
    split_and!;
    [done|intros; try done; rewrite !elem_of_app, !elem_of_cons; tauto
    |done|done|done|done|done|reflexivity
    |intros q Hq; rewrite !elem_of_app; tauto|exact Hok].
Qed.


(** The same, for a call of [prepare_jobs] found in the trace. *)
Lemma run_impl_prepared n bl c :
  PrepareJobs n bl c ∈ (run_impl []).2 →
  ∃ shape' reqs pre post,
    (run_impl []).2 = pre ++ PrepareJobs n bl c :: post ∧
    (∀ n' bl' c', PrepareJobs n' bl' c' ∉ pre ++ post) ∧
    n = Z.of_nat (length bl) `min` Self.max_jobs self ∧
    c = job_config global_config_values.2 ∧
    bl = (if decide (Self.n_retries self = 0)
          then blocks_in_volume shape' global_config_values.2
          else Self.block_list self) ∧
    (Self.n_retries self ≠ 0 →
     CleanUpForRetry (Self.block_list self) ∈ pre) ∧
    Self.framework self ∈ ["pytorch"; "inferno"]%string ∧
    head (Self.input_scales self) ≫= g = Some shape' ∧
    Forall (fun s => is_Some (g s)) (Self.input_scales self) ∧
    Z.of_nat (length (Self.scale_halos self))
    = Z.of_nat (length (Self.input_scales self)) - 1 ∧
    Z.of_nat (length (Self.scale_factors self))
    = Z.of_nat (length (Self.input_scales self)) - 1 ∧
    all_divide (zip (default ((fun bs => bs / 2) <$> global_config_values.2)
                             (TaskConfig.chunks get_task_config))
                    global_config_values.2) = Ok true ∧
    (∀ q, q ∈ reqs → q ∈ pre) ∧
    Forall2 (fun (p : string * list Z) q =>
               length p.2 = 2%nat ∧ p.2 !!! 1%nat - p.2 !!! 0%nat > 0 ∧
               q = if bool_decide (p.2 !!! 1%nat - p.2 !!! 0%nat > 1)
                      && bool_decide
                           (TaskConfig.channel_accumulation get_task_config
                            = None)
                   then RequireDataset p.1
                          ((p.2 !!! 1%nat - p.2 !!! 0%nat) :: shape')
                          (1 :: default ((fun bs => bs / 2)
                                           <$> global_config_values.2)
                                  (TaskConfig.chunks get_task_config))
                          (default "uint8"%string
                             (TaskConfig.dtype get_task_config))
                          (default "gzip"%string
                             (TaskConfig.compression get_task_config))
                   else RequireDataset p.1 shape'
                          (default ((fun bs => bs / 2)
                                      <$> global_config_values.2)
                             (TaskConfig.chunks get_task_config))
                          (default "uint8"%string
                             (TaskConfig.dtype get_task_config))
                          (default "gzip"%string
                             (TaskConfig.compression get_task_config)))
            (Self.output_key self) reqs.
Proof.
  intros Hin. destruct (run_impl_reaches_jobs []) as (evs & Hevs & H).
  rewrite app_nil_l in Hevs. rewrite Hevs in *.
  destruct H as [H|(shape' & reqs & pre & post & bl0 & -> & Hno & H)];
    [by apply H in Hin|].
  apply elem_of_app in Hin as [Hin|Hin];
    [exfalso; eapply Hno, elem_of_app; left; exact Hin|].
  apply elem_of_cons in Hin as [[= -> -> ->]|Hin];
    [|exfalso; eapply Hno, elem_of_app; right; exact Hin].
  exists shape', reqs, pre, post.
  destruct H as (? & ? & ? & ? & ? & ? & ? & ? & ? & ?).
  by split_and!.
Qed.

(** Chunks that are half the block shape divide it for even entries and
    for 3 and -1. *)
Lemma all_divide_halves (block_shape : list Z) :
  all_divide (zip ((fun bs => bs / 2) <$> block_shape) block_shape) = Ok true →
  Forall (fun bs => (bs mod 2 = 0 ∧ bs ≠ 0) ∨ bs = 3 ∨ bs = -1) block_shape.
Proof.
  induction block_shape as [|bs l IH]; [constructor|].
  cbn [fmap list_fmap zip zip_with all_divide].
  destruct (decide (bs / 2 = 0)) as [E0|E0]; [discriminate|].
  destruct (decide (bs mod (bs / 2) = 0)) as [E1|E1]; [|discriminate].
  intros H. constructor; [|by apply IH].
  apply Z.mod_divide in E1 as [q Hq]; [|done].
  pose proof (Z.div_mod bs 2 ltac:(lia)) as Hd.
  pose proof (Z.mod_pos_bound bs 2 ltac:(lia)) as Hm.
  destruct (decide (bs mod 2 = 0)) as [Em|Em]; [left; lia|right].
  assert (Hk : (q - 2) * (bs / 2) = 1) by lia.
  apply Z.eq_mul_1 in Hk. lia.
Qed.

(** X26. When [run_impl] calls [prepare_jobs], it does so once, and by then
    it has required one dataset per output key: with the shape of the first
    input scale and the chunks of the task, and with a leading channel axis
    of chunk 1 when the key takes more than one channel and no channel
    accumulation is configured. *)
Theorem output_datasets_precede_the_jobs n bl c :
  PrepareJobs n bl c ∈ (run_impl []).2 →
  ∃ shape' reqs pre post,
    (run_impl []).2 = pre ++ PrepareJobs n bl c :: post ∧
    (∀ n' bl' c', PrepareJobs n' bl' c' ∉ pre ++ post) ∧
    head (Self.input_scales self) ≫= g = Some shape' ∧
    (∀ q, q ∈ reqs → q ∈ pre) ∧
    Forall2 (fun (p : string * list Z) q =>
               length p.2 = 2%nat ∧ p.2 !!! 1%nat - p.2 !!! 0%nat > 0 ∧
               q = if bool_decide (p.2 !!! 1%nat - p.2 !!! 0%nat > 1)
                      && bool_decide
                           (TaskConfig.channel_accumulation get_task_config
                            = None)
                   then RequireDataset p.1
                          ((p.2 !!! 1%nat - p.2 !!! 0%nat) :: shape')
                          (1 :: default ((fun bs => bs / 2)
                                           <$> global_config_values.2)
                                  (TaskConfig.chunks get_task_config))
                          (default "uint8"%string
                             (TaskConfig.dtype get_task_config))
                          (default "gzip"%string
                             (TaskConfig.compression get_task_config))
                   else RequireDataset p.1 shape'
                          (default ((fun bs => bs / 2)
                                      <$> global_config_values.2)
                             (TaskConfig.chunks get_task_config))
                          (default "uint8"%string
                             (TaskConfig.dtype get_task_config))
                          (default "gzip"%string
                             (TaskConfig.compression get_task_config)))
            (Self.output_key self) reqs.
Proof.
  intros H. apply run_impl_prepared in H
    as (shape' & reqs & pre & post & ? & ? & ? & ? & ? & ? & ? & ? & ? & ?
        & ? & ? & ? & ?).
  exists shape', reqs, pre, post. by split_and!.
Qed.

(** X27. The jobs get the blocks of the volume of the first input scale,
    every input scale being in the input group; on a retry they get the
    block list of the task instead, after [clean_up_for_retry].  There are
    as many jobs as blocks, and at most [max_jobs]. *)
Theorem jobs_share_the_blocks_of_the_first_scale n bl c :
  PrepareJobs n bl c ∈ (run_impl []).2 →
  Forall (fun s => is_Some (g s)) (Self.input_scales self) ∧
  n = Z.of_nat (length bl) `min` Self.max_jobs self ∧
  if decide (Self.n_retries self = 0)
  then ∃ shape', head (Self.input_scales self) ≫= g = Some shape' ∧
                 bl = blocks_in_volume shape' global_config_values.2
  else bl = Self.block_list self ∧
       ∃ pre post, (run_impl []).2 = pre ++ PrepareJobs n bl c :: post ∧
                   CleanUpForRetry bl ∈ pre.
Proof.
  intros H. apply run_impl_prepared in H
    as (shape' & reqs & pre & post & Ht & ? & ? & ? & Hbl & Hcl & ? & ? & ?
        & ? & ? & ? & ? & ?).
  split; [done|]. split; [done|].
  destruct (decide (Self.n_retries self = 0)) as [E|E]; [by eauto|].
  split; [done|]. exists pre, post. split; [done|]. rewrite Hbl. by apply Hcl.
Qed.

(** X28. With no chunks in the task configuration the chunks are half the
    block shape, and [run_impl] gets as far as [prepare_jobs] only if every
    entry of the block shape is even and not 0, or 3, or -1. *)
Theorem default_chunks_need_an_even_block_shape n bl c :
  TaskConfig.chunks get_task_config = None →
  PrepareJobs n bl c ∈ (run_impl []).2 →
  Forall (fun bs => (bs mod 2 = 0 ∧ bs ≠ 0) ∨ bs = 3 ∨ bs = -1)
         global_config_values.2.
Proof.
  intros Hc H. apply run_impl_prepared in H
    as (shape' & reqs & pre & post & ? & ? & ? & ? & ? & ? & ? & ? & ? & ?
        & ? & Hd & ? & ?).
  rewrite Hc in Hd. by apply all_divide_halves.
Qed.

(** *** The jobs of a task *)

Section PreparedJobs.
Context {V Pre PrepModel : Type}.
Variable env : imports.
Variable np_getattr : string -> option (ndarray V -> ndarray V).
Variable get_prep_model : string -> result PrepModel.
Variable load_predictor :
  predictor_class -> string -> list Z -> Z -> option PrepModel -> bool ->
  result (Pre -> result (pdata V)).
Variable preprocess_torch : list loaded -> result Pre.
Variable g_in : string -> option (list Z).
Variable f_out : string -> option out_dataset.
Variable nt_blocking : list Z -> list Z -> list Z -> blocking.
Variable load_mask :
  string -> string -> list Z -> result (list (Z * Z) -> list bool).
Variable _to_uint8 : ndarray V -> ndarray V.
Variable store_write : nat -> list slice -> ndarray V -> result unit.

#[local] Abbreviation multiscale_inference :=
  (multiscale_inference env np_getattr get_prep_model load_predictor
     preprocess_torch g_in f_out nt_blocking load_mask _to_uint8 store_write).

(** X29. [run_impl] accepts any number of input scales, as long as there
    is one scale halo and one scale factor less; a job needs three.  So when
    a task with other than three input scales gets its jobs prepared, each
    of them raises AssertionError after its first two log lines. *)
Theorem jobs_of_a_task_without_three_scales_fail n bl c job_id block_list t :
  PrepareJobs n bl c ∈ (run_impl []).2 →
  length (Self.input_scales self) ≠ 3%nat →
  multiscale_inference job_id c block_list t
  = (Raises (Exn AssertionError),
     t ++ [Log (StartProcessingJob job_id); Log ReadingConfig]).
Proof.
  intros H Hn. apply run_impl_prepared in H
    as (shape' & reqs & pre & post & ? & ? & ? & -> & ? & ? & ? & ? & ? & Hh
        & Hf & ? & ? & ?).
  unfold InferenceTask.multiscale_inference, InferenceTask.job_config.
  cbn [Config.scale_factors Config.scale_halos].
  unfold check; unfold mbind, SetupM_bind, mret, SetupM_ret, tell, pure;
    cbn [fst snd].
  rewrite InferenceJobFacts.scale_check_false by (left; lia).
  cbn. by rewrite <- app_assoc.
Qed.

(** X30. A job that [run_impl] prepared never meets an unknown framework:
    its preprocessor is the torch one, and its predictor class is that of
    its framework unless an import is missing, which is an
    AssertionError. *)
Theorem prepared_jobs_know_their_framework {K} n bl c (kwargs : K) :
  PrepareJobs n bl c ∈ (run_impl []).2 →
  get_preprocessor (Config.framework c) kwargs
  = Returns (PreprocessTorch kwargs) ∧
  (get_predictor env (Config.framework c) = Raises (Exn AssertionError)
   ∨ get_predictor env (Config.framework c) = Returns PytorchPredicter
     ∧ Config.framework c = "pytorch"%string
   ∨ get_predictor env (Config.framework c) = Returns InfernoPredicter
     ∧ Config.framework c = "inferno"%string).
Proof.
  intros H. apply run_impl_prepared in H
    as (shape' & reqs & pre & post & ? & ? & ? & -> & ? & ? & Hfw & ?).
  unfold InferenceTask.job_config. cbn [Config.framework].
  apply elem_of_cons in Hfw as [->|Hfw];
    [|apply elem_of_cons in Hfw as [->|Hfw]; [|inversion Hfw]].
  - split; [reflexivity|]. unfold get_predictor. cbn.
    destruct (torch env); cbn; auto.
  - split; [reflexivity|]. unfold get_predictor. cbn.
    destruct (torch env), (Trainer env); cbn; auto.
Qed.

End PreparedJobs.

End RunImplFacts.

Lemma output_datasets_precede_the_jobs_witness :
  ∃ shape' reqs pre post,
    (ex_run_impl "pytorch" 3 []).2
    = pre ++ PrepareJobs 2 [0; 1] (ex_config "pytorch" 3) :: post ∧
    (∀ n' bl' c', PrepareJobs n' bl' c' ∉ pre ++ post) ∧
    head ["s0"; "s1"; "s2"]%string ≫= ex_g = Some shape' ∧
    (∀ q, q ∈ reqs → q ∈ pre) ∧
    Forall2 (fun (p : string * list Z) q =>
               length p.2 = 2%nat ∧ p.2 !!! 1%nat - p.2 !!! 0%nat > 0 ∧
               q = if bool_decide (p.2 !!! 1%nat - p.2 !!! 0%nat > 1) && true
                   then RequireDataset p.1
                          ((p.2 !!! 1%nat - p.2 !!! 0%nat) :: shape')
                          [1; 1; 1; 1] "float32" "gzip"
                   else RequireDataset p.1 shape' [1; 1; 1] "float32" "gzip")
            [("out"%string, [0; 1])] reqs.
Proof.
  apply (output_datasets_precede_the_jobs
           (ex_self "pytorch" 3) ("#! /bin/python"%string, [2; 2; 2])
           ex_task_config ex_g ex_blocks_in_volume ex_perform
           2 [0; 1] (ex_config "pytorch" 3)).
  apply (list_elem_of_lookup_2 _ 2%nat). reflexivity.
Defined.

Lemma jobs_share_the_blocks_of_the_first_scale_witness :
  Forall (fun s => is_Some (ex_g s)) ["s0"; "s1"; "s2"]%string ∧
  2 = Z.of_nat (length [0; 1]) `min` 2 ∧
  ∃ shape', head ["s0"; "s1"; "s2"]%string ≫= ex_g = Some shape' ∧
            [0; 1] = ex_blocks_in_volume shape' [2; 2; 2].
Proof.
  apply (jobs_share_the_blocks_of_the_first_scale
           (ex_self "pytorch" 3) ("#! /bin/python"%string, [2; 2; 2])
           ex_task_config ex_g ex_blocks_in_volume ex_perform
           2 [0; 1] (ex_config "pytorch" 3)).
  apply (list_elem_of_lookup_2 _ 2%nat). reflexivity.
Defined.

Lemma default_chunks_need_an_even_block_shape_witness :
  Forall (fun bs => (bs mod 2 = 0 ∧ bs ≠ 0) ∨ bs = 3 ∨ bs = -1) [2; 2; 2].
Proof.
  apply (default_chunks_need_an_even_block_shape
           (ex_self "pytorch" 3) ("#! /bin/python"%string, [2; 2; 2])
           ex_task_config ex_g ex_blocks_in_volume ex_perform
           2 [0; 1] (ex_config "pytorch" 3)).
  - reflexivity.
  - apply (list_elem_of_lookup_2 _ 2%nat). reflexivity.
Defined.

Lemma jobs_of_a_task_without_three_scales_fail_witness :
  ex_job 7 (ex_config "pytorch" 1) [0; 1] []
  = (Raises (Exn AssertionError),
     [] ++ [Log (StartProcessingJob 7); Log ReadingConfig]).
Proof.
  apply (jobs_of_a_task_without_three_scales_fail
           (ex_self "pytorch" 1) ("#! /bin/python"%string, [2; 2; 2])
           ex_task_config ex_g ex_blocks_in_volume ex_perform)
    with (n := 2) (bl := [0; 1]).
  - apply (list_elem_of_lookup_2 _ 2%nat). reflexivity.
  - vm_compute. lia.
Defined.

Lemma prepared_jobs_know_their_framework_witness :
  get_preprocessor (Config.framework (ex_config "pytorch" 3)) tt
  = Returns (PreprocessTorch tt) ∧
  (get_predictor (Imports true true true)
                 (Config.framework (ex_config "pytorch" 3))
   = Raises (Exn AssertionError)
   ∨ get_predictor (Imports true true true)
                   (Config.framework (ex_config "pytorch" 3))
     = Returns PytorchPredicter
     ∧ Config.framework (ex_config "pytorch" 3) = "pytorch"%string
   ∨ get_predictor (Imports true true true)
                   (Config.framework (ex_config "pytorch" 3))
     = Returns InfernoPredicter
     ∧ Config.framework (ex_config "pytorch" 3) = "inferno"%string).
Proof.
  apply (prepared_jobs_know_their_framework
           (ex_self "pytorch" 3) ("#! /bin/python"%string, [2; 2; 2])
           ex_task_config ex_g ex_blocks_in_volume ex_perform
           (Imports true true true) 2 [0; 1] (ex_config "pytorch" 3) tt).
  apply (list_elem_of_lookup_2 _ 2%nat). reflexivity.
Defined.

End RunImplFacts.
